(** * solanabot: fund split ledger, trading loops, persistence and recovery

    A shallow embedding of the parts of the volume bot that its specification
    talks about:

    - [FundManager]          (src/fundManager.ts)
    - [WalletManager]        (src/walletManager.ts, [processFunding])
    - [SessionPersistence]   (src/sessionPersistence.ts)
    - [AutoTradingService]   (src/autoTradingService.ts)
    - [UserVolumeBot]        (the volume bot with [startContinuousTrading])
    - [TokenValidator]       (src/tokenValidator.ts, the choice of a pool)
    - [DexTrader]            (src/dexTrader.ts, [validateTradeability])

    Conventions of the embedding.

    - A JavaScript [number] that holds an amount of SOL is a rational ([Q]);
      literals such as [0.001] are the decimal they denote.  Where the
      properties below depend on the rounding of IEEE doubles, the result of
      the operation is rounded with [Num.double]: the products and the
      [Number(_.toFixed(8))] of the fee split ([processFundSplit],
      [processFunding]) and the quotient and the products of the completion
      test of [updateTradingStats].  [Num.double] rounds to 53 significant
      bits with an exponent of any size: overflow and subnormal numbers are
      outside the model.  Every other operation is exact: what is proved
      about it holds up to the rounding of doubles.  The one place where the
      code can divide by zero ([updateTradingStats]) uses [Num.number], which
      adds the two infinities and NaN.
    - A method that is called but defined by no class of the sources is
      [undefined]; calling it throws a [TypeError]
      ([generateTransactionWallet] in [startTradingLoop]).
    - A thrown [Error] is its message: code that can throw returns
      [string + A].
    - Everything the code obtains from outside (the clock, [Math.random()],
      RPC balance reads, the outcome of a swap or of a transfer) is an
      explicit input of the function that reads it.
    - Mutable singletons are records that are passed in and returned. *)

From Stdlib Require Import QArith Qround Qabs Qpower Lqa ZArith Lia.
From Stdlib Require Import String Ascii DecimalString DecimalPos DecimalN.
From stdpp Require Import base option list gmap strings.

#[local] Open Scope string_scope.
#[local] Open Scope Q_scope.

(** ** Numbers *)

Module Num.

Definition Qltb (x y : Q) : bool := negb (Qle_bool y x).

(** [Math.min] and [Math.max] on two finite numbers. *)
Definition min (x y : Q) : Q := if Qle_bool x y then x else y.
Definition max (x y : Q) : Q := if Qle_bool x y then y else x.

(** Nearest integer, a tie going up: the [n] for which [n - x] is as close to
    zero as possible, the larger [n] if there are two. *)
Definition roundHalfUp (x : Q) : Z := Qfloor (x + (1 # 2)).

(** [2^k], for [k] of either sign. *)
Definition pow2 (k : Z) : Q := Qpower 2 k.

(** The binary exponent of a positive [x]: the [k] with
    [2^k <= x < 2^(k+1)]. *)
Definition ilog2 (x : Q) : Z :=
  let k := (Z.log2 (Qnum x) - Z.log2 (Zpos (Qden x)))%Z in
  if Qle_bool (pow2 k) x then k else (k - 1)%Z.

(** Nearest integer, a tie going to the even one. *)
Definition roundHalfEven (x : Q) : Z :=
  let f := Qfloor x in
  match Qcompare (x - inject_Z f) (1 # 2) with
  | Lt => f
  | Gt => (f + 1)%Z
  | Eq => if Z.even f then f else (f + 1)%Z
  end.

(** [Number.EPSILON], [2^-52]. *)
Definition epsilon : Q := 1 # 4503599627370496.

(** The double nearest to [x], a tie going to the even significand: the
    value of a literal, and the result of an arithmetic operation whose
    exact result is [x]. *)
Definition double (x : Q) : Q :=
  if Qeq_bool x 0 then 0
  else
    let e := (ilog2 (Qabs x) - 52)%Z in
    let m := roundHalfEven (Qabs x / pow2 e) in
    Qred ((if Qle_bool 0 x then inject_Z m else - inject_Z m) * pow2 e).

(** [x * y] *)
Definition mul (x y : Q) : Q := double (x * y).

Definition pow10_8 : Z := 100000000.
Definition pow10_21 : Z := 1000000000000000000000.

(** The number of units of 10^-8 that [x.toFixed(8)] prints; a negative [x]
    is printed as the sign followed by the digits of [-x]. *)
Definition toFixed8_units (x : Q) : Z :=
  if Qle_bool 0 x then roundHalfUp (x * inject_Z pow10_8)
  else (- roundHalfUp ((- x) * inject_Z pow10_8))%Z.

(** The decimal that [x.toFixed(8)] prints.  From 10^21 on [toFixed] prints
    the number itself, in exponent notation. *)
Definition toFixed8 (x : Q) : Q :=
  if Qle_bool (inject_Z pow10_21) (Qabs x) then x
  else inject_Z (toFixed8_units x) / inject_Z pow10_8.

(** [Number(x.toFixed(8))]: the double nearest to the printed decimal. *)
Definition numberToFixed8 (x : Q) : Q := double (toFixed8 x).

(** The result of a JavaScript division: a finite number, an infinity or
    NaN. *)
Inductive number : Type :=
| Finite (q : Q)
| PosInfinity
| NegInfinity
| NaN.

(** [a / b] for finite [a] and [b]; a zero divisor is [+0] wherever the
    model divides. *)
Definition div (a b : Q) : number :=
  if Qeq_bool b 0 then
    if Qeq_bool a 0 then NaN
    else if Qltb 0 a then PosInfinity else NegInfinity
  else Finite (double (a / b)).

(** [x * c] for a finite [c > 0]. *)
Definition scale (x : number) (c : Q) : number :=
  match x with
  | Finite q => Finite (double (q * c))
  | other => other
  end.

(** [x <= c]; every comparison with NaN is false. *)
Definition leb (x : number) (c : Q) : bool :=
  match x with
  | Finite q => Qle_bool q c
  | PosInfinity => false
  | NegInfinity => true
  | NaN => false
  end.

(** [Date.now()] and other integers inside a template string. *)
Definition showN (n : N) : string := NilZero.string_of_uint (N.to_uint n).

(** [hay.includes(needle)]. *)
Fixpoint includes (needle hay : string) : bool :=
  String.prefix needle hay ||
  match hay with
  | EmptyString => false
  | String _ rest => includes needle rest
  end.

End Num.

(** How a number is printed inside a template string ([`${amount}`]).  The
    duplicate check of the fund manager compares keys that contain a printed
    amount; nothing is assumed about the printer. *)
Class NumberFormat := numberToString : Q -> string.

(** A printer for closed examples: the reduced fraction. *)
Definition fractionFormat : NumberFormat :=
  fun q =>
    NilZero.string_of_int (Z.to_int (Qnum (Qred q))) ++ "/" ++
    NilZero.string_of_uint (Pos.to_uint (Qden (Qred q))).

(** ** src/fundManager.ts *)

Module FundManager.

Record FundSplit : Type := mkFundSplit {
  userTradingAmount : Q;
  revenueAmount : Q;
  totalAmount : Q;
  revenueWallet : string;
  timestamp : N
}.

Inductive Purpose : Type := REVENUE_COLLECTION | TRADING_FUNDING | REFUND.

Record FundTransfer : Type := mkFundTransfer {
  fromWallet : string;
  toWallet : string;
  amount : Q;
  signature : string;
  transferTime : N;
  purpose : Purpose
}.

Record ValidationResult : Type := mkValidationResult {
  isValid : bool;
  message : string;
  minimumRequired : Q
}.

Definition REVENUE_WALLET : string := "8oj8bJ43BPE7818Pj3CAUnAe5gqGHHMKTCiMF4aCEtW6".
Definition REVENUE_PERCENTAGE : Q := 25 # 100.
Definition TRADING_PERCENTAGE : Q := 75 # 100.
Definition MINIMUM_DEPOSIT_SOL : Q := 1 # 10.

Definition PRIVILEGED_WALLETS : list string :=
  [ "2EJEuS1UaXaratBSiJJxd2p93XdvTL6uSHGXj2ZCx6Qt";
    "DAt9mmiYvh1uS5EtFMtb5uuPVWL1sPNfZtLULcthDVkC";
    "9hWRQJaTDeQKPu4kqDcBFFtBv4uTH75G29iTeGuo4zwi" ].

(** The three private collections of the singleton.  [fundSplits] is a
    [Map], kept in insertion order because [getFundSplit] walks it. *)
Record State : Type := mkState {
  processedTransactions : gset string;
  fundSplits : list (string * FundSplit);
  revenueTransfers : list FundTransfer
}.

Definition initial : State := mkState ∅ [] [].

(** What the chain answers to the revenue transfer. *)
Inductive TransferOutcome : Type :=
| Confirmed (sig : string)
| Rejected (error : string).

(** The outside world during one call. *)
Record World : Type := mkWorld {
  dateNow : N;
  transfer : TransferOutcome
}.

(** [PRIVILEGED_WALLETS.includes(address)] *)
Definition isPrivilegedWallet (walletAddress : string) : bool :=
  bool_decide (walletAddress ∈ PRIVILEGED_WALLETS).

Definition validateMinimumDeposit (userWalletAddress : string) (amount : Q)
  : ValidationResult :=
  if isPrivilegedWallet userWalletAddress then
    mkValidationResult true "Deposit meets minimum requirement" MINIMUM_DEPOSIT_SOL
  else if Num.Qltb amount MINIMUM_DEPOSIT_SOL then
    mkValidationResult false
      "Minimum deposit is 0.1 SOL. Please deposit at least 0.1 SOL to use the volume bot."
      MINIMUM_DEPOSIT_SOL
  else
    mkValidationResult true "Deposit meets minimum requirement" MINIMUM_DEPOSIT_SOL.

(** [Map.has] and [Map.set] on the insertion-ordered map. *)
Definition mapHas {V} (k : string) (m : list (string * V)) : bool :=
  existsb (fun e => String.eqb (fst e) k) m.

Fixpoint mapSet {V} (k : string) (v : V) (m : list (string * V)) : list (string * V) :=
  match m with
  | [] => [(k, v)]
  | (k', v') :: rest =>
      if String.eqb k' k then (k, v) :: rest else (k', v') :: mapSet k v rest
  end.

(** An optional string argument used as a condition: [undefined] and the
    empty string are false. *)
Definition truthy (o : option string) : bool :=
  match o with
  | Some s => negb (String.eqb s "")
  | None => false
  end.

(** [`${sessionId}_${totalAmount}_${Date.now()}`] *)
Definition splitKey `{NumberFormat} (sessionId : string) (totalAmount : Q) (now : N)
  : string :=
  sessionId ++ "_" ++ numberToString totalAmount ++ "_" ++ Num.showN now.

Definition executeRevenueTransfer (fm : State) (w : World)
    (userPublicKey : string) (revenueAmount : Q) (sessionId : string)
  : (string + string) * State :=
  if Qle_bool revenueAmount 0 then
    (inl "INVALID REVENUE AMOUNT - BLOCKING TRANSFER", fm)
  else
    match transfer w with
    | Confirmed sig =>
        (inr sig,
         mkState (processedTransactions fm) (fundSplits fm)
           (revenueTransfers fm ++
              [mkFundTransfer userPublicKey REVENUE_WALLET revenueAmount sig
                 (dateNow w) REVENUE_COLLECTION]))
    | Rejected error => (inl ("REVENUE_TRANSFER_FAILED: " ++ error), fm)
    end.

Definition privilegedWallet : string := "2EJEuS1UaXaratBSiJJxd2p93XdvTL6uSHGXj2ZCx6Qt".

(** [userPublicKey] is [userKeypair.publicKey.toBase58()]. *)
Definition processFundSplit `{NumberFormat} (fm : State) (w : World)
    (sessionId userPublicKey : string) (totalAmount : Q)
    (transactionId fundingSource : option string)
  : (string + FundSplit) * State :=
  let isPrivilegedDeposit := bool_decide (fundingSource = Some privilegedWallet) in
  let depositValidation := validateMinimumDeposit userPublicKey totalAmount in
  if negb isPrivilegedDeposit && negb (isValid depositValidation) then
    (inl ("MINIMUM DEPOSIT NOT MET: " ++ message depositValidation), fm)
  else
    let key := splitKey sessionId totalAmount (dateNow w) in
    if mapHas key (fundSplits fm) then
      (inl "DUPLICATE FUND SPLIT DETECTED - BLOCKING TO PROTECT INVESTOR FUNDS", fm)
    else if truthy transactionId &&
            bool_decide (default "" transactionId ∈ processedTransactions fm) then
      (inl "TRANSACTION ALREADY PROCESSED - PREVENTING DUPLICATE REVENUE COLLECTION", fm)
    else
      let revenue := Num.numberToFixed8 (Num.mul totalAmount REVENUE_PERCENTAGE) in
      let trading := Num.numberToFixed8 (Num.mul totalAmount TRADING_PERCENTAGE) in
      match executeRevenueTransfer fm w userPublicKey revenue sessionId with
      | (inl error, fm') => (inl error, fm')
      | (inr _, fm') =>
          let fundSplit := mkFundSplit trading revenue totalAmount REVENUE_WALLET (dateNow w) in
          (inr fundSplit,
           mkState
             (if truthy transactionId
              then {[ default "" transactionId ]} ∪ processedTransactions fm'
              else processedTransactions fm')
             (mapSet key fundSplit (fundSplits fm'))
             (revenueTransfers fm'))
      end.

(** [getFundSplit]: the first split whose key starts with the session id. *)
Definition getFundSplit (fm : State) (sessionId : string) : option FundSplit :=
  snd <$> List.find (fun e => String.prefix sessionId (fst e)) (fundSplits fm).

(** Every split [getFundSplit] could return for the session. *)
Definition splitsOfSession (fm : State) (sessionId : string) : list FundSplit :=
  snd <$> List.filter (fun e => String.prefix sessionId (fst e)) (fundSplits fm).

Definition isAmountProcessed (fm : State) (sessionId : string) (amount : Q) : bool :=
  existsb (fun e => String.prefix sessionId (fst e) && Qeq_bool (totalAmount (snd e)) amount)
    (fundSplits fm).

Definition getTotalRevenueCollected (fm : State) : Q :=
  fold_left (fun total t => total + amount t)
    (List.filter (fun t => match purpose t with REVENUE_COLLECTION => true | _ => false end)
       (revenueTransfers fm))
    0.

End FundManager.

(** ** src/walletManager.ts *)

Module WalletManager.

Inductive FundingStatus : Type := completed | pending | failed.

Record FundingSplit : Type := mkFundingSplit {
  userPortion : Q;
  revenuePortion : Q;
  revenueAddress : string;
  status : FundingStatus
}.

(** [userWallets], reduced to the public key of each session's wallet. *)
Definition State : Type := gmap string string.

Definition getUserWallet (wm : State) (sessionId : string) : option string :=
  wm !! sessionId.

(** The thrown 'User wallet not found for session' is caught inside and
    turned into a failed split. *)
Definition processFunding (wm : State) (sessionId : string) (amount : Q) : FundingSplit :=
  match getUserWallet wm sessionId with
  | Some _ =>
      mkFundingSplit (Num.mul amount (75 # 100)) (Num.mul amount (25 # 100))
        "8oj8bJ43BPE7818Pj3CAUnAe5gqGHHMTCiMF4aCErW6" completed
  | None =>
      mkFundingSplit 0 0 "8oj8bJ43BPE7818Pj3CAUnAe5gqGHHMTCiMF4aCErW6" failed
  end.

End WalletManager.

(** ** src/autoTradingService.ts: the in-memory session *)

Module Session.

Inductive TradeType : Type := BUY | SELL.

Definition flip (t : TradeType) : TradeType :=
  match t with BUY => SELL | SELL => BUY end.

(** [interface TradingSession].  [userWallet] is kept as its public key, a
    [Date] as the clock reading it was built from, and [intervalId] as the
    delay of the [setTimeout] whose handle it holds. *)
Record TradingSession : Type := mkTradingSession {
  sessionId : string;
  tokenAddress : string;
  userWallet : string;
  tradingBalance : Q;
  primaryDex : string;
  isActive : bool;
  startTime : N;
  totalTrades : N;
  totalVolume : Q;
  lastTradeTime : option N;
  intervalId : option N
}.

Definition setActive (b : bool) (s : TradingSession) : TradingSession :=
  mkTradingSession (sessionId s) (tokenAddress s) (userWallet s) (tradingBalance s)
    (primaryDex s) b (startTime s) (totalTrades s) (totalVolume s)
    (lastTradeTime s) (intervalId s).

Definition setIntervalId (h : option N) (s : TradingSession) : TradingSession :=
  mkTradingSession (sessionId s) (tokenAddress s) (userWallet s) (tradingBalance s)
    (primaryDex s) (isActive s) (startTime s) (totalTrades s) (totalVolume s)
    (lastTradeTime s) h.

Definition setTradingBalance (b : Q) (s : TradingSession) : TradingSession :=
  mkTradingSession (sessionId s) (tokenAddress s) (userWallet s) b
    (primaryDex s) (isActive s) (startTime s) (totalTrades s) (totalVolume s)
    (lastTradeTime s) (intervalId s).

Definition setTotalTrades (n : N) (s : TradingSession) : TradingSession :=
  mkTradingSession (sessionId s) (tokenAddress s) (userWallet s) (tradingBalance s)
    (primaryDex s) (isActive s) (startTime s) n (totalVolume s)
    (lastTradeTime s) (intervalId s).

(** The three assignments after a successful trade of
    [executeNeverStopTradingLoop]. *)
Definition countTrade (tradeAmount : Q) (now : N) (s : TradingSession) : TradingSession :=
  mkTradingSession (sessionId s) (tokenAddress s) (userWallet s) (tradingBalance s)
    (primaryDex s) (isActive s) (startTime s) (totalTrades s + 1)
    (totalVolume s + tradeAmount) (Some now) (intervalId s).

(** The four assignments after a successful trade of [startTradingLoop]. *)
Definition recordTrade (tradeAmount : Q) (now : N) (s : TradingSession) : TradingSession :=
  mkTradingSession (sessionId s) (tokenAddress s) (userWallet s)
    (tradingBalance s - tradeAmount)
    (primaryDex s) (isActive s) (startTime s) (totalTrades s + 1)
    (totalVolume s + tradeAmount) (Some now) (intervalId s).

(** The status the service reports for a session
    ([session.isActive ? 'active' : 'completed']). *)
Inductive Reported : Type := active | completed.

Definition reportedStatus (s : TradingSession) : Reported :=
  if isActive s then active else completed.

(** What the swap provider, and the wallet code before it, did with one
    trade.  An [error] that is [undefined] is the empty string. *)
Inductive TradeOutcome : Type :=
| Succeeded (sig : string)
| FailedWith (error : string)
| Threw.

(** One call of [dexTrader.executeTrade] that returned. *)
Record TradeAttempt : Type := mkTradeAttempt {
  attemptSession : string;
  side : TradeType;
  tradeAmount : Q;
  succeeded : bool;
  attemptError : string
}.

(** A balance read over RPC, in lamports. *)
Inductive BalanceReading : Type :=
| Balance (lamports : N)
| RpcError.

Definition toSOL (lamports : N) : Q := inject_Z (Z.of_N lamports) / 1000000000.

End Session.

(** ** src/sessionPersistence.ts *)

Module SessionPersistence.

(** The declared union is monitoring | trading | completed | paused; the
    service also writes 'stopped' and compares with 'active'. *)
Inductive Status : Type := monitoring | trading | completed | paused | stopped | active.

#[global] Instance Status_eq_dec : EqDecision Status.
Proof. solve_decision. Defined.

(** Fields that [interface PersistentSession] does not declare and
    [resumeTrading] reads from the stored JSON.  A flag is its truth value. *)
Record Overrides : Type := mkOverrides {
  forceActive : bool;
  useStoredBalance : bool;
  ignoreOnChainBalance : bool;
  bypassBalanceCheck : bool;
  revenueGuarantee : bool;
  overrideBalance : option Q
}.

Definition noOverrides : Overrides := mkOverrides false false false false false None.

(** [interface PersistentSession]; [tokenSymbol] is left out. *)
Record PersistentSession : Type := mkPersistentSession {
  sessionId : string;
  tokenAddress : string;
  userWallet : string;
  tradingBalance : Q;
  initialDeposit : Q;
  primaryDex : string;
  isActive : bool;
  startTime : N;
  totalTrades : N;
  totalVolume : Q;
  lastTradeTime : option N;
  targetDepletion : Q;
  status : Status;
  createdAt : N;
  completedAt : option N;
  overrides : Overrides
}.

(** The sessions file, always readable and writable. *)
Abbreviation Store := (list PersistentSession).

(** [sessions.findIndex(s => s.sessionId === sessionId)], with the element. *)
Definition findSession (sessions : Store) (id : string) : option (nat * PersistentSession) :=
  list_find (fun s => sessionId s = id) sessions.

Definition getSession (sessions : Store) (id : string) : option PersistentSession :=
  snd <$> findSession sessions id.

Definition saveSession (sessions : Store) (session : Session.TradingSession) : Store :=
  let persistentSession :=
    mkPersistentSession
      (Session.sessionId session) (Session.tokenAddress session)
      (Session.userWallet session) (Session.tradingBalance session)
      (Session.tradingBalance session / (75 # 100))
      (Session.primaryDex session) (Session.isActive session)
      (Session.startTime session) (Session.totalTrades session)
      (Session.totalVolume session) (Session.lastTradeTime session)
      (Session.tradingBalance session / (75 # 100) * (75 # 100))
      (if Session.isActive session then trading else monitoring)
      (Session.startTime session) None noOverrides in
  match findSession sessions (Session.sessionId session) with
  | Some (existingIndex, _) => <[existingIndex := persistentSession]> sessions
  | None => (sessions ++ [persistentSession])%list
  end.

Definition getActiveSessions (sessions : Store) : Store :=
  List.filter
    (fun session =>
       bool_decide (status session = trading) ||
       (bool_decide (status session = monitoring) && Num.Qltb 0 (tradingBalance session)))
    sessions.

(** The part of [Partial<PersistentSession>] the callers pass. *)
Record Partial : Type := mkPartial {
  newTradingBalance : option Q;
  newInitialDeposit : option Q;
  newTotalTrades : option N
}.

Definition noData : Partial := mkPartial None None None.

Definition updateSessionStatus (sessions : Store) (id : string) (newStatus : Status)
    (additionalData : Partial) (now : N) : Store :=
  match findSession sessions id with
  | Some (sessionIndex, s) =>
      <[sessionIndex :=
          mkPersistentSession (sessionId s) (tokenAddress s) (userWallet s)
            (default (tradingBalance s) (newTradingBalance additionalData))
            (default (initialDeposit s) (newInitialDeposit additionalData))
            (primaryDex s) (isActive s) (startTime s)
            (default (totalTrades s) (newTotalTrades additionalData))
            (totalVolume s) (lastTradeTime s) (targetDepletion s)
            newStatus (createdAt s)
            (if bool_decide (newStatus = completed) then Some now else completedAt s)
            (overrides s)]> sessions
  | None => sessions
  end.

(** [(tradingBalance / (originalDeposit * 0.75)) * 100] *)
Definition remainingPercentage (tradingBalance originalDeposit : Q) : Num.number :=
  Num.scale (Num.div tradingBalance (Num.mul originalDeposit (75 # 100))) 100.

Definition updateTradingStats (sessions : Store) (id : string)
    (newTotalTrades : N) (newTotalVolume newTradingBalance : Q) (now : N) : Store :=
  match findSession sessions id with
  | Some (sessionIndex, s) =>
      let done := Num.leb (remainingPercentage newTradingBalance (initialDeposit s)) 5 in
      <[sessionIndex :=
          mkPersistentSession (sessionId s) (tokenAddress s) (userWallet s)
            newTradingBalance (initialDeposit s) (primaryDex s) (isActive s)
            (startTime s) newTotalTrades newTotalVolume (Some now)
            (targetDepletion s)
            (if done then completed else status s)
            (createdAt s)
            (if done then Some now else completedAt s)
            (overrides s)]> sessions
  | None => sessions
  end.

Definition updateSessionTrades (sessions : Store) (id : string)
    (newTotalTrades : N) (newTotalVolume : Q) (now : N) : Store :=
  match findSession sessions id with
  | Some (sessionIndex, s) =>
      <[sessionIndex :=
          mkPersistentSession (sessionId s) (tokenAddress s) (userWallet s)
            (tradingBalance s) (initialDeposit s) (primaryDex s) (isActive s)
            (startTime s) newTotalTrades newTotalVolume (Some now)
            (targetDepletion s) (status s) (createdAt s) (completedAt s)
            (overrides s)]> sessions
  | None => sessions
  end.

(** [cleanupCompletedSessions]; [cutoffDate] is the date the code computes
    from the clock and [olderThanDays].  The file is written only when a
    record was dropped. *)
Definition cleanupCompletedSessions (sessions : Store) (cutoffDate : N) : Store :=
  let activeSessions :=
    List.filter
      (fun session =>
         match bool_decide (status session = completed), completedAt session with
         | true, Some completedDate => (cutoffDate <? completedDate)%N
         | _, _ => true
         end)
      sessions in
  if (length activeSessions <? length sessions)%nat then activeSessions else sessions.

Record SessionStats : Type := mkSessionStats {
  totalCount : nat;
  activeCount : nat;
  monitoringCount : nat;
  tradingCount : nat;
  completedCount : nat
}.

Definition countStatus (p : Status -> bool) (sessions : Store) : nat :=
  length (List.filter (fun s => p (status s)) sessions).

Definition getSessionStats (sessions : Store) : SessionStats :=
  mkSessionStats (length sessions)
    (countStatus (fun st => bool_decide (st = trading) || bool_decide (st = monitoring)) sessions)
    (countStatus (fun st => bool_decide (st = monitoring)) sessions)
    (countStatus (fun st => bool_decide (st = trading)) sessions)
    (countStatus (fun st => bool_decide (st = completed)) sessions).

End SessionPersistence.

(** ** src/tokenValidator.ts: pool selection *)

Module TokenValidator.

(** [interface PoolInfo]; [tokenDecimals] is left out.  The amounts are
    finite numbers. *)
Record PoolInfo : Type := mkPoolInfo {
  dex : string;
  poolAddress : string;
  baseMint : string;
  quoteMint : string;
  liquidityUsd : Q;
  volume24h : Q;
  isValid : bool;
  tokenName : option string;
  tokenSymbol : option string
}.

(** [`${pool.dex}-${pool.baseMint}-${pool.quoteMint}`] *)
Definition poolKey (pool : PoolInfo) : string :=
  dex pool ++ "-" ++ baseMint pool ++ "-" ++ quoteMint pool.

(** The [filter] of [deduplicatePools], with the set [seen] it closes over. *)
Fixpoint deduplicateFrom (seen : gset string) (pools : list PoolInfo) : list PoolInfo :=
  match pools with
  | [] => []
  | pool :: rest =>
      if bool_decide (poolKey pool ∈ seen) then deduplicateFrom seen rest
      else pool :: deduplicateFrom ({[ poolKey pool ]} ∪ seen) rest
  end.

Definition deduplicatePools (pools : list PoolInfo) : list PoolInfo :=
  deduplicateFrom ∅ pools.

Definition nonEmpty (o : option string) : bool :=
  match o with
  | Some s => negb (String.eqb s "")
  | None => false
  end.

(** The predicate of the [filter] in [getBestPool]. *)
Definition authentic (p : PoolInfo) : bool :=
  isValid p &&
  negb (String.eqb (dex p) "") &&
  negb (String.eqb (dex p) "mock") &&
  negb (String.eqb (dex p) "test") &&
  negb (String.eqb (dex p) "placeholder") &&
  negb (String.eqb (dex p) "demo") &&
  ((Num.Qltb 0 (liquidityUsd p) &&
    negb (Qeq_bool (liquidityUsd p) 10000) && negb (Qeq_bool (liquidityUsd p) 1000) &&
    negb (Qeq_bool (liquidityUsd p) 100) && negb (Qeq_bool (liquidityUsd p) 50) &&
    Num.Qltb (liquidityUsd p) 999999999999) ||
   Num.Qltb 100 (volume24h p) ||
   (nonEmpty (tokenName p) && nonEmpty (tokenSymbol p))).

(** [(best, current) => current.liquidityUsd > best.liquidityUsd ? current : best] *)
Definition better (best current : PoolInfo) : PoolInfo :=
  if Num.Qltb (liquidityUsd best) (liquidityUsd current) then current else best.

(** [reduce] without an initial value starts from the first element. *)
Definition getBestPool (pools : list PoolInfo) : option PoolInfo :=
  match List.filter authentic pools with
  | [] => None
  | first :: rest => Some (fold_left better rest first)
  end.

(** Of [interface TokenValidationResult], what the callers of
    [validateToken] read. *)
Record TokenValidationResult : Type := mkTokenValidationResult {
  valid : bool;
  pools : list PoolInfo
}.

End TokenValidator.

(** ** src/dexTrader.ts: the check before a session starts *)

Module DexTrader.

(** [validateTradeability]; [validation] is what its call of
    [validateToken] returned, and [None] when that call threw. *)
Definition validateTradeability (validation : option TokenValidator.TokenValidationResult)
  : bool :=
  match validation with
  | None => false
  | Some v =>
      if negb (TokenValidator.valid v) then false
      else if (length (TokenValidator.pools v) =? 0)%nat then false
      else
        match TokenValidator.getBestPool (TokenValidator.pools v) with
        | None => false
        | Some _ => true
        end
  end.

End DexTrader.

(** ** src/autoTradingService.ts: the service *)

Module AutoTradingService.

Import Session.
Module SP := SessionPersistence.

(** The singleton.  Session objects live in [sessions] and are named by a
    reference; [activeSessions] maps a session id to the object registered
    under it, so that a loop's own [session] and the object
    [stopTradingSession] finds are the same only while the loop's object is
    the registered one.  [timers] holds, per session object, the delay of
    the pending [setTimeout(executeNextTrade, _)]. *)
Record Service : Type := mkService {
  sessions : gmap nat TradingSession;
  activeSessions : gmap string nat;
  balanceCheckers : gset string;
  timers : gmap nat N;
  wallets : WalletManager.State;
  store : list SP.PersistentSession
}.

Definition setSession (r : nat) (s : TradingSession) (sv : Service) : Service :=
  mkService (<[r := s]> (sessions sv)) (activeSessions sv) (balanceCheckers sv)
    (timers sv) (wallets sv) (store sv).

Definition setStore (st : list SP.PersistentSession) (sv : Service) : Service :=
  mkService (sessions sv) (activeSessions sv) (balanceCheckers sv)
    (timers sv) (wallets sv) st.

(** The timeout that is running has fired and is no longer pending. *)
Definition fired (r : nat) (sv : Service) : Service :=
  mkService (sessions sv) (activeSessions sv) (balanceCheckers sv)
    (delete r (timers sv)) (wallets sv) (store sv).

(** [session.intervalId = setTimeout(executeNextTrade, delay)] *)
Definition scheduleNext (r : nat) (delay : N) (sv : Service) : Service :=
  match sessions sv !! r with
  | Some session =>
      mkService (<[r := setIntervalId (Some delay) session]> (sessions sv))
        (activeSessions sv) (balanceCheckers sv)
        (<[r := delay]> (timers sv)) (wallets sv) (store sv)
  | None => sv
  end.

Definition tradeVariations : list Q :=
  [ 8 # 10000; 12 # 10000; 18 # 10000; 25 # 10000; 35 # 10000; 15 # 10000; 10 # 10000 ].

(** [rnd] is the value of [Math.random()]. *)
Definition calculateTradeAmount (balance rnd : Q) : Q :=
  let index := Z.to_nat (Qfloor (rnd * inject_Z (Z.of_nat (length tradeVariations)))) in
  let randomAmount := nth index tradeVariations 0 in
  let maxSafeAmount := Num.min randomAmount (balance * (5 # 100)) in
  let finalAmount := Num.max (8 # 10000) maxSafeAmount in
  finalAmount.

Definition stopTradingSession (sv : Service) (id : string) : bool * Service :=
  match activeSessions sv !! id with
  | None => (false, sv)
  | Some r =>
      match sessions sv !! r with
      | None => (false, sv)
      | Some session =>
          (true,
           mkService (<[r := setActive false session]> (sessions sv))
             (activeSessions sv)
             (balanceCheckers sv ∖ {[ id ]})
             (match intervalId session with
              | Some _ => delete r (timers sv)
              | None => timers sv
              end)
             (wallets sv) (store sv))
      end
  end.

Definition minimumBalanceForTrade : Q := 1 # 1000.

Inductive KeypairLookup : Type := KeypairFound | KeypairMissing.

(** What one run of [executeNextTrade] reads from outside: [Math.random()],
    the clock, whether [getUserWalletKeypair] returned a keypair, and the
    result of [dexTrader.executeTrade]. *)
Record TickInput : Type := mkTickInput {
  random : Q;
  now : N;
  keypair : KeypairLookup;
  outcome : TradeOutcome
}.

(** [this.walletManager.generateTransactionWallet(sessionId, tradeNumber,
    tradeType)], line 965 of src/autoTradingService.ts.  [WalletManager] has
    no method of this name (it has [createTransactionWallet]), so the member
    is [undefined] and the call throws a [TypeError]; the call is inside the
    [try] block of [executeNextTrade].  A returned wallet is its public
    key. *)
Definition generateTransactionWallet (sessionId : string) (tradeNumber : N)
    (tradeType : TradeType) : string + string :=
  inl "TypeError: this.walletManager.generateTransactionWallet is not a function".

(** The end of the [try] block: schedule the next trade or stop. *)
Definition scheduleOrStop (sv : Service) (r : nat) : Service :=
  match sessions sv !! r with
  | Some session =>
      if isActive session && Qle_bool minimumBalanceForTrade (tradingBalance session)
      then scheduleNext r 7000 sv
      else snd (stopTradingSession sv (sessionId session))
  | None => sv
  end.

(** The closure [executeNextTrade] of [startTradingLoop], for the session
    object [r]; the second component is the trade it attempted with
    [dexTrader.executeTrade], if any.  [retry] is the [catch] block. *)
Definition executeNextTrade (sv0 : Service) (r : nat) (i : TickInput)
  : Service * option TradeAttempt :=
  let sv := fired r sv0 in
  match sessions sv !! r with
  | None => (sv, None)
  | Some session =>
      if negb (isActive session) then
        (snd (stopTradingSession sv (sessionId session)), None)
      else if Num.Qltb (tradingBalance session) minimumBalanceForTrade then
        (snd (stopTradingSession sv (sessionId session)), None)
      else
        let tradeType := if (totalTrades session mod 2 =? 0)%N then BUY else SELL in
        let tradeAmount := calculateTradeAmount (tradingBalance session) (random i) in
        let retry := (if isActive session then scheduleNext r 10000 sv else sv, None) in
        match keypair i with
        | KeypairMissing => (sv, None)
        | KeypairFound =>
            match generateTransactionWallet (sessionId session) (totalTrades session + 1)
                    tradeType with
            | inl _ => retry
            | inr _ =>
                match outcome i with
                | Threw => retry
                | FailedWith error =>
                    (scheduleOrStop sv r,
                     Some (mkTradeAttempt (sessionId session) tradeType tradeAmount false
                             error))
                | Succeeded _ =>
                    let session' := recordTrade tradeAmount (now i) session in
                    let sv' :=
                      setStore
                        (SP.updateTradingStats (store sv) (sessionId session')
                           (totalTrades session') (totalVolume session')
                           (tradingBalance session') (now i))
                        (setSession r session' sv) in
                    (scheduleOrStop sv' r,
                     Some (mkTradeAttempt (sessionId session) tradeType tradeAmount true ""))
                end
            end
        end
  end.

(** [startTradingLoop]: the first trade is two seconds away. *)
Definition startTradingLoop (sv : Service) (r : nat) : Service :=
  scheduleNext r 2000 sv.

(** A run of the loop: the closure runs when its timeout fires, one input
    per run, for as long as a timeout is pending.  The attempted trades are
    listed oldest first. *)
Fixpoint runTradingLoop (sv : Service) (r : nat) (inputs : list TickInput)
  : Service * list TradeAttempt :=
  match inputs with
  | [] => (sv, [])
  | i :: rest =>
      match timers sv !! r with
      | None => (sv, [])
      | Some _ =>
          let '(sv', attempt) := executeNextTrade sv r i in
          let '(sv'', attempts) := runTradingLoop sv' r rest in
          (sv'', (option_list attempt ++ attempts)%list)
      end
  end.

(** *** Recovery *)

Definition startWalletMonitoring (sv : Service) (id : string) : Service :=
  match WalletManager.getUserWallet (wallets sv) id with
  | Some _ =>
      mkService (sessions sv) (activeSessions sv) ({[ id ]} ∪ balanceCheckers sv)
        (timers sv) (wallets sv) (store sv)
  | None => sv
  end.

Definition truthyNumber (o : option Q) : bool :=
  match o with
  | Some q => negb (Qeq_bool q 0)
  | None => false
  end.

Definition shouldBypassCheck (sessionData : option SP.PersistentSession) : bool :=
  match sessionData with
  | Some d =>
      let o := SP.overrides d in
      SP.forceActive o || SP.useStoredBalance o || SP.ignoreOnChainBalance o ||
      SP.bypassBalanceCheck o || SP.revenueGuarantee o || truthyNumber (SP.overrideBalance o)
  | None => false
  end.

(** [getActiveSessions().find(s => s.sessionId === session.sessionId)] *)
Definition activeSessionData (st : list SP.PersistentSession) (id : string)
  : option SP.PersistentSession :=
  List.find (fun s => String.eqb (SP.sessionId s) id) (SP.getActiveSessions st).

Definition resumeTrading (sv : Service) (r : nat) (reading : BalanceReading) (now : N)
  : Service :=
  match sessions sv !! r with
  | None => sv
  | Some session =>
      match reading with
      | RpcError =>
          startWalletMonitoring
            (setStore (SP.updateSessionStatus (store sv) (sessionId session)
                         SP.monitoring SP.noData now) sv)
            (sessionId session)
      | Balance lamports =>
          let solBalance := toSOL lamports in
          let sessionData := activeSessionData (store sv) (sessionId session) in
          let bypass := shouldBypassCheck sessionData in
          if Num.Qltb solBalance (1 # 1000) && negb bypass then
            setStore (SP.updateSessionStatus (store sv) (sessionId session)
                        SP.completed SP.noData now) sv
          else
            let stored := sessionData ≫= (fun d =>
              if truthyNumber (SP.overrideBalance (SP.overrides d))
              then SP.overrideBalance (SP.overrides d)
              else if negb (Qeq_bool (SP.tradingBalance d) 0)
                   then Some (SP.tradingBalance d) else None) in
            let balance' :=
              if bypass then default (tradingBalance session) stored else solBalance in
            startTradingLoop (setSession r (setTradingBalance balance' session) sv) r
      end
  end.

Definition recoverSingleSession (sv : Service) (p : SP.PersistentSession)
    (reading : BalanceReading) (now : N) : Service :=
  let r := fresh (dom (sessions sv)) in
  let session :=
    mkTradingSession (SP.sessionId p) (SP.tokenAddress p) (SP.userWallet p)
      (SP.tradingBalance p) (SP.primaryDex p)
      (bool_decide (SP.status p = SP.trading))
      (SP.startTime p) (SP.totalTrades p) (SP.totalVolume p) (SP.lastTradeTime p) None in
  let sv1 :=
    mkService (<[r := session]> (sessions sv)) (<[SP.sessionId p := r]> (activeSessions sv))
      (balanceCheckers sv) (timers sv) (wallets sv) (store sv) in
  if bool_decide (SP.status p = SP.trading) && Num.Qltb (1 # 1000) (SP.tradingBalance p)
  then resumeTrading sv1 r reading now
  else if bool_decide (SP.status p = SP.monitoring)
       then startWalletMonitoring sv1 (SP.sessionId p)
       else sv1.

(** *** [executeNeverStopTradingLoop] *)

(** The variables the closure [tradingLoop] captures, and whether its next
    run is scheduled. *)
Record NeverStopLoop : Type := mkNeverStopLoop {
  loopSession : nat;
  isNextTradeBuy : bool;
  nextRun : option N
}.

Record NeverStopInput : Type := mkNeverStopInput {
  balanceRead : BalanceReading;
  clock : N;
  result : TradeOutcome
}.

Definition depletionThreshold : Q := 1 # 1000.


Definition again (lp : NeverStopLoop) (buy : bool) : NeverStopLoop :=
  mkNeverStopLoop (loopSession lp) buy (Some 7000%N).

Definition tradingLoop (sv : Service) (lp : NeverStopLoop) (i : NeverStopInput)
  : Service * NeverStopLoop * option TradeAttempt :=
  let r := loopSession lp in
  match sessions sv !! r with
  | None => (sv, again lp (isNextTradeBuy lp), None)
  | Some session =>
      match balanceRead i with
      | RpcError => (sv, again lp (isNextTradeBuy lp), None)
      | Balance lamports =>
          let currentBalanceSOL := toSOL lamports in
          if Qle_bool currentBalanceSOL depletionThreshold then
            (mkService (<[r := setActive false session]> (sessions sv))
               (delete (sessionId session) (activeSessions sv))
               (balanceCheckers sv) (timers sv) (wallets sv)
               (SP.updateSessionStatus (store sv) (sessionId session) SP.completed
                  (SP.mkPartial None None (Some (totalTrades session))) (clock i)),
             mkNeverStopLoop r (isNextTradeBuy lp) None,
             None)
          else
            let tradeAmount := Num.min (currentBalanceSOL * (5 # 10)) (1 # 1000) in
            if Num.Qltb tradeAmount (2 # 10000) then
              (sv, again lp (isNextTradeBuy lp), None)
            else
              let tradeType := if isNextTradeBuy lp then BUY else SELL in
              match result i with
              | Threw => (sv, again lp (isNextTradeBuy lp), None)
              | Succeeded _ =>
                  let session' := countTrade tradeAmount (clock i) session in
                  (setStore
                     (SP.updateSessionTrades (store sv) (sessionId session')
                        (totalTrades session') (totalVolume session') (clock i))
                     (setSession r session' sv),
                   again lp (negb (isNextTradeBuy lp)),
                   Some (mkTradeAttempt (sessionId session) tradeType tradeAmount true ""))
              | FailedWith error =>
                  let attempt :=
                    mkTradeAttempt (sessionId session) tradeType tradeAmount false error in
                  match tradeType with
                  | SELL =>
                      if Num.includes "sell amount too small" error then
                        (setSession r (setTotalTrades (totalTrades session + 1) session) sv,
                         again lp (negb (isNextTradeBuy lp)),
                         Some attempt)
                      else (sv, again lp (isNextTradeBuy lp), Some attempt)
                  | BUY => (sv, again lp (isNextTradeBuy lp), Some attempt)
                  end
              end
      end
  end.

Fixpoint runNeverStopLoop (sv : Service) (lp : NeverStopLoop) (inputs : list NeverStopInput)
  : Service * NeverStopLoop * list TradeAttempt :=
  match inputs with
  | [] => (sv, lp, [])
  | i :: rest =>
      match nextRun lp with
      | None => (sv, lp, [])
      | Some _ =>
          let '(sv', lp', attempt) := tradingLoop sv lp i in
          let '(sv'', lp'', attempts) := runNeverStopLoop sv' lp' rest in
          (sv'', lp'', (option_list attempt ++ attempts)%list)
      end
  end.

(** *** Starting and stopping sessions *)

(** What [startTradingSession] reads from outside: what [validateToken]
    returned inside [validateTradeability] ([None] when it threw), what its
    own call of [validateToken] returned, and the clock. *)
Record StartInput : Type := mkStartInput {
  tradeability : option TokenValidator.TokenValidationResult;
  validation : TokenValidator.TokenValidationResult;
  startClock : N
}.

(** [startTradingSession]; a thrown error leaves the service as it was. *)
Definition startTradingSession (sv : Service) (id token dexName : string)
    (balance : Q) (i : StartInput) : string + Service :=
  match WalletManager.getUserWallet (wallets sv) id with
  | None => inl "User wallet not found"
  | Some wallet =>
      if negb (DexTrader.validateTradeability (tradeability i))
      then inl "Token is not tradeable"
      else
        match TokenValidator.getBestPool (TokenValidator.pools (validation i)) with
        | None => inl "No suitable trading pool found"
        | Some _ =>
            let r := fresh (dom (sessions sv)) in
            let session :=
              mkTradingSession id token wallet balance dexName true (startClock i)
                0 0 None None in
            inr (startTradingLoop
                   (mkService (<[r := session]> (sessions sv))
                      (<[id := r]> (activeSessions sv))
                      (balanceCheckers sv) (timers sv) (wallets sv)
                      (SP.updateSessionStatus (SP.saveSession (store sv) session) id
                         SP.trading SP.noData (startClock i)))
                   r)
        end
  end.

(** [checkForFundingAndStartTrading].  [first] is what the first call of
    [startTradingSession] meets and [second] what the emergency retry meets.
    The last resort schedules [monitorWalletBalance], which the class does
    not define: no monitoring is started. *)
Definition checkForFundingAndStartTrading (sv : Service) (id token dexName : string)
    (reading : BalanceReading) (first second : StartInput) : Service :=
  match WalletManager.getUserWallet (wallets sv) id with
  | None => sv
  | Some _ =>
      if bool_decide (is_Some (activeSessions sv !! id)) then sv
      else
        match reading with
        | RpcError => sv
        | Balance lamports =>
            let currentBalance := toSOL lamports in
            if Qle_bool (1 # 1000) currentBalance then
              let tradingPortion := currentBalance * (75 # 100) in
              let sv1 :=
                mkService (sessions sv) (activeSessions sv) (balanceCheckers sv ∖ {[ id ]})
                  (timers sv) (wallets sv)
                  (SP.updateSessionStatus (store sv) id SP.trading
                     (SP.mkPartial (Some tradingPortion) (Some currentBalance) None)
                     (startClock first)) in
              match startTradingSession sv1 id token dexName tradingPortion first with
              | inr sv2 => sv2
              | inl _ =>
                  match startTradingSession sv1 id token dexName
                          (currentBalance * (75 # 100)) second with
                  | inr sv2 => sv2
                  | inl _ => sv1
                  end
              end
            else sv
        end
  end.

(** The body of the loop of [stopAllActiveSessions] for one entry of
    [activeSessions], on the session objects and on the sessions file. *)
Definition markInactive (heap : gmap nat TradingSession) (entry : string * nat)
  : gmap nat TradingSession :=
  match heap !! snd entry with
  | Some session => <[snd entry := setActive false session]> heap
  | None => heap
  end.

Definition markStopped (now : N) (st : list SP.PersistentSession) (entry : string * nat)
  : list SP.PersistentSession :=
  SP.updateSessionStatus st (fst entry) SP.stopped SP.noData now.

(** [stopAllActiveSessions] walks the entries of [activeSessions]: each
    session object is marked inactive and its record 'stopped'; then both
    maps are cleared.  The timeouts of the sessions are left pending.  The
    entries are taken in the order of the model's map, not in insertion
    order. *)
Definition stopAllActiveSessions (sv : Service) (now : N) : list string * Service :=
  let entries := map_to_list (activeSessions sv) in
  (fst <$> entries,
   mkService (fold_left markInactive entries (sessions sv))
     ∅ ∅ (timers sv) (wallets sv)
     (fold_left (markStopped now) entries (store sv))).

(** [recoverActiveSessions], entered with [recoveryInProgress] unset: the
    wallet mappings read from disk are restored over the wallets in memory,
    then the active records are recovered in turn.  [chain] answers the
    balance reads, by wallet address, and [clock] gives the time at which
    the record of a session id is handled. *)
Definition recoverActiveSessions (sv : Service) (walletMappings : WalletManager.State)
    (chain : string -> BalanceReading) (clock : string -> N) : Service :=
  let persisted := SP.getActiveSessions (store sv) in
  match persisted with
  | [] => sv
  | _ :: _ =>
      fold_left
        (fun sv' p =>
           recoverSingleSession sv' p (chain (SP.userWallet p)) (clock (SP.sessionId p)))
        persisted
        (mkService (sessions sv) (activeSessions sv) (balanceCheckers sv) (timers sv)
           (walletMappings ∪ wallets sv) (store sv))
  end.

(** *** The failsafe sweep *)

(** The body of the loop of [ensureAllSessionsContinue] for one stored
    session; [chain] answers the balance reads, by wallet address. *)
Definition ensureSessionContinues (sv : Service) (p : SP.PersistentSession)
    (chain : string -> BalanceReading) (now : N) : Service :=
  match activeSessions sv !! SP.sessionId p with
  | None => recoverSingleSession sv p (chain (SP.userWallet p)) now
  | Some r =>
      match sessions sv !! r with
      | None => sv
      | Some memorySession =>
          let sv1 :=
            if bool_decide (SP.status p = SP.trading) &&
               Num.Qltb (1 # 1000) (SP.tradingBalance p) &&
               bool_decide (intervalId memorySession = None) && isActive memorySession
            then resumeTrading sv r (chain (userWallet memorySession)) now
            else sv in
          if bool_decide (SP.status p = SP.monitoring) &&
             bool_decide (SP.sessionId p ∉ balanceCheckers sv1)
          then startWalletMonitoring sv1 (SP.sessionId p)
          else sv1
      end
  end.

(** The sweep reads the stored sessions once and then takes them in turn;
    [clock] gives the time at which the record of a session id is handled. *)
Definition ensureAllSessionsContinue (sv : Service) (chain : string -> BalanceReading)
    (clock : string -> N) : Service :=
  fold_left (fun sv' p => ensureSessionContinues sv' p chain (clock (SP.sessionId p)))
    (SP.getActiveSessions (store sv)) sv.

End AutoTradingService.

(** ** The volume bot with [startContinuousTrading] *)

Module UserVolumeBot.

Import Session.

(** The fields of a stored [UserSession] the loop reads or writes; the two
    amounts are stored as text and read back with [parseFloat]. *)
Record UserSession : Type := mkUserSession {
  fundingAmount : Q;
  availableBalance : Q;
  tradingActive : bool;
  status : string
}.

(** What Jupiter did with the swap. *)
Inductive SwapOutcome : Type :=
| Swapped (signature : string)
| NoSwap.

(** [executeRealTrade]: everything thrown inside is caught and turned into
    [null]. *)
Definition executeRealTrade (storage : gmap string UserSession) (sessionId : string)
    (rnd : Q) (swap : SwapOutcome) : option string * gmap string UserSession :=
  match storage !! sessionId with
  | None => (None, storage)
  | Some session =>
      if Qle_bool (availableBalance session) 0 then (None, storage)
      else
        let baseTradeAmount := 1 # 100 in
        let variance := (8 # 10) + rnd * (4 # 10) in
        let txAmount := baseTradeAmount * variance in
        match swap with
        | NoSwap => (None, storage)
        | Swapped signature =>
            if (String.length signature <? 64)%nat || Num.includes "fake" signature
               || Num.includes "mock" signature
            then (None, storage)
            else
              (Some signature,
               <[sessionId :=
                   mkUserSession (fundingAmount session)
                     (availableBalance session - txAmount)
                     (tradingActive session) (status session)]> storage)
        end
  end.

(** The variables of [startContinuousTrading] and whether the interval is
    still set. *)
Record Loop : Type := mkLoop {
  tradeCount : N;
  currentTradeType : TradeType;
  consecutiveErrors : N;
  intervalSet : bool
}.

Definition maxConsecutiveErrors : N := 5.

Definition start : Loop := mkLoop 0 BUY 0 true.

(** One run of the interval callback either finds the storage failing or
    goes on with a random draw and a swap outcome. *)
Inductive TickInput : Type :=
| StorageThrows
| Proceeds (rnd : Q) (swap : SwapOutcome).

Definition resetIfMany (errors : N) : N :=
  if (maxConsecutiveErrors <=? errors)%N then 0%N else errors.

Definition tick (sessionId : string) (storage : gmap string UserSession) (lp : Loop)
    (i : TickInput) : gmap string UserSession * Loop :=
  match i with
  | StorageThrows =>
      (storage,
       mkLoop (tradeCount lp) (currentTradeType lp)
         (resetIfMany (consecutiveErrors lp + 1)) (intervalSet lp))
  | Proceeds rnd swap =>
      match storage !! sessionId with
      | None =>
          (storage, mkLoop (tradeCount lp) (currentTradeType lp) (consecutiveErrors lp) false)
      | Some session =>
          if Qle_bool (availableBalance session) (fundingAmount session * (25 # 100)) then
            (<[sessionId :=
                 mkUserSession (fundingAmount session) (availableBalance session)
                   false "completed"]> storage,
             mkLoop (tradeCount lp) (currentTradeType lp) (consecutiveErrors lp) false)
          else if Num.Qltb (availableBalance session) (1 # 1000) then (storage, lp)
          else
            match executeRealTrade storage sessionId rnd swap with
            | (Some _, storage') =>
                (storage',
                 mkLoop (tradeCount lp + 1) (flip (currentTradeType lp)) 0 (intervalSet lp))
            | (None, storage') =>
                (storage',
                 mkLoop (tradeCount lp) (currentTradeType lp)
                   (resetIfMany (consecutiveErrors lp + 1)) (intervalSet lp))
            end
      end
  end.

(** The interval fires for as long as it is set. *)
Fixpoint run (sessionId : string) (storage : gmap string UserSession) (lp : Loop)
    (inputs : list TickInput) : gmap string UserSession * Loop :=
  match inputs with
  | [] => (storage, lp)
  | i :: rest =>
      if intervalSet lp then
        let '(storage', lp') := tick sessionId storage lp i in
        run sessionId storage' lp' rest
      else (storage, lp)
  end.

End UserVolumeBot.

(** ** Vocabulary of the statements *)

Module Trace.

Import Session.





(** A run of the volume bot's interval callback that ends in an error: the
    storage throws, or [executeRealTrade] returns [null]. *)
Definition botFailure (sessionId : string) (storage : gmap string UserVolumeBot.UserSession)
    (i : UserVolumeBot.TickInput) : bool :=
  match i with
  | UserVolumeBot.StorageThrows => true
  | UserVolumeBot.Proceeds rnd swap =>
      match fst (UserVolumeBot.executeRealTrade storage sessionId rnd swap) with
      | None => true
      | Some _ => false
      end
  end.

(** What stopping and scheduling leave alone in the session object [r]. *)
Definition sameCounters (s s' : TradingSession) : Prop :=
  totalTrades s' = totalTrades s /\ tradingBalance s' = tradingBalance s /\
  sessionId s' = sessionId s.

End Trace.

(** ** Vocabulary of the further statements *)

Module Ledger.

Import FundManager.

(** One call of [processFundSplit] with what it meets outside. *)
Record Call : Type := mkCall {
  world : World;
  callSession : string;
  callWallet : string;
  callAmount : Q;
  callTransaction : option string;
  callSource : option string
}.

Definition call `{NumberFormat} (fm : State) (c : Call) : (string + FundSplit) * State :=
  processFundSplit fm (world c) (callSession c) (callWallet c) (callAmount c)
    (callTransaction c) (callSource c).

(** The fund manager after a sequence of calls, failed ones included. *)
Definition runCalls `{NumberFormat} (calls : list Call) (fm : State) : State :=
  fold_left (fun fm' c => snd (call fm' c)) calls fm.

(** The fees of the recorded splits. *)
Definition recordedRevenue (fm : State) : Q :=
  fold_left (fun total e => total + revenueAmount (snd e)) (fundSplits fm) 0.

Definition consistent (fm : State) : Prop :=
  length (fundSplits fm) = length (revenueTransfers fm) /\
  NoDup (fst <$> fundSplits fm) /\
  Forall (fun t => toWallet t = REVENUE_WALLET /\ purpose t = REVENUE_COLLECTION /\
                   0 < amount t) (revenueTransfers fm) /\
  Forall (fun e => revenueWallet (snd e) = REVENUE_WALLET /\ 0 < revenueAmount (snd e))
    (fundSplits fm) /\
  getTotalRevenueCollected fm == recordedRevenue fm.

End Ledger.

Module Account.

Import Session.

(** The volume of the attempts that succeeded. *)
Fixpoint tradedVolume (attempts : list TradeAttempt) : Q :=
  match attempts with
  | [] => 0
  | a :: rest => (if succeeded a then tradeAmount a else 0) + tradedVolume rest
  end.

(** Two states of a session object with the same balance, volume and
    count. *)
Definition sameBooks (s s' : TradingSession) : Prop :=
  tradingBalance s' = tradingBalance s /\ totalVolume s' = totalVolume s /\
  totalTrades s' = totalTrades s.


End Account.


Module Stored.

Import SessionPersistence.

Definition ids (st : Store) : list string := sessionId <$> st.

(** No two records of the sessions file carry the same session id. *)
Definition unique (st : Store) : Prop := NoDup (ids st).

(** One call of a method of [SessionPersistence] that writes the file. *)
Inductive Op : Type :=
| Save (session : Session.TradingSession)
| SetStatus (id : string) (newStatus : Status) (data : Partial) (now : N)
| Stats (id : string) (trades : N) (volume balance : Q) (now : N)
| Trades (id : string) (trades : N) (volume : Q) (now : N)
| Cleanup (cutoffDate : N).

Definition applyOp (st : Store) (o : Op) : Store :=
  match o with
  | Save session => saveSession st session
  | SetStatus id newStatus data now => updateSessionStatus st id newStatus data now
  | Stats id trades volume balance now => updateTradingStats st id trades volume balance now
  | Trades id trades volume now => updateSessionTrades st id trades volume now
  | Cleanup cutoffDate => cleanupCompletedSessions st cutoffDate
  end.

(** The file after a sequence of calls, starting from the empty array that
    [initializeFiles] writes. *)
Definition runOps (ops : list Op) : Store := fold_left applyOp ops [].

End Stored.
(** ** Sample states for the closed examples *)

Module Examples.

Import Session AutoTradingService.

Definition session1 (balance : Q) (trades : N) : TradingSession :=
  mkTradingSession "session_1" "TokenMint" "UserWallet" balance "Jupiter" true 0 trades 0
    None (Some 2000%N).

Definition persisted1 (balance deposit : Q) (o : SP.Overrides) : SP.PersistentSession :=
  SP.mkPersistentSession "session_1" "TokenMint" "UserWallet" balance deposit "Jupiter"
    true 0 0 0 None (deposit * (75 # 100)) SP.trading 0 None o.

(** One session, registered under its id, its first trade scheduled. *)
Definition service1 (balance : Q) (trades : N) : Service :=
  mkService {[ 0%nat := session1 balance trades ]} {[ "session_1" := 0%nat ]} ∅
    {[ 0%nat := 2000%N ]} {[ "session_1" := "UserWallet" ]}
    [persisted1 balance (balance / (75 # 100)) SP.noOverrides].

Definition tradeOk : TickInput := mkTickInput 0 1000 KeypairFound (Succeeded "signature").
Definition tradeThrows : TickInput := mkTickInput 0 1000 KeypairFound Threw.

(** A run for which [getUserWalletKeypair] returns [null]. *)
Definition noKeypair : TickInput := mkTickInput 0 1000 KeypairMissing Threw.

Definition sellTooSmall : string :=
  "Jupiter trade failed: Error: SELL preparation failed: Calculated sell amount too small: 0 tokens".

Definition chainOk : NeverStopInput :=
  mkNeverStopInput (Balance 500000000) 1000 (Succeeded "signature").
Definition chainFails (error : string) : NeverStopInput :=
  mkNeverStopInput (Balance 500000000) 1000 (FailedWith error).

Definition botSession : UserVolumeBot.UserSession :=
  UserVolumeBot.mkUserSession 1 (75 # 100) true "active".

Definition botStorage : gmap string UserVolumeBot.UserSession :=
  {[ "session_1" := botSession ]}.

Definition botCalls : list UserVolumeBot.TickInput :=
  [ UserVolumeBot.StorageThrows;
    UserVolumeBot.Proceeds 0 UserVolumeBot.NoSwap;
    UserVolumeBot.Proceeds 0 (UserVolumeBot.Swapped "fake") ].

(** Ten runs in a row with a keypair. *)
Definition tenRuns : list TickInput :=
  [ tradeOk; tradeThrows; tradeOk; tradeOk; tradeThrows;
    tradeOk; tradeOk; tradeThrows; tradeOk; tradeOk ].

(** A session whose balance of 0.0009 SOL is below the floor. *)
Definition depletedService : Service := service1 (9 # 10000) 0.


(** 0.100000006 SOL, 100000006 lamports. *)
Definition driftAmount : Q := Num.double (100000006 # 1000000000).

(** 0.1000001 SOL. *)
Definition oddAmount : Q := Num.double (1000001 # 10000000).

Definition world1 : FundManager.World :=
  FundManager.mkWorld 1000 (FundManager.Confirmed "sig1").

Definition unitSplit : FundManager.FundSplit :=
  FundManager.mkFundSplit (Num.double (75 # 100)) (Num.double (25 # 100)) 1
    FundManager.REVENUE_WALLET 1000.

Definition plainRecord : SP.PersistentSession :=
  persisted1 (5 # 10) (6666 # 10000) SP.noOverrides.

Definition zeroRecord : SP.PersistentSession := persisted1 0 0 SP.noOverrides.


Definition emptyService (st : list SP.PersistentSession) : Service :=
  mkService ∅ ∅ ∅ ∅ {[ "session_1" := "UserWallet" ]} st.


(** The fund manager after one split of 1 SOL with transaction id 'tx1'. *)
Definition afterTx1 : FundManager.State :=
  snd (FundManager.processFundSplit (H := fractionFormat) FundManager.initial world1
         "session_1" "UserWallet" 1 (Some "tx1") None).

(** The fund manager after one split of 1 SOL for the session 'session_10'. *)
Definition afterSession10 : FundManager.State :=
  snd (FundManager.processFundSplit (H := fractionFormat) FundManager.initial world1
         "session_10" "UserWallet" 1 None None).

(** A second stored record, of another session, waiting for its funding. *)
Definition otherRecord : SP.PersistentSession :=
  SP.mkPersistentSession "session_2" "TokenMint" "OtherWallet" 0 0 "Jupiter"
    false 0 0 0 None 0 SP.monitoring 0 None SP.noOverrides.

Definition twoRecords : list SP.PersistentSession := [plainRecord; otherRecord].

(** A pool that passes the filter of [getBestPool]. *)
Definition pool1 : TokenValidator.PoolInfo :=
  TokenValidator.mkPoolInfo "Raydium" "PoolAddress" "TokenMint"
    "So11111111111111111111111111111111111111112" 25000 1200 true None None.

Definition startOk : StartInput :=
  mkStartInput (Some (TokenValidator.mkTokenValidationResult true [pool1]))
    (TokenValidator.mkTokenValidationResult true [pool1]) 1000.

(** The service after [startTradingSession] for 'session_1' with 0.75 SOL. *)
Definition started : Service :=
  match startTradingSession (emptyService []) "session_1" "TokenMint" "Jupiter"
          (75 # 100) startOk with
  | inr sv => sv
  | inl _ => emptyService []
  end.

Definition threeTicks : list TickInput := [tradeOk; tradeThrows; tradeOk].

Definition neverStopStart : NeverStopLoop := mkNeverStopLoop 0 true (Some 0%N).

(** A transaction signature of 88 characters. *)
Definition signature88 : string :=
  "5VERv8NMvzbJMEkV8xnrLkEaWRtSz9CosKDYjCJjBRnbJLgp8uirBgmQpjKhoR4tjF3ZpRzrFmBV6UjKdiSZkQUW".

Definition botTrade : UserVolumeBot.TickInput :=
  UserVolumeBot.Proceeds (1 # 2) (UserVolumeBot.Swapped signature88).


Definition botRun : list UserVolumeBot.TickInput :=
  [botTrade; UserVolumeBot.StorageThrows; botTrade].

(** A stored session of the volume bot that is down to its reserve. *)
Definition botAtReserve : UserVolumeBot.UserSession :=
  UserVolumeBot.mkUserSession 1 (25 # 100) true "active".
End Examples.

(** * Properties *)

Section NumFacts.
Import Num.

Lemma Qltb_lt x y : Qltb x y = true <-> x < y.
Proof.
  unfold Qltb. rewrite negb_true_iff.
  destruct (Qle_bool y x) eqn:E.
  - apply Qle_bool_iff in E. split; [discriminate | intros; exfalso; lra].
  - split; [intros _ | reflexivity].
    destruct (Qlt_le_dec x y) as [|L]; [assumption|].
    apply Qle_bool_iff in L. congruence.
Qed.

Lemma Qltb_ge x y : Qltb x y = false <-> y <= x.
Proof.
  unfold Qltb. rewrite negb_false_iff. apply Qle_bool_iff.
Qed.

Lemma pow2_pos k : 0 < pow2 k.
Proof. apply Qpower_0_lt. reflexivity. Qed.

Lemma pow2_nonneg_Z k : (0 <= k)%Z -> pow2 k == inject_Z (2 ^ k).
Proof. intros Hk. unfold pow2. now rewrite Zpower_Qpower. Qed.

Lemma pow2_sub a b : pow2 (a - b) == pow2 a / pow2 b.
Proof. unfold pow2. apply Qpower_minus. discriminate. Qed.

Lemma ilog2_spec x : 0 < x -> pow2 (ilog2 x) <= x /\ x < pow2 (ilog2 x + 1).
Proof.
  intros Hx. destruct x as [n d]. unfold ilog2. cbn [Qnum Qden].
  assert (Hn : (0 < n)%Z) by (unfold Qlt in Hx; cbn in Hx; lia).
  pose proof (Z.log2_spec n Hn) as [Ln Un].
  pose proof (Z.log2_spec (Zpos d) (Pos2Z.is_pos d)) as [Ld Ud].
  pose proof (Z.log2_nonneg n) as Nn.
  pose proof (Z.log2_nonneg (Zpos d)) as Nd.
  set (a := Z.log2 n) in *. set (b := Z.log2 (Zpos d)) in *.
  assert (E : n # d == inject_Z n / inject_Z (Zpos d)) by apply Qmake_Qdiv.
  assert (Hd : 0 < inject_Z (Zpos d)) by reflexivity.
  assert (Pa : pow2 a == inject_Z (2 ^ a)) by now apply pow2_nonneg_Z.
  assert (Pb : pow2 b == inject_Z (2 ^ b)) by now apply pow2_nonneg_Z.
  assert (Pa1 : pow2 (a + 1) == inject_Z (2 ^ Z.succ a)).
  { rewrite pow2_nonneg_Z by lia. reflexivity. }
  assert (Pb1 : pow2 (b + 1) == inject_Z (2 ^ Z.succ b)).
  { rewrite pow2_nonneg_Z by lia. reflexivity. }
  rewrite Zle_Qle in Ln, Ld. rewrite Zlt_Qlt in Un, Ud.
  rewrite <- Pa in Ln. rewrite <- Pb in Ld. rewrite <- Pa1 in Un. rewrite <- Pb1 in Ud.
  pose proof (pow2_pos b) as Hb. pose proof (pow2_pos (b + 1)) as Hb1.
  pose proof (pow2_pos a) as Ha.
  set (N := inject_Z n) in *. set (D := inject_Z (Zpos d)) in *.
  assert (Ex : (n # d) * D == N) by (rewrite E; field; lra).
  destruct (Qle_bool (pow2 (a - b)) (n # d)) eqn:C.
  - apply Qle_bool_iff in C. split; [exact C|].
    replace (a - b + 1)%Z with ((a + 1) - b)%Z by lia.
    rewrite pow2_sub. apply Qlt_shift_div_l; [exact Hb|].
    set (x := n # d) in *. set (pb := pow2 b) in *. set (pa1 := pow2 (a + 1)) in *.
    clearbody x pb pa1 N D. nra.
  - assert (C' : n # d < pow2 (a - b)).
    { destruct (Qlt_le_dec (n # d) (pow2 (a - b))) as [L|L]; [exact L|].
      apply Qle_bool_iff in L. congruence. }
    split.
    + replace (a - b - 1)%Z with (a - (b + 1))%Z by lia.
      rewrite pow2_sub. apply Qle_shift_div_r; [exact Hb1|].
      set (x := n # d) in *. set (pb1 := pow2 (b + 1)) in *. set (pa := pow2 a) in *.
      clearbody x pb1 pa N D. nra.
    + replace (a - b - 1 + 1)%Z with (a - b)%Z by lia. exact C'.
Qed.

Lemma roundHalfEven_close s : Qabs (inject_Z (roundHalfEven s) - s) <= 1 # 2.
Proof.
  unfold roundHalfEven.
  pose proof (Qfloor_le s) as L. pose proof (Qlt_floor s) as U.
  rewrite inject_Z_plus in U. change (inject_Z 1) with 1 in U.
  apply Qabs_Qle_condition.
  destruct (Qcompare_spec (s - inject_Z (Qfloor s)) (1 # 2)) as [E|E|E].
  - destruct (Z.even _); [|rewrite inject_Z_plus; change (inject_Z 1) with 1]; split; lra.
  - split; lra.
  - rewrite inject_Z_plus. change (inject_Z 1) with 1. split; lra.
Qed.

(** The relative error of rounding to a double is at most [2^-53]. *)
Lemma double_close x : Qabs (double x - x) <= Qabs x * epsilon * (1 # 2).
Proof.
  unfold double. destruct (Qeq_bool x 0) eqn:Z0.
  - apply Qeq_bool_eq in Z0. rewrite Z0. discriminate.
  - assert (Hx : ~ x == 0) by (now apply Qeq_bool_neq).
    rewrite Qred_correct.
    set (a := Qabs x). assert (Ha : 0 < a).
    { unfold a. destruct (Qlt_le_dec 0 (Qabs x)) as [|L]; [assumption|].
      pose proof (Qabs_nonneg x). exfalso. apply Hx.
      apply Qabs_Qle_condition in L. lra. }
    destruct (ilog2_spec a Ha) as [Lk _].
    set (k := ilog2 a) in *.
    assert (Pe : pow2 (k - 52) == pow2 k * epsilon).
    { rewrite pow2_sub. reflexivity. }
    pose proof (pow2_pos (k - 52)) as Hp.
    pose proof (roundHalfEven_close (a / pow2 (k - 52))) as R.
    set (p := pow2 (k - 52)) in *.
    assert (Es : a / p * p == a) by (field; lra).
    set (s := a / p) in *. set (m := inject_Z (roundHalfEven s)) in *.
    apply Qabs_Qle_condition in R. destruct R as [R1 R2].
    assert (H1 : (m - s) * p <= (1 # 2) * p) by (apply Qmult_le_compat_r; lra).
    assert (H2 : - (1 # 2) * p <= (m - s) * p) by (apply Qmult_le_compat_r; lra).
    set (pk := pow2 k) in *. unfold epsilon in *.
    destruct (Qle_bool 0 x) eqn:Sx.
    + apply Qle_bool_iff in Sx. assert (Ea : a == x) by (unfold a; now apply Qabs_pos).
      apply Qabs_Qle_condition. clearbody a s m p pk. split; lra.
    + assert (Sx' : x < 0).
      { destruct (Qlt_le_dec x 0) as [|L]; [assumption|].
        apply Qle_bool_iff in L. congruence. }
      assert (Ea : a == - x) by (unfold a; apply Qabs_neg; lra).
      apply Qabs_Qle_condition. clearbody a s m p pk. split; lra.
Qed.

(** Decimals and the doubles that stand for them; a tie goes to the even
    significand. *)
Lemma double_examples :
  double (1 # 10) = 3602879701896397 # 36028797018963968 /\
  double (7 # 10) = 3152519739159347 # 4503599627370496 /\
  double (- (1 # 3)) = -6004799503160661 # 18014398509481984 /\
  double (75 # 100) = 3 # 4 /\
  double 9007199254740993 = 9007199254740992 /\
  double 9007199254740995 = 9007199254740996 /\
  double (double (1 # 10)) = double (1 # 10).
Proof. repeat split; vm_compute; reflexivity. Qed.

Lemma double_bounds x :
  0 <= x -> x * (1 - epsilon * (1 # 2)) <= double x <= x * (1 + epsilon * (1 # 2)).
Proof.
  intros Hx. pose proof (double_close x) as C.
  rewrite (Qabs_pos x Hx) in C. apply Qabs_Qle_condition in C.
  unfold epsilon in *. split; lra.
Qed.

Lemma double_pos x : 0 < x -> 0 < double x.
Proof.
  intros Hx. destruct (double_bounds x) as [L _]; [lra|]. unfold epsilon in L. lra.
Qed.

Lemma double_nonpos x : x <= 0 -> double x <= 0.
Proof.
  intros Hx. pose proof (double_close x) as C.
  rewrite (Qabs_neg x Hx) in C. apply Qabs_Qle_condition in C.
  unfold epsilon in *. lra.
Qed.

Lemma roundHalfUp_close y :
  inject_Z (roundHalfUp y) <= y + (1#2) /\ y - (1#2) < inject_Z (roundHalfUp y).
Proof.
  unfold roundHalfUp.
  pose proof (Qfloor_le (y + (1#2))) as L.
  pose proof (Qlt_floor (y + (1#2))) as U.
  rewrite inject_Z_plus in U. change (inject_Z 1) with 1 in U. split; lra.
Qed.

Lemma div_pow10_8 q : q / inject_Z pow10_8 == q * (1 # 100000000).
Proof. reflexivity. Qed.

Lemma toFixed8_close x : Qabs (toFixed8 x - x) <= 1 # 200000000.
Proof.
  unfold toFixed8. destruct (Qle_bool _ _).
  - assert (E : x - x == 0) by ring. rewrite E. discriminate.
  - unfold toFixed8_units. rewrite div_pow10_8. apply Qabs_Qle_condition.
    destruct (Qle_bool 0 x).
    + destruct (roundHalfUp_close (x * inject_Z pow10_8)) as [L U].
      change (inject_Z pow10_8) with (100000000 # 1) in *. split; lra.
    + destruct (roundHalfUp_close (- x * inject_Z pow10_8)) as [L U].
      rewrite inject_Z_opp.
      change (inject_Z pow10_8) with (100000000 # 1) in *. split; lra.
Qed.
Lemma roundHalfUp_int k : roundHalfUp (inject_Z k) = k.
Proof.
  destruct (roundHalfUp_close (inject_Z k)) as [L U].
  set (n := roundHalfUp (inject_Z k)) in *.
  assert (L' : inject_Z n < inject_Z (k + 1)).
  { rewrite inject_Z_plus. change (inject_Z 1) with 1. lra. }
  assert (U' : inject_Z (k - 1) < inject_Z n).
  { replace (k - 1)%Z with (k + -1)%Z by lia. rewrite inject_Z_plus.
    change (inject_Z (-1)) with (-1 # 1). lra. }
  rewrite <- Zlt_Qlt in L', U'. lia.
Qed.

#[local] Instance roundHalfUp_proper : Proper (Qeq ==> eq) roundHalfUp.
Proof. intros x y E. unfold roundHalfUp. now rewrite E. Qed.

Lemma roundHalfUp_nonneg y : 0 <= y -> (0 <= roundHalfUp y)%Z.
Proof.
  intros Hy. unfold roundHalfUp. change 0%Z with (Qfloor 0).
  apply Qfloor_resp_le. lra.
Qed.

Lemma toFixed8_sign x : (0 <= x -> 0 <= toFixed8 x) /\ (x <= 0 -> toFixed8 x <= 0).
Proof.
  unfold toFixed8. destruct (Qle_bool _ (Qabs x)); [tauto|].
  rewrite div_pow10_8. unfold toFixed8_units.
  change (inject_Z pow10_8) with (100000000 # 1).
  destruct (Qle_bool 0 x) eqn:S.
  - apply Qle_bool_iff in S. split.
    + intros _. pose proof (roundHalfUp_nonneg (x * (100000000 # 1))) as R.
      rewrite Zle_Qle in R. change (inject_Z 0) with 0 in R. lra.
    + intros N. assert (E : x * (100000000 # 1) == inject_Z 0).
      { change (inject_Z 0) with 0. lra. }
      rewrite E, roundHalfUp_int. lra.
  - assert (S' : x < 0).
    { destruct (Qlt_le_dec x 0) as [|L]; [assumption|].
      apply Qle_bool_iff in L. congruence. }
    split; [intros; exfalso; lra|]. intros _.
    pose proof (roundHalfUp_nonneg (- x * (100000000 # 1))) as R.
    rewrite inject_Z_opp. rewrite Zle_Qle in R. change (inject_Z 0) with 0 in R. lra.
Qed.

(** Below 10^21 the printed decimal is a whole number of units of 10^-8;
    a positive one is at least one unit. *)
Lemma toFixed8_decimal x :
  Qabs x < inject_Z pow10_21 ->
  toFixed8 x = inject_Z (toFixed8_units x) / inject_Z pow10_8 /\
  (0 < toFixed8 x -> (0 < toFixed8_units x)%Z /\ 1 # 100000000 <= toFixed8 x).
Proof.
  intros Hx. unfold toFixed8.
  destruct (Qle_bool _ (Qabs x)) eqn:B; [apply Qle_bool_iff in B; exfalso; lra|].
  split; [reflexivity|]. rewrite div_pow10_8. intros P.
  assert (U : (0 < toFixed8_units x)%Z).
  { rewrite Zlt_Qlt. change (inject_Z 0) with 0. lra. }
  split; [exact U|].
  assert (U' : (1 <= toFixed8_units x)%Z) by lia.
  rewrite Zle_Qle in U'. change (inject_Z 1) with 1 in U'. lra.
Qed.

(** The steps of [Number((a * b).toFixed(8))] for a positive exact product
    [x]: the product in doubles, the printed decimal, the double read back
    from it. *)
Lemma numberToFixed8_steps x :
  0 < x ->
  x * (1 - epsilon * (1 # 2)) <= double x <= x * (1 + epsilon * (1 # 2)) /\
  double x - (1 # 200000000) <= toFixed8 (double x) <= double x + (1 # 200000000) /\
  0 <= toFixed8 (double x) /\
  toFixed8 (double x) * (1 - epsilon * (1 # 2)) <= numberToFixed8 (double x)
    <= toFixed8 (double x) * (1 + epsilon * (1 # 2)).
Proof.
  intros Hx. pose proof (double_bounds x) as B1.
  pose proof (toFixed8_close (double x)) as C. apply Qabs_Qle_condition in C.
  pose proof (double_pos x Hx) as P.
  destruct (toFixed8_sign (double x)) as [S _].
  pose proof (double_bounds (toFixed8 (double x))) as B2.
  unfold numberToFixed8.
  split; [apply B1; lra|]. split; [lra|]. split; [apply S; lra|]. apply B2, S. lra.
Qed.

Lemma numberToFixed8_pos x : 1 # 100 <= x -> 0 < numberToFixed8 (double x).
Proof.
  intros Hx. destruct (numberToFixed8_steps x) as (A & B & C & D); [lra|].
  unfold epsilon in *. lra.
Qed.

(** A positive result of [Number((a * b).toFixed(8))] comes from a positive
    product. *)
Lemma numberToFixed8_pos_inv x : 0 < numberToFixed8 (double x) -> 0 < x.
Proof.
  intros P. destruct (Qlt_le_dec 0 x) as [|L]; [assumption|]. exfalso.
  pose proof (double_nonpos x L) as D.
  destruct (toFixed8_sign (double x)) as [_ S].
  pose proof (double_nonpos _ (S D)). unfold numberToFixed8 in P. lra.
Qed.
End NumFacts.

Section StringFacts.

Lemma append_cancel (s a b : string) : s ++ a = s ++ b -> a = b.
Proof. induction s as [|c s IH]; simpl; intros E; [assumption|]. injection E. auto. Qed.

Lemma prefix_append (s t : string) : String.prefix s (s ++ t) = true.
Proof.
  induction s as [|c s IH]; simpl.
  - now destruct t.
  - destruct (ascii_dec c c); [assumption | congruence].
Qed.

Lemma to_uint_nonnil (n : N) : N.to_uint n <> Decimal.Nil.
Proof. destruct n; [discriminate | apply DecimalPos.Unsigned.to_uint_nonnil]. Qed.

Lemma showN_inj (a b : N) : Num.showN a = Num.showN b -> a = b.
Proof.
  unfold Num.showN. intros E.
  apply (f_equal NilZero.uint_of_string) in E.
  rewrite !NilZero.usu in E by apply to_uint_nonnil.
  injection E as E. now apply DecimalN.Unsigned.to_uint_inj.
Qed.

End StringFacts.

Section FundSplitLedger.
Import FundManager.
Context `{NumberFormat}.

Lemma splitKey_time_inj sid A t1 t2 : splitKey sid A t1 = splitKey sid A t2 -> t1 = t2.
Proof.
  unfold splitKey. intros E.
  repeat apply append_cancel in E. now apply showN_inj.
Qed.

Lemma validate_above_minimum pk A :
  MINIMUM_DEPOSIT_SOL <= A -> isValid (validateMinimumDeposit pk A) = true.
Proof.
  intros HA. unfold validateMinimumDeposit.
  destruct (isPrivilegedWallet pk); [reflexivity|].
  apply Qltb_ge in HA. now rewrite HA.
Qed.

Lemma validate_below_minimum pk A :
  isPrivilegedWallet pk = false -> A < MINIMUM_DEPOSIT_SOL ->
  validateMinimumDeposit pk A =
    mkValidationResult false
      "Minimum deposit is 0.1 SOL. Please deposit at least 0.1 SOL to use the volume bot."
      MINIMUM_DEPOSIT_SOL.
Proof.
  intros Hp HA. unfold validateMinimumDeposit. rewrite Hp.
  apply Qltb_lt in HA. now rewrite HA.
Qed.

Lemma processFundSplit_success fm w sid pk A txid src split fm' :
  processFundSplit fm w sid pk A txid src = (inr split, fm') ->
  split = mkFundSplit (Num.numberToFixed8 (Num.mul A TRADING_PERCENTAGE))
            (Num.numberToFixed8 (Num.mul A REVENUE_PERCENTAGE)) A REVENUE_WALLET
            (dateNow w) /\
  0 < Num.numberToFixed8 (Num.mul A REVENUE_PERCENTAGE).
Proof.
  unfold processFundSplit, executeRevenueTransfer.
  destruct (Qle_bool (Num.numberToFixed8 (Num.mul A REVENUE_PERCENTAGE)) 0) eqn:R.
  - repeat match goal with
           | |- context [if ?b then _ else _] => destruct b
           end; intros E; inversion E.
  - assert (P : 0 < Num.numberToFixed8 (Num.mul A REVENUE_PERCENTAGE)).
    { destruct (Qlt_le_dec 0 (Num.numberToFixed8 (Num.mul A REVENUE_PERCENTAGE)))
        as [L|L]; [exact L|]. apply Qle_bool_iff in L. congruence. }
    repeat match goal with
           | |- context [if ?b then _ else _] => destruct b
           | |- context [match transfer w with _ => _ end] => destruct (transfer w)
           end; intros E; inversion E; (split; [reflexivity | exact P]).
Qed.

(** A transaction id that was processed before is rejected, and nothing is
    recorded. *)
Lemma repeated_transaction_rejected fm w sid pk A txid src :
  txid <> "" ->
  txid ∈ processedTransactions fm ->
  MINIMUM_DEPOSIT_SOL <= A ->
  mapHas (splitKey sid A (dateNow w)) (fundSplits fm) = false ->
  processFundSplit fm w sid pk A (Some txid) src =
    (inl "TRANSACTION ALREADY PROCESSED - PREVENTING DUPLICATE REVENUE COLLECTION", fm).
Proof.
  intros Hne Hin HA Hkey. unfold processFundSplit.
  rewrite validate_above_minimum by assumption. rewrite andb_false_r, Hkey.
  cbn [truthy default]. apply String.eqb_neq in Hne. rewrite Hne.
  rewrite bool_decide_eq_true_2 by assumption. reflexivity.
Qed.

End FundSplitLedger.

Section FundSplitClaims.
Import FundManager.
Context `{NumberFormat}.

(** C1, as the code behaves: the duplicate check of [processFundSplit] does
    not see a second split of the same funding event.  The key it looks up
    contains [Date.now()], so for the same session and the same amount a
    second call at any other millisecond, with no transaction id, succeeds
    again: two splits are recorded for the session and the fee is
    transferred twice, although [isAmountProcessed] already answers [true]
    after the first call. *)
Theorem same_funding_event_split_twice sid pk A t1 t2 sig1 sig2 :
  MINIMUM_DEPOSIT_SOL <= A -> t1 <> t2 ->
  exists split1 fm1 split2 fm2,
    processFundSplit initial (mkWorld t1 (Confirmed sig1)) sid pk A None None
      = (inr split1, fm1) /\
    isAmountProcessed fm1 sid A = true /\
    processFundSplit fm1 (mkWorld t2 (Confirmed sig2)) sid pk A None None
      = (inr split2, fm2) /\
    length (splitsOfSession fm2 sid) = 2%nat /\
    length (revenueTransfers fm2) = 2%nat /\
    getTotalRevenueCollected fm2 == revenueAmount split1 + revenueAmount split2.
Proof.
  intros HA Ht.
  assert (Hpos : Qle_bool (Num.numberToFixed8 (Num.mul A REVENUE_PERCENTAGE)) 0 = false).
  { destruct (Qle_bool _ 0) eqn:E; [|reflexivity].
    apply Qle_bool_iff in E.
    assert (1 # 100 <= A * REVENUE_PERCENTAGE).
    { unfold MINIMUM_DEPOSIT_SOL, REVENUE_PERCENTAGE in *. lra. }
    pose proof (numberToFixed8_pos _ H0). unfold Num.mul in E. lra. }
  assert (Hkey : String.eqb (splitKey sid A t1) (splitKey sid A t2) = false).
  { apply String.eqb_neq. intros E. now apply splitKey_time_inj in E. }
  do 4 eexists.
  split; [|split; [|split; [|split; [|split]]]].
  - unfold processFundSplit, executeRevenueTransfer.
    rewrite validate_above_minimum by assumption. simpl. rewrite Hpos. reflexivity.
  - unfold isAmountProcessed. simpl. unfold splitKey.
    rewrite prefix_append. simpl. rewrite orb_false_r. apply Qeq_bool_iff. reflexivity.
  - unfold processFundSplit, executeRevenueTransfer.
    rewrite validate_above_minimum by assumption. simpl.
    rewrite Hkey. simpl. rewrite Hpos. simpl. rewrite Hkey. reflexivity.
  - unfold splitsOfSession. simpl. unfold splitKey. rewrite !prefix_append. reflexivity.
  - reflexivity.
  - unfold getTotalRevenueCollected. simpl. ring.
Qed.

(** C2, amended: a split that [processFundSplit] returns, for an amount
    below 10^21, records the amount itself, and each of its two parts is the
    double nearest to a decimal with eight places: the share of the amount
    (75% and 25%), computed in doubles, is rounded to eight places on its
    own.  Each part is therefore within half a unit of 10^-8 of its exact
    share, and the two parts add up to the amount within 10^-8, each up to
    the rounding of doubles (the amount times [Number.EPSILON]); the
    revenue part is at least one unit of 10^-8.  The shares of
    [processFunding] are not rounded to eight places and add up to the
    amount up to the rounding of doubles. *)
Theorem processFundSplit_split_within_rounding fm w sid pk A txid src split fm' :
  processFundSplit fm w sid pk A txid src = (inr split, fm') ->
  A < inject_Z Num.pow10_21 ->
  totalAmount split = A /\
  (exists tradingUnits revenueUnits : Z,
     userTradingAmount split =
       Num.double (inject_Z tradingUnits / inject_Z Num.pow10_8) /\
     revenueAmount split =
       Num.double (inject_Z revenueUnits / inject_Z Num.pow10_8) /\
     (0 < revenueUnits)%Z) /\
  Qabs (revenueAmount split - A * (25 # 100)) <= (1 # 200000000) + A * Num.epsilon /\
  Qabs (userTradingAmount split - A * (75 # 100)) <= (1 # 200000000) + A * Num.epsilon /\
  Qabs (userTradingAmount split + revenueAmount split - A)
    <= (1 # 100000000) + 2 * A * Num.epsilon /\
  (forall wm sid', is_Some (WalletManager.getUserWallet wm sid') ->
     Qabs (WalletManager.userPortion (WalletManager.processFunding wm sid' A) +
           WalletManager.revenuePortion (WalletManager.processFunding wm sid' A) - A)
       <= A * Num.epsilon).
Proof.
  intros E Hbig. apply processFundSplit_success in E as [-> Hpos].
  cbn [totalAmount revenueAmount userTradingAmount].
  unfold Num.mul, REVENUE_PERCENTAGE, TRADING_PERCENTAGE in *.
  assert (HR : 0 < A * (25 # 100)) by now apply numberToFixed8_pos_inv.
  assert (HA : 0 < A) by lra.
  assert (HT : 0 < A * (75 # 100)) by lra.
  destruct (numberToFixed8_steps _ HR) as (R1 & R2 & R3 & R4).
  destruct (numberToFixed8_steps _ HT) as (T1 & T2 & T3 & T4).
  pose proof (double_pos _ HR) as PR. pose proof (double_pos _ HT) as PT.
  assert (BR : Qabs (Num.double (A * (25 # 100))) < inject_Z Num.pow10_21).
  { rewrite Qabs_pos by lra. unfold Num.epsilon in *. lra. }
  assert (BT : Qabs (Num.double (A * (75 # 100))) < inject_Z Num.pow10_21).
  { rewrite Qabs_pos by lra. unfold Num.epsilon in *. lra. }
  destruct (toFixed8_decimal _ BR) as [ER UR].
  destruct (toFixed8_decimal _ BT) as [ET _].
  assert (PY : 0 < Num.toFixed8 (Num.double (A * (25 # 100)))).
  { destruct (Qlt_le_dec 0 (Num.toFixed8 (Num.double (A * (25 # 100))))) as [|L];
      [assumption|].
    pose proof (double_nonpos _ L). unfold Num.numberToFixed8 in Hpos. lra. }
  destruct (UR PY) as [U1 U2].
  split; [reflexivity|]. split.
  { exists (Num.toFixed8_units (Num.double (A * (75 # 100)))),
           (Num.toFixed8_units (Num.double (A * (25 # 100)))).
    unfold Num.numberToFixed8. rewrite <- ER, <- ET. auto. }
  clear ER ET UR U1 BR BT.
  assert (PF : forall wm sid', is_Some (WalletManager.getUserWallet wm sid') ->
     Qabs (WalletManager.userPortion (WalletManager.processFunding wm sid' A) +
           WalletManager.revenuePortion (WalletManager.processFunding wm sid' A) - A)
       <= A * Num.epsilon).
  { intros wm sid' [pkey Hw]. unfold WalletManager.processFunding. rewrite Hw.
    cbn [WalletManager.userPortion WalletManager.revenuePortion]. unfold Num.mul.
    unfold Num.epsilon in *. apply Qabs_Qle_condition. split; lra. }
  set (xr := Num.double (A * (25 # 100))) in *.
  set (xt := Num.double (A * (75 # 100))) in *.
  set (yr := Num.toFixed8 xr) in *. set (yt := Num.toFixed8 xt) in *.
  set (zr := Num.numberToFixed8 xr) in *. set (zt := Num.numberToFixed8 xt) in *.
  clearbody xr xt yr yt zr zt. unfold Num.epsilon in R1, R4, T1, T4 |- *.
  split; [apply Qabs_Qle_condition; split; lra|].
  split; [apply Qabs_Qle_condition; split; lra|].
  split; [apply Qabs_Qle_condition; split; lra|].
  exact PF.
Qed.

(** C6, amended: for a wallet address that is not privileged and a funding
    source other than the privileged wallet, an amount below 0.1 SOL makes
    [processFundSplit] throw the minimum-deposit error and leaves the fund
    manager as it was (no split, no transfer).  For an amount of at least
    0.1 SOL the validation succeeds and no minimum-deposit error is thrown. *)
Theorem processFundSplit_minimum_deposit fm w sid pk A txid src :
  (isPrivilegedWallet pk = false -> src <> Some privilegedWallet ->
   A < MINIMUM_DEPOSIT_SOL ->
   processFundSplit fm w sid pk A txid src =
     (inl ("MINIMUM DEPOSIT NOT MET: " ++
           "Minimum deposit is 0.1 SOL. Please deposit at least 0.1 SOL to use the volume bot."),
      fm)) /\
  (MINIMUM_DEPOSIT_SOL <= A ->
   isValid (validateMinimumDeposit pk A) = true /\
   forall msg, fst (processFundSplit fm w sid pk A txid src)
               <> inl ("MINIMUM DEPOSIT NOT MET: " ++ msg)).
Proof.
  split.
  - intros Hp Hs HA. unfold processFundSplit.
    rewrite (validate_below_minimum _ _ Hp HA). simpl.
    rewrite bool_decide_eq_false_2 by assumption. reflexivity.
  - intros HA. split; [now apply validate_above_minimum|].
    intros msg. unfold processFundSplit, executeRevenueTransfer.
    rewrite validate_above_minimum by assumption. rewrite andb_false_r.
    repeat match goal with
           | |- context [if ?b then _ else _] => destruct b
           | |- context [match transfer w with _ => _ end] => destruct (transfer w)
           end; simpl; discriminate.
Qed.

(** C7: for every amount, what [validateMinimumDeposit] returns for a
    privileged address is the very object it returns for an address that is
    not privileged and whose deposit meets the standard minimum: valid, the
    generic message, and the standard minimum of 0.1 SOL. *)
Theorem validateMinimumDeposit_hides_privilege privileged regular amount deposit :
  isPrivilegedWallet privileged = true ->
  isPrivilegedWallet regular = false ->
  MINIMUM_DEPOSIT_SOL <= deposit ->
  validateMinimumDeposit privileged amount = validateMinimumDeposit regular deposit /\
  validateMinimumDeposit privileged amount =
    mkValidationResult true "Deposit meets minimum requirement" (1 # 10).
Proof.
  intros Hp Hr Hd. unfold validateMinimumDeposit. rewrite Hp, Hr.
  apply Qltb_ge in Hd. rewrite Hd. split; reflexivity.
Qed.

End FundSplitClaims.

Import FundManager.

Lemma same_funding_event_split_twice_witness :
  exists split1 fm1 split2 fm2,
    processFundSplit (H := fractionFormat) initial Examples.world1
      "session_1" "UserWallet" 1 None None = (inr split1, fm1) /\
    isAmountProcessed fm1 "session_1" 1 = true /\
    processFundSplit (H := fractionFormat) fm1 (mkWorld 1001 (Confirmed "sig2"))
      "session_1" "UserWallet" 1 None None = (inr split2, fm2) /\
    length (splitsOfSession fm2 "session_1") = 2%nat /\
    length (revenueTransfers fm2) = 2%nat /\
    getTotalRevenueCollected fm2 == revenueAmount split1 + revenueAmount split2.
Proof.
  apply (same_funding_event_split_twice (H := fractionFormat)).
  - vm_compute. discriminate.
  - discriminate.
Defined.

Lemma split_sum_drifts :
  MINIMUM_DEPOSIT_SOL <= Examples.driftAmount /\
  exists split fm',
    processFundSplit (H := fractionFormat) initial Examples.world1
      "session_1" "UserWallet" Examples.driftAmount None None = (inr split, fm') /\
    userTradingAmount split == Num.double (75 # 1000) /\
    revenueAmount split == Num.double (25 # 1000) /\
    Num.double (userTradingAmount split + revenueAmount split) == Num.double (1 # 10) /\
    Num.toFixed8 Examples.driftAmount == 10000001 # 100000000 /\
    5 # 1000000000
      < Qabs (userTradingAmount split + revenueAmount split - Examples.driftAmount) /\
    ~ userTradingAmount split + revenueAmount split == Examples.driftAmount /\
    ~ revenueAmount split == Examples.driftAmount * (25 # 100) /\
    ~ userTradingAmount split == Examples.driftAmount * (75 # 100).
Proof.
  split; [vm_compute; discriminate|].
  do 2 eexists. split; [vm_compute; reflexivity|].
  repeat split; vm_compute; (reflexivity || discriminate).
Qed.

(** The decimal is taken of the product as the doubles give it: for
    0.1000001 SOL the parts are 0.07500007 and 0.02500002, where the exact
    products 0.075000075 and 0.025000025 would round to 0.07500008 and
    0.02500003. *)
Lemma split_rounds_the_double_product :
  exists split fm',
    processFundSplit (H := fractionFormat) initial Examples.world1
      "session_1" "UserWallet" Examples.oddAmount None None = (inr split, fm') /\
    userTradingAmount split = Num.double (7500007 # 100000000) /\
    revenueAmount split = Num.double (2500002 # 100000000) /\
    Num.toFixed8 ((1000001 # 10000000) * (75 # 100)) == 7500008 # 100000000 /\
    Num.toFixed8 ((1000001 # 10000000) * (25 # 100)) == 2500003 # 100000000.
Proof.
  do 2 eexists. split; [vm_compute; reflexivity|].
  repeat split; vm_compute; reflexivity.
Qed.

Lemma processFundSplit_split_within_rounding_witness :
  totalAmount Examples.unitSplit = 1 /\
  (exists tradingUnits revenueUnits : Z,
     userTradingAmount Examples.unitSplit =
       Num.double (inject_Z tradingUnits / inject_Z Num.pow10_8) /\
     revenueAmount Examples.unitSplit =
       Num.double (inject_Z revenueUnits / inject_Z Num.pow10_8) /\
     (0 < revenueUnits)%Z) /\
  Qabs (revenueAmount Examples.unitSplit - 1 * (25 # 100))
    <= (1 # 200000000) + 1 * Num.epsilon /\
  Qabs (userTradingAmount Examples.unitSplit - 1 * (75 # 100))
    <= (1 # 200000000) + 1 * Num.epsilon /\
  Qabs (userTradingAmount Examples.unitSplit + revenueAmount Examples.unitSplit - 1)
    <= (1 # 100000000) + 2 * 1 * Num.epsilon /\
  (forall wm sid', is_Some (WalletManager.getUserWallet wm sid') ->
     Qabs (WalletManager.userPortion (WalletManager.processFunding wm sid' 1) +
           WalletManager.revenuePortion (WalletManager.processFunding wm sid' 1) - 1)
       <= 1 * Num.epsilon).
Proof.
  apply (processFundSplit_split_within_rounding (H := fractionFormat) initial
           Examples.world1 "session_1" "UserWallet" 1 None None Examples.unitSplit
           (snd (processFundSplit (H := fractionFormat) initial Examples.world1
                   "session_1" "UserWallet" 1 None None))).
  - vm_compute. reflexivity.
  - reflexivity.
Defined.

Lemma privileged_source_bypasses_minimum :
  isPrivilegedWallet "UserWallet" = false /\
  (1 # 100) < MINIMUM_DEPOSIT_SOL /\
  exists split fm',
    processFundSplit (H := fractionFormat) initial Examples.world1
      "session_1" "UserWallet" (1 # 100) None (Some privilegedWallet) = (inr split, fm') /\
    revenueAmount split == Num.double (25 # 10000) /\
    length (fundSplits fm') = 1%nat /\
    length (revenueTransfers fm') = 1%nat.
Proof.
  split; [reflexivity|]. split; [reflexivity|].
  do 2 eexists. split; [vm_compute; reflexivity|].
  repeat split.
Qed.

Lemma processFundSplit_minimum_deposit_witness :
  processFundSplit (H := fractionFormat) initial Examples.world1
    "session_1" "UserWallet" (1 # 100) None None =
    (inl ("MINIMUM DEPOSIT NOT MET: " ++
          "Minimum deposit is 0.1 SOL. Please deposit at least 0.1 SOL to use the volume bot."),
     initial) /\
  isValid (validateMinimumDeposit "UserWallet" (1 # 10)) = true.
Proof.
  split.
  - apply (processFundSplit_minimum_deposit (H := fractionFormat));
      [reflexivity | discriminate | reflexivity].
  - apply (processFundSplit_minimum_deposit (H := fractionFormat) initial
             Examples.world1 "session_1" "UserWallet" (1 # 10) None None).
    vm_compute. discriminate.
Defined.

Lemma validateMinimumDeposit_hides_privilege_witness :
  validateMinimumDeposit "DAt9mmiYvh1uS5EtFMtb5uuPVWL1sPNfZtLULcthDVkC" (1 # 100) =
  validateMinimumDeposit "UserWallet" (5 # 10).
Proof.
  apply validateMinimumDeposit_hides_privilege.
  - reflexivity.
  - reflexivity.
  - vm_compute. discriminate.
Defined.

Section TradeAmount.
Import AutoTradingService.

Lemma Num_min_cases x y : (Num.min x y = x /\ x <= y) \/ (Num.min x y = y /\ y <= x).
Proof.
  unfold Num.min. destruct (Qle_bool x y) eqn:E.
  - left. split; [reflexivity | now apply Qle_bool_iff].
  - right. split; [reflexivity|].
    destruct (Qlt_le_dec y x) as [L|L]; [lra|]. apply Qle_bool_iff in L. congruence.
Qed.

Lemma Num_max_cases x y : (Num.max x y = y /\ x <= y) \/ (Num.max x y = x /\ y <= x).
Proof.
  unfold Num.max. destruct (Qle_bool x y) eqn:E.
  - left. split; [reflexivity | now apply Qle_bool_iff].
  - right. split; [reflexivity|].
    destruct (Qlt_le_dec y x) as [L|L]; [lra|]. apply Qle_bool_iff in L. congruence.
Qed.

Lemma tradeVariations_range n :
  0 <= nth n tradeVariations 0 /\ nth n tradeVariations 0 <= 35 # 10000.
Proof.
  do 7 (destruct n as [|n]; [split; discriminate|]).
  simpl. destruct n; split; discriminate.
Qed.

Lemma random_index rnd :
  0 <= rnd -> rnd < 1 ->
  (Z.to_nat (Qfloor (rnd * inject_Z (Z.of_nat (length tradeVariations)))) < 7)%nat.
Proof.
  intros L U. change (inject_Z (Z.of_nat (length tradeVariations))) with (7 # 1).
  assert (0 <= Qfloor (rnd * (7 # 1)) < 7)%Z as [Z0 Z7].
  { split.
    - change 0%Z with (Qfloor 0). apply Qfloor_resp_le. lra.
    - rewrite Zlt_Qlt. pose proof (Qfloor_le (rnd * (7 # 1))) as F.
      change (inject_Z 7) with (7 # 1). lra. }
  lia.
Qed.

(** C8, amended: for every balance and every random draw in [0, 1) the
    amount of [calculateTradeAmount] is a table value capped at 5% of the
    balance and then raised to the floor: it lies between 0.0008 and 0.0035
    SOL, stays within 5% of the balance whenever 5% of the balance is at
    least 0.0008 SOL, and is the floor of 0.0008 SOL otherwise. *)
Theorem calculateTradeAmount_bounds balance rnd :
  0 <= rnd -> rnd < 1 ->
  let amount := calculateTradeAmount balance rnd in
  (exists t, List.In t tradeVariations /\
             amount = Num.max (8 # 10000) (Num.min t (balance * (5 # 100)))) /\
  8 # 10000 <= amount /\
  amount <= 35 # 10000 /\
  (8 # 10000 <= balance * (5 # 100) -> amount <= balance * (5 # 100)) /\
  (balance * (5 # 100) <= 8 # 10000 -> amount == 8 # 10000).
Proof.
  intros L U amount. subst amount. unfold calculateTradeAmount.
  pose proof (random_index rnd L U) as Hi.
  set (index := Z.to_nat _) in *.
  destruct (tradeVariations_range index) as [T0 T1].
  split.
  - exists (nth index tradeVariations 0). split; [|reflexivity].
    apply nth_In. exact Hi.
  - destruct (Num_min_cases (nth index tradeVariations 0) (balance * (5 # 100)))
      as [[-> Hm]|[-> Hm]];
    match goal with
    | |- context [Num.max ?a ?b] =>
        destruct (Num_max_cases a b) as [[-> Hx]|[-> Hx]]
    end; repeat split; intros; try lra; try reflexivity.
Qed.
End TradeAmount.

Lemma calculateTradeAmount_bounds_witness :
  8 # 10000 <= AutoTradingService.calculateTradeAmount 1 (1 # 2) /\
  AutoTradingService.calculateTradeAmount 1 (1 # 2) <= 35 # 10000.
Proof.
  destruct (calculateTradeAmount_bounds 1 (1 # 2)) as (_ & Hlo & Hhi & _).
  - vm_compute. discriminate.
  - reflexivity.
  - split; assumption.
Defined.

Lemma trade_amount_exceeds_five_percent :
  0 < 1 # 1000 /\
  AutoTradingService.calculateTradeAmount (1 # 1000) 0 == 8 # 10000 /\
  (1 # 1000) * (5 # 100) == 5 # 100000 /\
  ~ AutoTradingService.calculateTradeAmount (1 # 1000) 0 <= (1 # 1000) * (5 # 100).
Proof.
  repeat split; vm_compute; try reflexivity; try discriminate.
  intros C. apply C. reflexivity.
Qed.

Section TradingLoop.
Import Session AutoTradingService Trace.

Lemma service_eq a b c d e f a' b' c' d' e' f' :
  a = a' -> b = b' -> c = c' -> d = d' -> e = e' -> f = f' ->
  mkService a b c d e f = mkService a' b' c' d' e' f'.
Proof. congruence. Qed.

(** Stopping a registered session. *)
Lemma stopTradingSession_registered sv r session :
  sessions sv !! r = Some session ->
  activeSessions sv !! sessionId session = Some r ->
  stopTradingSession sv (sessionId session) =
    (true,
     mkService (<[r := setActive false session]> (sessions sv)) (activeSessions sv)
       (balanceCheckers sv ∖ {[ sessionId session ]})
       (match intervalId session with
        | Some _ => delete r (timers sv)
        | None => timers sv
        end)
       (wallets sv) (store sv)).
Proof. intros Hs Ha. unfold stopTradingSession. now rewrite Ha, Hs. Qed.

(** C4: when [executeNextTrade] runs for a registered session whose trading
    balance is below 0.001 SOL, it attempts no trade, the session becomes
    inactive (reported as completed), no further run is scheduled, and
    running the closure again, with any input, changes nothing and attempts
    no trade. *)
Theorem depleted_session_stops sv r session i :
  sessions sv !! r = Some session ->
  activeSessions sv !! sessionId session = Some r ->
  tradingBalance session < minimumBalanceForTrade ->
  let sv' := fst (executeNextTrade sv r i) in
  snd (executeNextTrade sv r i) = None /\
  sessions sv' !! r = Some (setActive false session) /\
  reportedStatus (setActive false session) = completed /\
  timers sv' !! r = None /\
  store sv' = store sv /\
  forall i', executeNextTrade sv' r i' = (sv', None).
Proof.
  intros Hs Ha Hb sv'.
  assert (E : executeNextTrade sv r i =
              (snd (stopTradingSession (fired r sv) (sessionId session)), None)).
  { unfold executeNextTrade. cbn [fired sessions]. rewrite Hs.
    apply Qltb_lt in Hb. rewrite Hb. now destruct (isActive session). }
  rewrite (stopTradingSession_registered (fired r sv) r session Hs Ha) in E.
  subst sv'. rewrite E. cbn [fst snd sessions timers store fired].
  split; [reflexivity|]. split; [apply lookup_insert_eq|]. split; [reflexivity|].
  assert (Ht : (match intervalId session with
                | Some _ => delete r (delete r (timers sv))
                | None => delete r (timers sv)
                end) !! r = None).
  { destruct (intervalId session); rewrite ?lookup_delete_eq; reflexivity. }
  split; [exact Ht|]. split; [reflexivity|].
  intros i'. unfold executeNextTrade.
  cbn [fired sessions activeSessions balanceCheckers timers wallets store].
  rewrite lookup_insert_eq. cbn [isActive setActive negb].
  unfold stopTradingSession.
  cbn [fired sessions activeSessions balanceCheckers timers wallets store sessionId setActive].
  rewrite Ha, lookup_insert_eq. cbn [snd intervalId setActive].
  f_equal. apply service_eq; try reflexivity.
  - now rewrite insert_insert_eq.
  - apply difference_twice_L.
  - rewrite (delete_id _ _ Ht). now destruct (intervalId session); rewrite ?(delete_id _ _ Ht).
Qed.

Lemma sameCounters_refl s : sameCounters s s.
Proof. repeat split. Qed.

Lemma stopTradingSession_counters sv id r s :
  sessions sv !! r = Some s ->
  exists s', sessions (snd (stopTradingSession sv id)) !! r = Some s' /\ sameCounters s s'.
Proof.
  intros Hs. unfold stopTradingSession.
  destruct (activeSessions sv !! id) as [r0|]; [|eauto using sameCounters_refl].
  destruct (sessions sv !! r0) as [s0|] eqn:H0; [|eauto using sameCounters_refl].
  cbn [snd sessions]. destruct (decide (r0 = r)) as [->|Hne].
  - rewrite lookup_insert_eq. rewrite Hs in H0. injection H0 as <-.
    eexists. split; [reflexivity|]. repeat split.
  - rewrite lookup_insert_ne by assumption. eauto using sameCounters_refl.
Qed.

Lemma scheduleNext_lookup sv r delay s :
  sessions sv !! r = Some s ->
  scheduleNext r delay sv =
    mkService (<[r := setIntervalId (Some delay) s]> (sessions sv)) (activeSessions sv)
      (balanceCheckers sv) (<[r := delay]> (timers sv)) (wallets sv) (store sv).
Proof. intros Hs. unfold scheduleNext. now rewrite Hs. Qed.


(** What a run of [executeNextTrade] comes to, the call of
    [generateTransactionWallet] being a call of [undefined]. *)
Lemma executeNextTrade_runs sv r s i :
  sessions sv !! r = Some s ->
  executeNextTrade sv r i =
    if negb (isActive s) || Num.Qltb (tradingBalance s) minimumBalanceForTrade then
      (snd (stopTradingSession (fired r sv) (sessionId s)), None)
    else
      match keypair i with
      | KeypairMissing => (fired r sv, None)
      | KeypairFound => (scheduleNext r 10000 (fired r sv), None)
      end.
Proof.
  intros Hs. unfold executeNextTrade.
  assert (Hf : sessions (fired r sv) !! r = Some s) by exact Hs.
  rewrite Hf. destruct (isActive s) eqn:Ha; cbn [negb orb]; [|reflexivity].
  destruct (Num.Qltb _ _); [reflexivity|].
  destruct (keypair i); reflexivity.
Qed.

Lemma executeNextTrade_no_attempt sv r i : snd (executeNextTrade sv r i) = None.
Proof.
  destruct (sessions sv !! r) as [s|] eqn:Hs.
  - rewrite (executeNextTrade_runs _ _ _ _ Hs).
    destruct (_ || _); [reflexivity|]. now destruct (keypair i).
  - unfold executeNextTrade. change (sessions (fired r sv)) with (sessions sv).
    now rewrite Hs.
Qed.

Lemma stopTradingSession_store sv id : store (snd (stopTradingSession sv id)) = store sv.
Proof.
  unfold stopTradingSession. destruct (activeSessions sv !! id) as [r|]; [|reflexivity].
  now destruct (sessions sv !! r).
Qed.

(** One run of [executeNextTrade] leaves the count, the balance and the
    id of its session object, and the sessions file. *)
Lemma executeNextTrade_step sv r s i :
  sessions sv !! r = Some s ->
  store (fst (executeNextTrade sv r i)) = store sv /\
  exists s',
    sessions (fst (executeNextTrade sv r i)) !! r = Some s' /\ sameCounters s s'.
Proof.
  intros Hs. rewrite (executeNextTrade_runs _ _ _ _ Hs).
  assert (Hf : sessions (fired r sv) !! r = Some s) by exact Hs.
  destruct (_ || _).
  { cbn [fst]. split; [exact (stopTradingSession_store (fired r sv) _)|].
    exact (stopTradingSession_counters (fired r sv) (sessionId s) r s Hf). }
  destruct (keypair i); cbn [fst].
  - rewrite (scheduleNext_lookup _ _ _ _ Hf). cbn [sessions store].
    split; [reflexivity|]. rewrite lookup_insert_eq. eexists. split; [reflexivity|].
    repeat split.
  - split; [reflexivity|]. exists s. auto using sameCounters_refl.
Qed.

Lemma runTradingLoop_no_attempt inputs : forall sv r,
  snd (runTradingLoop sv r inputs) = [].
Proof.
  induction inputs as [|i rest IH]; intros sv r; [reflexivity|].
  cbn [runTradingLoop]. destruct (timers sv !! r); [|reflexivity].
  pose proof (executeNextTrade_no_attempt sv r i) as Hn.
  destruct (executeNextTrade sv r i) as [sv' attempt]. cbn [snd] in Hn. subst attempt.
  specialize (IH sv' r).
  destruct (runTradingLoop sv' r rest) as [sv'' attempts]. cbn [snd] in *.
  now subst attempts.
Qed.


End TradingLoop.

Lemma depleted_session_stops_witness :
  snd (AutoTradingService.executeNextTrade Examples.depletedService 0 Examples.tradeOk)
    = None /\
  (Session.isActive <$>
     AutoTradingService.sessions
       (fst (AutoTradingService.executeNextTrade Examples.depletedService 0 Examples.tradeOk))
     !! 0%nat) = Some false /\
  AutoTradingService.timers
    (fst (AutoTradingService.executeNextTrade Examples.depletedService 0 Examples.tradeOk))
    !! 0%nat = None /\
  AutoTradingService.executeNextTrade
    (fst (AutoTradingService.executeNextTrade Examples.depletedService 0 Examples.tradeOk))
    0 Examples.tradeOk
  = (fst (AutoTradingService.executeNextTrade Examples.depletedService 0 Examples.tradeOk),
     None).
Proof.
  destruct (depleted_session_stops Examples.depletedService 0%nat
              (Examples.session1 (9 # 10000) 0) Examples.tradeOk)
    as (Hnone & Hs & _ & Ht & _ & Hidem).
  - reflexivity.
  - reflexivity.
  - reflexivity.
  - split; [exact Hnone|]. split; [now rewrite Hs|].
    split; [exact Ht|]. apply Hidem.
Defined.

Section NeverStopLoop.
Import Session AutoTradingService Trace.




End NeverStopLoop.

Section Failures.
Import Session AutoTradingService Trace.

Lemma setIntervalId_twice h h' s :
  setIntervalId h (setIntervalId h' s) = setIntervalId h s.
Proof. now destruct s. Qed.

(** A run on an active, funded session for which a keypair is found ends
    in the [catch]: nothing but the timer changes, and the retry is 10 s
    away. *)
Lemma executeNextTrade_retries sv r s i :
  sessions sv !! r = Some s ->
  isActive s = true ->
  minimumBalanceForTrade <= tradingBalance s ->
  keypair i = KeypairFound ->
  executeNextTrade sv r i =
    (mkService (<[r := setIntervalId (Some 10000%N) s]> (sessions sv)) (activeSessions sv)
       (balanceCheckers sv) (<[r := 10000%N]> (timers sv)) (wallets sv) (store sv),
     None).
Proof.
  intros Hs Hact Hbal Hk. rewrite (executeNextTrade_runs _ _ _ _ Hs), Hact, Hk.
  assert (Hlt : Num.Qltb (tradingBalance s) minimumBalanceForTrade = false)
    by now apply Qltb_ge.
  rewrite Hlt. cbn [negb orb].
  assert (Hf : sessions (fired r sv) !! r = Some s) by exact Hs.
  rewrite (scheduleNext_lookup _ _ _ _ Hf).
  cbn [fired sessions activeSessions balanceCheckers timers wallets store].
  now rewrite insert_delete_eq.
Qed.

(** A run on an active, funded session for which no keypair is found
    returns from inside the [try] block: nothing is scheduled. *)
Lemma executeNextTrade_gives_up sv r s i :
  sessions sv !! r = Some s ->
  isActive s = true ->
  minimumBalanceForTrade <= tradingBalance s ->
  keypair i = KeypairMissing ->
  executeNextTrade sv r i = (fired r sv, None).
Proof.
  intros Hs Hact Hbal Hk. rewrite (executeNextTrade_runs _ _ _ _ Hs), Hact, Hk.
  assert (Hlt : Num.Qltb (tradingBalance s) minimumBalanceForTrade = false)
    by now apply Qltb_ge.
  now rewrite Hlt.
Qed.

Lemma retries_keep_trading inputs : forall sv r s,
  sessions sv !! r = Some s ->
  isActive s = true ->
  minimumBalanceForTrade <= tradingBalance s ->
  is_Some (timers sv !! r) ->
  inputs <> [] ->
  Forall (fun i => keypair i = KeypairFound) inputs ->
  runTradingLoop sv r inputs =
    (mkService (<[r := setIntervalId (Some 10000%N) s]> (sessions sv)) (activeSessions sv)
       (balanceCheckers sv) (<[r := 10000%N]> (timers sv)) (wallets sv) (store sv),
     []).
Proof.
  induction inputs as [|i rest IH]; intros sv r s Hs Hact Hbal Ht Hne Hall;
    [congruence|].
  cbn [runTradingLoop]. destruct Ht as [d Ht]. rewrite Ht.
  inversion Hall as [|? ? Hi Hrest]; subst.
  rewrite (executeNextTrade_retries sv r s i Hs Hact Hbal Hi).
  set (sv1 := mkService _ _ _ _ _ _).
  destruct rest as [|j rest]; [reflexivity|].
  rewrite (IH sv1 r (setIntervalId (Some 10000%N) s)).
  - unfold sv1. cbn [sessions activeSessions balanceCheckers timers wallets store app
                     option_list].
    now rewrite !insert_insert_eq, setIntervalId_twice.
  - apply lookup_insert_eq.
  - exact Hact.
  - exact Hbal.
  - unfold sv1. cbn [timers]. rewrite lookup_insert_eq. eauto.
  - discriminate.
  - exact Hrest.
Qed.

Lemma runTradingLoop_ended inputs sv r :
  timers sv !! r = None -> runTradingLoop sv r inputs = (sv, []).
Proof. intros Ht. destruct inputs; cbn [runTradingLoop]; [|rewrite Ht]; reflexivity. Qed.

End Failures.

Section VolumeBot.
Import Session UserVolumeBot Trace.

Lemma executeRealTrade_null storage id rnd swap :
  fst (executeRealTrade storage id rnd swap) = None ->
  snd (executeRealTrade storage id rnd swap) = storage.
Proof.
  unfold executeRealTrade.
  destruct (storage !! id); [|reflexivity].
  destruct (Qle_bool _ _); [reflexivity|].
  destruct swap; [|reflexivity].
  destruct (_ || _); [reflexivity|discriminate].
Qed.

Lemma tick_failure id storage lp i us :
  storage !! id = Some us ->
  Qle_bool (availableBalance us) (fundingAmount us * (25 # 100)) = false ->
  botFailure id storage i = true ->
  exists errors,
    tick id storage lp i =
      (storage, mkLoop (tradeCount lp) (currentTradeType lp) errors (intervalSet lp)).
Proof.
  intros Hus Hdep Hfail. destruct i as [|rnd swap]; cbn [tick].
  - eauto.
  - rewrite Hus, Hdep. destruct (Num.Qltb _ _); [destruct lp; eauto|].
    unfold botFailure in Hfail.
    pose proof (executeRealTrade_null storage id rnd swap) as Hnull.
    destruct (executeRealTrade storage id rnd swap) as [[sig|] storage']; cbn [fst snd] in *.
    + discriminate.
    + rewrite Hnull by reflexivity. eauto.
Qed.

Lemma bot_failures_keep_interval inputs : forall id storage lp us,
  storage !! id = Some us ->
  Qle_bool (availableBalance us) (fundingAmount us * (25 # 100)) = false ->
  intervalSet lp = true ->
  Forall (fun i => botFailure id storage i = true) inputs ->
  fst (run id storage lp inputs) = storage /\
  intervalSet (snd (run id storage lp inputs)) = true /\
  currentTradeType (snd (run id storage lp inputs)) = currentTradeType lp /\
  tradeCount (snd (run id storage lp inputs)) = tradeCount lp.
Proof.
  induction inputs as [|i rest IH]; intros id storage lp us Hus Hdep Hset Hall;
    cbn [run]; [auto|].
  rewrite Hset. inversion Hall as [|? ? Hi Hrest]; subst.
  destruct (tick_failure id storage lp i us Hus Hdep Hi) as [errors ->].
  specialize (IH id storage (mkLoop (tradeCount lp) (currentTradeType lp) errors
                               (intervalSet lp)) us Hus Hdep Hset Hrest).
  exact IH.
Qed.

End VolumeBot.


Section LoopClaims.
Import Session AutoTradingService Trace.


(** C5, as the code behaves: an error thrown inside the [try] block of
    [startTradingLoop] is caught and retried, but a run that gets no keypair
    from [getUserWalletKeypair] returns from inside the [try] block without
    scheduling anything.  For an active session with at least 0.001 SOL and
    a pending run: after any number of runs in a row that find a keypair and
    end in the [catch], the session is still active, the retry is pending 10
    s later, and registrations and the sessions file are untouched.  A run
    that finds no keypair leaves the session active with no run pending:
    the loop has ended, no further run does anything, and the step of the
    failsafe sweep for a 'trading' record of the session, which finds the
    timer handle of the session object still set, changes nothing.  In
    [startContinuousTrading] the interval stays set after any number of
    failed callbacks and the stored session, its status included, is
    untouched. *)
Theorem missing_keypair_ends_loop :
  (forall inputs sv r s,
     sessions sv !! r = Some s ->
     isActive s = true ->
     minimumBalanceForTrade <= tradingBalance s ->
     is_Some (timers sv !! r) ->
     inputs <> [] ->
     Forall (fun i => keypair i = KeypairFound) inputs ->
     runTradingLoop sv r inputs =
       (mkService (<[r := setIntervalId (Some 10000%N) s]> (sessions sv))
          (activeSessions sv) (balanceCheckers sv) (<[r := 10000%N]> (timers sv))
          (wallets sv) (store sv),
        []) /\
     isActive (setIntervalId (Some 10000%N) s) = true /\
     reportedStatus (setIntervalId (Some 10000%N) s) = active) /\
  (forall sv r s i,
     sessions sv !! r = Some s ->
     isActive s = true ->
     minimumBalanceForTrade <= tradingBalance s ->
     keypair i = KeypairMissing ->
     executeNextTrade sv r i = (fired r sv, None) /\
     sessions (fired r sv) !! r = Some s /\
     reportedStatus s = active /\
     timers (fired r sv) !! r = None /\
     (forall inputs, runTradingLoop (fired r sv) r inputs = (fired r sv, [])) /\
     (forall p chain now,
        activeSessions sv !! SP.sessionId p = Some r ->
        is_Some (intervalId s) ->
        SP.status p = SP.trading ->
        ensureSessionContinues (fired r sv) p chain now = fired r sv)) /\
  (forall inputs id storage lp us,
     storage !! id = Some us ->
     Qle_bool (UserVolumeBot.availableBalance us)
       (UserVolumeBot.fundingAmount us * (25 # 100)) = false ->
     UserVolumeBot.intervalSet lp = true ->
     Forall (fun i => botFailure id storage i = true) inputs ->
     fst (UserVolumeBot.run id storage lp inputs) = storage /\
     UserVolumeBot.intervalSet (snd (UserVolumeBot.run id storage lp inputs)) = true /\
     UserVolumeBot.currentTradeType (snd (UserVolumeBot.run id storage lp inputs))
       = UserVolumeBot.currentTradeType lp /\
     UserVolumeBot.tradeCount (snd (UserVolumeBot.run id storage lp inputs))
       = UserVolumeBot.tradeCount lp).
Proof.
  split; [|split].
  - intros inputs sv r s Hs Hact Hbal Ht Hne Hall.
    split; [now apply retries_keep_trading|].
    unfold reportedStatus. cbn [isActive setIntervalId]. now rewrite Hact.
  - intros sv r s i Hs Hact Hbal Hk.
    assert (Ht : timers (fired r sv) !! r = None) by apply lookup_delete_eq.
    split; [now apply (executeNextTrade_gives_up sv r s i)|].
    split; [exact Hs|]. split; [unfold reportedStatus; now rewrite Hact|].
    split; [exact Ht|]. split.
    + intros inputs. now apply runTradingLoop_ended.
    + intros p chain now Ha [h Hh] Hst. unfold ensureSessionContinues.
      cbn [fired activeSessions sessions]. rewrite Ha, Hs, Hst, Hh.
      rewrite (bool_decide_false (Some h = None)) by discriminate.
      rewrite andb_false_r. cbn [andb]. reflexivity.
  - intros inputs id storage lp us. apply bot_failures_keep_interval.
Qed.

End LoopClaims.

Import Session AutoTradingService Trace Examples.



Lemma missing_keypair_ends_loop_witness :
  (sessions (fst (runTradingLoop (service1 1 0) 0 tenRuns)) !! 0%nat =
     Some (setIntervalId (Some 10000%N) (session1 1 0)) /\
   timers (fst (runTradingLoop (service1 1 0) 0 tenRuns)) !! 0%nat = Some 10000%N /\
   store (fst (runTradingLoop (service1 1 0) 0 tenRuns)) = store (service1 1 0) /\
   snd (runTradingLoop (service1 1 0) 0 tenRuns) = []) /\
  (executeNextTrade (service1 1 0) 0 noKeypair = (fired 0 (service1 1 0), None) /\
   (isActive <$> sessions (fired 0 (service1 1 0)) !! 0%nat) = Some true /\
   timers (fired 0 (service1 1 0)) !! 0%nat = None /\
   runTradingLoop (fired 0 (service1 1 0)) 0 tenRuns = (fired 0 (service1 1 0), []) /\
   ensureSessionContinues (fired 0 (service1 1 0)) (persisted1 1 (4 # 3) SP.noOverrides)
     (fun _ => Balance 1000000000) 5000 = fired 0 (service1 1 0)) /\
  (fst (UserVolumeBot.run "session_1" botStorage UserVolumeBot.start botCalls) = botStorage /\
   UserVolumeBot.intervalSet
     (snd (UserVolumeBot.run "session_1" botStorage UserVolumeBot.start botCalls)) = true).
Proof.
  destruct missing_keypair_ends_loop as (R & M & B). split; [|split].
  - destruct (R tenRuns (service1 1 0) 0%nat (session1 1 0)) as (Hrun & _).
    + reflexivity.
    + reflexivity.
    + vm_compute. discriminate.
    + eexists. reflexivity.
    + discriminate.
    + repeat constructor.
    + rewrite Hrun. cbn [fst snd sessions timers store].
      rewrite !lookup_insert_eq. auto.
  - destruct (M (service1 1 0) 0%nat (session1 1 0) noKeypair)
      as (Hrun & Hs & _ & Ht & Hend & Hsweep).
    + reflexivity.
    + reflexivity.
    + vm_compute. discriminate.
    + reflexivity.
    + split; [exact Hrun|]. split; [now rewrite Hs|]. split; [exact Ht|].
      split; [apply Hend|]. apply Hsweep; [reflexivity | eexists; reflexivity | reflexivity].
  - destruct (B botCalls "session_1" botStorage UserVolumeBot.start botSession)
      as (Hst & Hint & _).
    + reflexivity.
    + reflexivity.
    + reflexivity.
    + repeat constructor.
    + split; assumption.
Defined.

Section Persistence.
Import SessionPersistence.

(** The completion test for a positive deposit: it holds below 5% of 75%
    of the deposit and fails above it, outside a band of relative width
    [2 * Number.EPSILON] around that bound, inside which the rounding of the
    two products and of the quotient decides. *)
Lemma completes_below tb d :
  0 < d ->
  tb <= (5 # 100) * ((75 # 100) * d) * (1 - 2 * Num.epsilon) ->
  Num.leb (remainingPercentage tb d) 5 = true.
Proof.
  intros Hd Htb. unfold remainingPercentage, Num.div, Num.mul.
  destruct (double_bounds (d * (75 # 100))) as [C1 C2]; [lra|].
  set (c := Num.double (d * (75 # 100))) in *.
  assert (Hc : 0 < c) by (unfold Num.epsilon in *; lra).
  assert (Hz : Qeq_bool c 0 = false).
  { destruct (Qeq_bool c 0) eqn:E; [|reflexivity]. apply Qeq_bool_eq in E. lra. }
  rewrite Hz. cbn [Num.scale Num.leb]. rewrite Qle_bool_iff.
  assert (Hmul : tb / c * c == tb) by (field; lra).
  set (t := tb / c) in *.
  destruct (Qlt_le_dec t 0) as [N|P].
  - pose proof (double_nonpos t) as Q1.
    pose proof (double_nonpos (Num.double t * 100)) as Q2. lra.
  - destruct (double_bounds t P) as [_ Q1].
    assert (Q0 : 0 <= Num.double t).
    { destruct (double_bounds t P) as [L _]. unfold Num.epsilon in L.
      assert (0 <= t * (1 - (1 # 4503599627370496) * (1 # 2))); [|lra].
      apply Qmult_le_0_compat; lra. }
    destruct (double_bounds (Num.double t * 100)) as [_ Q2]; [lra|].
    assert (T0 : t <= (5 # 100) * (1 - (5 # 4) * Num.epsilon)).
    { destruct (Qlt_le_dec ((5 # 100) * (1 - (5 # 4) * Num.epsilon)) t) as [L|L];
        [|exact L]. exfalso.
      apply (Qmult_lt_compat_r _ _ c) in L; [|exact Hc].
      clearbody t c. unfold Num.epsilon in *. lra. }
    clearbody t c. unfold Num.epsilon in *. lra.
Qed.

Lemma remainingPercentage_finite tb d :
  0 < d -> exists q, remainingPercentage tb d = Num.Finite q.
Proof.
  intros Hd. unfold remainingPercentage, Num.div, Num.mul.
  pose proof (double_pos (d * (75 # 100))) as Hc.
  destruct (Qeq_bool (Num.double (d * (75 # 100))) 0) eqn:E.
  - apply Qeq_bool_eq in E. exfalso. lra.
  - cbn [Num.scale]. eauto.
Qed.

Lemma completes_above tb d :
  0 < d ->
  (5 # 100) * ((75 # 100) * d) * (1 + 2 * Num.epsilon) < tb ->
  Num.leb (remainingPercentage tb d) 5 = false.
Proof.
  intros Hd Htb. unfold remainingPercentage, Num.div, Num.mul.
  destruct (double_bounds (d * (75 # 100))) as [C1 C2]; [lra|].
  set (c := Num.double (d * (75 # 100))) in *.
  assert (Hc : 0 < c) by (unfold Num.epsilon in *; lra).
  assert (Hz : Qeq_bool c 0 = false).
  { destruct (Qeq_bool c 0) eqn:E; [|reflexivity]. apply Qeq_bool_eq in E. lra. }
  rewrite Hz. cbn [Num.scale Num.leb].
  destruct (Qle_bool _ 5) eqn:B; [|reflexivity]. apply Qle_bool_iff in B. exfalso.
  assert (Hmul : tb / c * c == tb) by (field; lra).
  set (t := tb / c) in *.
  assert (T1 : (5 # 100) * (1 + (5 # 4) * Num.epsilon) <= t).
  { destruct (Qlt_le_dec t ((5 # 100) * (1 + (5 # 4) * Num.epsilon))) as [L|L];
      [|exact L]. exfalso.
    apply (Qmult_lt_compat_r _ _ c) in L; [|exact Hc].
    clearbody t c. unfold Num.epsilon in *. lra. }
  assert (P : 0 <= t) by (unfold Num.epsilon in T1; lra).
  destruct (double_bounds t P) as [Q1 _].
  assert (Q0 : 0 <= Num.double t) by (unfold Num.epsilon in *; lra).
  destruct (double_bounds (Num.double t * 100)) as [Q2 _]; [lra|].
  clearbody t c. unfold Num.epsilon in *. lra.
Qed.

Lemma findSession_lookup st id i p :
  findSession st id = Some (i, p) -> st !! i = Some p /\ sessionId p = id.
Proof. unfold findSession. intros H. apply list_find_Some in H. tauto. Qed.


(** C10, amended: for a stored session with a positive initial deposit,
    [updateTradingStats] writes the new counters and, when the new trading
    balance is at most 5% of 75% of that deposit, marks the record
    completed, with the completion time; when the balance is above that
    bound, status and completion time stay as they were.  The test is
    computed in doubles, as [(balance / (deposit * 0.75)) * 100 <= 5]: the
    percentage is a finite number, the record is completed exactly when
    that number is at most 5, and this decides the two cases as stated
    outside a band of relative width [2 * Number.EPSILON] around the
    bound. *)
Theorem updateTradingStats_completion st id n v tb now i p :
  findSession st id = Some (i, p) ->
  0 < initialDeposit p ->
  exists p',
    updateTradingStats st id n v tb now !! i = Some p' /\
    tradingBalance p' = tb /\ totalTrades p' = n /\ totalVolume p' = v /\
    lastTradeTime p' = Some now /\ initialDeposit p' = initialDeposit p /\
    (tb <= (5 # 100) * ((75 # 100) * initialDeposit p) * (1 - 2 * Num.epsilon) ->
     status p' = completed /\ completedAt p' = Some now) /\
    ((5 # 100) * ((75 # 100) * initialDeposit p) * (1 + 2 * Num.epsilon) < tb ->
     status p' = status p /\ completedAt p' = completedAt p) /\
    (exists percentage,
       remainingPercentage tb (initialDeposit p) = Num.Finite percentage /\
       (percentage <= 5 -> status p' = completed /\ completedAt p' = Some now) /\
       (5 < percentage -> status p' = status p /\ completedAt p' = completedAt p)).
Proof.
  intros H Hd. unfold updateTradingStats. rewrite H.
  apply findSession_lookup in H as [Hl Hid].
  eexists. split; [apply list_lookup_insert_eq; now apply lookup_lt_Some in Hl|].
  cbn [tradingBalance totalTrades totalVolume lastTradeTime initialDeposit status completedAt].
  repeat (split; [reflexivity|]).
  pose proof (completes_below tb (initialDeposit p) Hd) as Hlow.
  pose proof (completes_above tb (initialDeposit p) Hd) as Hhigh.
  destruct (remainingPercentage_finite tb (initialDeposit p) Hd) as [q Hq].
  rewrite Hq in *. cbn [Num.leb] in *.
  destruct (Qle_bool q 5) eqn:B.
  - apply Qle_bool_iff in B.
    split; [auto|]. split; [intros Hgt; specialize (Hhigh Hgt); discriminate|].
    exists q. split; [reflexivity|]. split; [auto|]. intros. exfalso. lra.
  - assert (B' : 5 < q).
    { destruct (Qlt_le_dec 5 q) as [|L]; [assumption|].
      apply Qle_bool_iff in L. congruence. }
    split; [intros Hle; specialize (Hlow Hle); discriminate|]. split; [auto|].
    exists q. split; [reflexivity|]. split; [|auto]. intros. exfalso. lra.
Qed.

End Persistence.

Import SessionPersistence.

Lemma updateTradingStats_completion_witness :
  exists p',
    updateTradingStats [persisted1 (75 # 100) 1 noOverrides] "session_1" 90 (72 # 100)
      (3 # 100) 5000 !! 0%nat = Some p' /\
    1 # 1000 < tradingBalance p' /\
    status p' = completed /\ completedAt p' = Some 5000%N.
Proof.
  destruct (updateTradingStats_completion [persisted1 (75 # 100) 1 noOverrides]
              "session_1" 90 (72 # 100) (3 # 100) 5000 0%nat
              (persisted1 (75 # 100) 1 noOverrides))
    as (p' & Hl & Hb & _ & _ & _ & _ & Hdone & _ & _).
  - reflexivity.
  - reflexivity.
  - exists p'. split; [exact Hl|]. rewrite Hb. split; [reflexivity|].
    apply Hdone. vm_compute. discriminate.
Defined.

(** At the bound itself the rounding decides, either way.  With a deposit
    of 0.7 SOL and a balance of 0.02625 SOL the percentage comes out as
    5.000000000000001 and the record stays as it was; with a deposit of
    18.16 SOL and a balance of 0.681 SOL it comes out as 5 and the record is
    completed, although as doubles this balance is above 5% of 75% of this
    deposit. *)
Lemma completion_at_the_bound_rounds :
  remainingPercentage (Num.double (2625 # 100000)) (Num.double (7 # 10)) =
    Num.Finite (5629499534213121 # 1125899906842624) /\
  (status <$> updateTradingStats [persisted1 (75 # 100) (Num.double (7 # 10)) noOverrides]
                "session_1" 90 (72 # 100) (Num.double (2625 # 100000)) 5000) = [trading] /\
  remainingPercentage (Num.double (681 # 1000)) (Num.double (1816 # 100)) = Num.Finite 5 /\
  (status <$> updateTradingStats [persisted1 (75 # 100) (Num.double (1816 # 100)) noOverrides]
                "session_1" 90 (72 # 100) (Num.double (681 # 1000)) 5000) = [completed] /\
  (5 # 100) * ((75 # 100) * Num.double (1816 # 100)) < Num.double (681 # 1000).
Proof. repeat split; vm_compute; reflexivity. Qed.

Lemma zero_deposit_not_completed :
  0 <= (5 # 100) * ((75 # 100) * initialDeposit zeroRecord) /\
  (status <$> updateTradingStats [zeroRecord] "session_1" 0 0 0 5000) = [trading] /\
  (completedAt <$> updateTradingStats [zeroRecord] "session_1" 0 0 0 5000) = [None].
Proof. split; [vm_compute; discriminate | split; vm_compute; reflexivity]. Qed.

Section Recovery.
Import Session AutoTradingService.



End Recovery.



(** * Further properties *)

Section MoreStrings.

Lemma append_assoc (a b c : string) : (a ++ b) ++ c = a ++ (b ++ c).
Proof.
  induction a as [|ch a IH]; [reflexivity|].
  change (String ch ((a ++ b) ++ c) = String ch (a ++ (b ++ c))). now rewrite IH.
Qed.

Lemma find_app_l {A} (f : A -> bool) (l k : list A) x :
  List.find f l = Some x -> List.find f (l ++ k) = Some x.
Proof.
  induction l as [|y l IH]; simpl; [discriminate|].
  destruct (f y); [auto | exact IH].
Qed.

Lemma find_app_r {A} (f : A -> bool) (l k : list A) :
  List.find f l = None -> List.find f (l ++ k) = List.find f k.
Proof.
  induction l as [|y l IH]; simpl; [reflexivity|].
  destruct (f y); [discriminate | exact IH].
Qed.

End MoreStrings.

Section LedgerFacts.
Import FundManager Ledger.
Context `{NumberFormat}.

Lemma mapSet_absent {V} k (v : V) m : mapHas k m = false -> mapSet k v m = (m ++ [(k, v)])%list.
Proof.
  unfold mapHas. induction m as [|[k' v'] m IH]; simpl; [reflexivity|].
  intros E. apply orb_false_iff in E as [E1 E2]. rewrite E1. now rewrite IH.
Qed.

Lemma mapHas_keys {V} k (m : list (string * V)) : mapHas k m = false -> k ∉ (fst <$> m).
Proof.
  unfold mapHas. induction m as [|[k' v'] m IH]; simpl; intros E.
  - apply not_elem_of_nil.
  - apply orb_false_iff in E as [E1 E2]. apply String.eqb_neq in E1.
    rewrite not_elem_of_cons. split; [congruence | auto].
Qed.

(** What a successful call did. *)
Lemma processFundSplit_success_state fm w sid pk A txid src split fm' :
  processFundSplit fm w sid pk A txid src = (inr split, fm') ->
  mapHas (splitKey sid A (dateNow w)) (fundSplits fm) = false /\
  0 < revenueAmount split /\
  revenueWallet split = REVENUE_WALLET /\
  exists sig,
    transfer w = Confirmed sig /\
    fm' = mkState
            (if truthy txid then {[ default "" txid ]} ∪ processedTransactions fm
             else processedTransactions fm)
            (fundSplits fm ++ [(splitKey sid A (dateNow w), split)])
            (revenueTransfers fm ++
               [mkFundTransfer pk REVENUE_WALLET (revenueAmount split) sig (dateNow w)
                  REVENUE_COLLECTION]).
Proof.
  unfold processFundSplit, executeRevenueTransfer.
  destruct (_ && _); [discriminate|].
  destruct (mapHas _ _) eqn:Hkey; [discriminate|].
  destruct (truthy txid && _); [discriminate|].
  destruct (Qle_bool _ 0) eqn:Hpos; [discriminate|].
  destruct (transfer w) as [sig|error]; [|discriminate].
  intros E. injection E as <- <-. cbn [revenueAmount revenueWallet].
  split; [reflexivity|]. split.
  { destruct (Qlt_le_dec 0 (Num.numberToFixed8 (Num.mul A REVENUE_PERCENTAGE)))
      as [L|L]; [exact L|].
    apply Qle_bool_iff in L. congruence. }
  split; [reflexivity|]. exists sig. split; [reflexivity|].
  cbn [processedTransactions fundSplits revenueTransfers].
  now rewrite (mapSet_absent _ _ _ Hkey).
Qed.

Lemma processFundSplit_rejects fm w sid pk A txid src msg fm' :
  processFundSplit fm w sid pk A txid src = (inl msg, fm') -> fm' = fm.
Proof.
  unfold processFundSplit, executeRevenueTransfer.
  repeat match goal with
         | |- context [if ?b then _ else _] => destruct b
         | |- context [match transfer w with _ => _ end] => destruct (transfer w)
         end; intros E; inversion E; reflexivity.
Qed.

Lemma processed_monotone fm c txid :
  txid ∈ processedTransactions fm -> txid ∈ processedTransactions (snd (call fm c)).
Proof.
  intros Hin. unfold call.
  destruct (processFundSplit fm (world c) (callSession c) (callWallet c) (callAmount c)
              (callTransaction c) (callSource c)) as [[msg|split] fm'] eqn:E.
  - apply processFundSplit_rejects in E. now subst.
  - apply processFundSplit_success_state in E as (_ & _ & _ & sig & _ & ->).
    cbn [snd processedTransactions]. destruct (truthy _); set_solver.
Qed.

Lemma processed_monotone_run calls : forall fm txid,
  txid ∈ processedTransactions fm -> txid ∈ processedTransactions (runCalls calls fm).
Proof.
  induction calls as [|c calls IH]; intros fm txid Hin; [exact Hin|].
  cbn [runCalls fold_left]. apply IH. now apply processed_monotone.
Qed.

(** A call of [processFundSplit] does all or nothing.  When it throws, the
    fund manager is as before: no split, no transfer and no transaction id
    is recorded.  When it returns a split, the revenue transfer was
    confirmed, and exactly one split and one transfer of the split's fee
    from the user's wallet to the revenue wallet were appended; a rejected
    transfer always makes it throw. *)
Theorem processFundSplit_all_or_nothing fm w sid pk A txid src :
  match processFundSplit fm w sid pk A txid src with
  | (inl _, fm') => fm' = fm
  | (inr split, fm') =>
      exists sig,
        transfer w = Confirmed sig /\
        fundSplits fm' = (fundSplits fm ++ [(splitKey sid A (dateNow w), split)])%list /\
        revenueTransfers fm' =
          (revenueTransfers fm ++
             [mkFundTransfer pk REVENUE_WALLET (revenueAmount split) sig (dateNow w)
                REVENUE_COLLECTION])%list /\
        processedTransactions fm ⊆ processedTransactions fm'
  end.
Proof.
  destruct (processFundSplit fm w sid pk A txid src) as [[msg|split] fm'] eqn:E.
  - now apply processFundSplit_rejects in E.
  - apply processFundSplit_success_state in E as (_ & _ & _ & sig & Hsig & ->).
    exists sig. cbn [fundSplits revenueTransfers processedTransactions].
    split; [exact Hsig|]. split; [reflexivity|]. split; [reflexivity|].
    destruct (truthy txid); set_solver.
Qed.

(** Once a call of [processFundSplit] with a non-empty transaction id has
    returned a split, every later call with that transaction id throws and
    changes nothing, whatever calls came in between and whatever session,
    wallet, amount and source wallet it names. *)
Theorem processed_transaction_never_again fm w sid pk A txid src split fm1 calls :
  processFundSplit fm w sid pk A (Some txid) src = (inr split, fm1) ->
  txid <> "" ->
  forall w' sid' pk' A' src',
    exists msg,
      processFundSplit (runCalls calls fm1) w' sid' pk' A' (Some txid) src'
      = (inl msg, runCalls calls fm1).
Proof.
  intros E Hne w' sid' pk' A' src'.
  apply processFundSplit_success_state in E as (_ & _ & _ & sig & _ & ->).
  apply String.eqb_neq in Hne.
  set (fm1 := mkState _ _ _).
  assert (Hin : txid ∈ processedTransactions (runCalls calls fm1)).
  { apply processed_monotone_run. subst fm1. cbn [processedTransactions truthy default].
    rewrite Hne. cbn [negb]. set_solver. }
  unfold processFundSplit.
  destruct (_ && _); [eauto|].
  destruct (mapHas _ _); [eauto|].
  cbn [truthy default]. rewrite Hne. cbn [negb andb].
  rewrite bool_decide_eq_true_2 by exact Hin. eauto.
Qed.

End LedgerFacts.

Section LedgerInvariant.
Import FundManager Ledger.
Context `{NumberFormat}.

Lemma consistent_initial : consistent initial.
Proof.
  unfold consistent, initial. cbn. repeat split; try constructor.
Qed.

Lemma consistent_call fm c : consistent fm -> consistent (snd (call fm c)).
Proof.
  intros Hc. unfold call.
  destruct (processFundSplit fm (world c) (callSession c) (callWallet c) (callAmount c)
              (callTransaction c) (callSource c)) as [[msg|split] fm'] eqn:E.
  - apply processFundSplit_rejects in E. now subst.
  - apply processFundSplit_success_state in E as (Hkey & Hpos & Hw & sig & _ & ->).
    destruct Hc as (Hlen & Hnd & Htr & Hsp & Htot).
    unfold consistent. cbn [snd fundSplits revenueTransfers].
    split; [rewrite !length_app; cbn; lia|].
    split.
    { rewrite fmap_app. apply NoDup_app. split; [exact Hnd|]. split.
      - intros k Hk Hk'. cbn in Hk'. apply list_elem_of_singleton in Hk'. subst k.
        now apply mapHas_keys in Hkey.
      - cbn. apply NoDup_singleton. }
    split.
    { apply Forall_app. split; [exact Htr|]. constructor; [|constructor].
      cbn. auto. }
    split.
    { apply Forall_app. split; [exact Hsp|]. constructor; [|constructor].
      cbn. auto. }
    unfold getTotalRevenueCollected, recordedRevenue in *.
    cbn [revenueTransfers fundSplits].
    rewrite List.filter_app, !fold_left_app. cbn. now rewrite Htot.
Qed.

(** After any sequence of calls of [processFundSplit] on a new fund
    manager, failed ones included: there are as many recorded splits as
    revenue transfers; no two splits share a key; every transfer goes to
    the revenue wallet, is a revenue collection and has a positive amount;
    every split names the revenue wallet and a positive fee; and
    [getTotalRevenueCollected] is the sum of the fees of the recorded
    splits. *)
Theorem ledger_consistent calls : consistent (runCalls calls initial).
Proof.
  assert (G : forall fm, consistent fm -> consistent (runCalls calls fm)).
  { induction calls as [|c calls IH]; intros fm Hc; [exact Hc|].
    cbn [runCalls fold_left]. apply IH. now apply consistent_call. }
  apply G, consistent_initial.
Qed.

(** [getFundSplit] and [isAmountProcessed] match a session id by prefix
    of the split's key: after a split was recorded for a session id, both
    answer for every prefix of that id (as 'session_1' for 'session_10'),
    and when nothing matched the prefix before, [getFundSplit] returns
    that split. *)
Theorem getFundSplit_by_prefix fm w sid pk A txid src split fm' p suffix :
  processFundSplit fm w sid pk A txid src = (inr split, fm') ->
  sid = p ++ suffix ->
  is_Some (getFundSplit fm' p) /\
  isAmountProcessed fm' p A = true /\
  (getFundSplit fm p = None -> getFundSplit fm' p = Some split).
Proof.
  intros E ->.
  pose proof (processFundSplit_success _ _ _ _ _ _ _ _ _ E) as [Hsplit _].
  apply processFundSplit_success_state in E as (_ & _ & _ & sig & _ & ->).
  assert (Hpre : String.prefix p (splitKey (p ++ suffix) A (dateNow w)) = true).
  { unfold splitKey. rewrite append_assoc. apply prefix_append. }
  unfold getFundSplit, isAmountProcessed. cbn [fundSplits].
  split; [|split].
  - destruct (List.find (fun e => String.prefix p (fst e)) (fundSplits fm)) as [e|] eqn:F.
    + rewrite (find_app_l _ _ _ _ F). cbn. eauto.
    + rewrite (find_app_r _ _ _ F). cbn. rewrite Hpre. cbn. eauto.
  - rewrite existsb_app. cbn. rewrite Hpre. rewrite Hsplit. cbn [totalAmount].
    assert (Qeq_bool A A = true) as -> by (apply Qeq_bool_iff; reflexivity).
    cbn. apply orb_true_r.
  - intros F. destruct (List.find _ (fundSplits fm)) as [e|] eqn:F'; [discriminate|].
    rewrite (find_app_r _ _ _ F'). cbn. now rewrite Hpre.
Qed.

End LedgerInvariant.

Section PoolSelection.
Import TokenValidator.

Lemma best_of_fold rest : forall first,
  let best := fold_left better rest first in
  (best = first \/ In best rest) /\
  liquidityUsd first <= liquidityUsd best /\
  forall p, In p rest -> liquidityUsd p <= liquidityUsd best.
Proof.
  induction rest as [|x rest IH]; intros first; cbn.
  - split; [now left|]. split; [apply Qle_refl | tauto].
  - destruct (IH (better first x)) as (Hin & Hle & Hall).
    assert (Hb : liquidityUsd first <= liquidityUsd (better first x) /\
                 liquidityUsd x <= liquidityUsd (better first x) /\
                 (better first x = first \/ better first x = x)).
    { unfold better. destruct (Num.Qltb _ _) eqn:E.
      - apply Qltb_lt in E. repeat split; [lra | apply Qle_refl | now right].
      - apply Qltb_ge in E. repeat split; [apply Qle_refl | exact E | now left]. }
    destruct Hb as (Hb1 & Hb2 & Hb3).
    split; [|split].
    + destruct Hin as [-> | Hin]; [|now right; right].
      destruct Hb3 as [-> | ->]; [now left | now right; left].
    + lra.
    + intros p [<- | Hp]; [lra | auto].
Qed.

(** [getBestPool] returns null exactly when no pool passes its filter;
    otherwise it returns one of the given pools, which passes the filter
    and whose liquidity is not below that of any pool that passes. *)
Theorem getBestPool_best pools :
  match getBestPool pools with
  | None => forall p, In p pools -> authentic p = false
  | Some best =>
      In best pools /\ authentic best = true /\
      forall p, In p pools -> authentic p = true -> liquidityUsd p <= liquidityUsd best
  end.
Proof.
  unfold getBestPool.
  destruct (List.filter authentic pools) as [|first rest] eqn:F.
  - intros p Hp. destruct (authentic p) eqn:Ha; [|reflexivity].
    assert (In p (List.filter authentic pools)) as Hin by (apply filter_In; auto).
    rewrite F in Hin. destruct Hin.
  - destruct (best_of_fold rest first) as (Hin & Hle & Hall).
    set (best := fold_left better rest first) in *.
    assert (Hbest : In best (List.filter authentic pools)).
    { rewrite F. destruct Hin as [-> | Hin]; [now left | now right]. }
    apply filter_In in Hbest as [Hb1 Hb2].
    split; [exact Hb1|]. split; [exact Hb2|].
    intros p Hp Ha.
    assert (In p (first :: rest)) as [<- | Hr] by (rewrite <- F; apply filter_In; auto);
      [exact Hle | auto].
Qed.

Lemma deduplicateFrom_spec pools : forall seen,
  sublist (deduplicateFrom seen pools) pools /\
  NoDup (poolKey <$> deduplicateFrom seen pools) /\
  (forall k, k ∈ (poolKey <$> deduplicateFrom seen pools) -> k ∉ seen) /\
  (forall p, p ∈ pools -> poolKey p ∈ seen \/
                          poolKey p ∈ (poolKey <$> deduplicateFrom seen pools)).
Proof.
  induction pools as [|x pools IH]; intros seen; cbn [deduplicateFrom].
  - split; [constructor|]. split; [constructor|].
    split; intros ? Hk; cbn in Hk; now apply elem_of_nil in Hk.
  - case_bool_decide as Hs.
    + destruct (IH seen) as (H1 & H2 & H3 & H4).
      split; [now apply sublist_cons|]. split; [exact H2|]. split; [exact H3|].
      intros p Hp. apply elem_of_cons in Hp as [-> | Hp]; [now left | auto].
    + destruct (IH ({[ poolKey x ]} ∪ seen)) as (H1 & H2 & H3 & H4).
      split; [now apply sublist_skip|]. rewrite fmap_cons.
      split; [|split].
      * apply NoDup_cons. split; [|exact H2].
        intros Hin. apply H3 in Hin. apply Hin, elem_of_union. left.
        now apply elem_of_singleton.
      * intros k Hk. apply elem_of_cons in Hk as [-> | Hk]; [exact Hs|].
        apply H3 in Hk. intros Hseen. apply Hk, elem_of_union. now right.
      * intros p Hp. apply elem_of_cons in Hp as [-> | Hp].
        -- right. apply elem_of_cons. now left.
        -- destruct (H4 p Hp) as [Hin | Hin].
           ++ apply elem_of_union in Hin as [Hin | Hin]; [|now left].
              apply elem_of_singleton in Hin. right. apply elem_of_cons. now left.
           ++ right. apply elem_of_cons. now right.
Qed.

Lemma deduplicateFrom_fixed pools : forall seen,
  NoDup (poolKey <$> pools) ->
  (forall k, k ∈ (poolKey <$> pools) -> k ∉ seen) ->
  deduplicateFrom seen pools = pools.
Proof.
  induction pools as [|x pools IH]; intros seen Hnd Hseen; [reflexivity|].
  cbn [deduplicateFrom]. rewrite fmap_cons in Hnd, Hseen.
  apply NoDup_cons in Hnd as [Hx Hnd].
  rewrite bool_decide_eq_false_2 by (apply Hseen, elem_of_cons; now left).
  f_equal. apply IH; [exact Hnd|].
  intros k Hk. assert (k ∉ seen) by (apply Hseen, elem_of_cons; now right).
  assert (k <> poolKey x) by (intros ->; contradiction).
  rewrite not_elem_of_union, not_elem_of_singleton. auto.
Qed.

(** [deduplicatePools] keeps the pools in their order, keeps no two pools
    with the same dex, base mint and quote mint, keeps a pool for every
    such key of the input, begins with the first pool of the input, and
    applied again changes nothing. *)
Theorem deduplicatePools_unique pools :
  sublist (deduplicatePools pools) pools /\
  NoDup (poolKey <$> deduplicatePools pools) /\
  (forall p, p ∈ pools -> poolKey p ∈ (poolKey <$> deduplicatePools pools)) /\
  head (deduplicatePools pools) = head pools /\
  deduplicatePools (deduplicatePools pools) = deduplicatePools pools.
Proof.
  unfold deduplicatePools.
  destruct (deduplicateFrom_spec pools ∅) as (H1 & H2 & H3 & H4).
  split; [exact H1|]. split; [exact H2|]. split; [|split].
  - intros p Hp. destruct (H4 p Hp) as [Hin | Hin]; [set_solver | exact Hin].
  - destruct pools as [|x pools]; [reflexivity|]. cbn [deduplicateFrom].
    rewrite bool_decide_eq_false_2 by set_solver. reflexivity.
  - apply deduplicateFrom_fixed; [exact H2 | exact H3].
Qed.

End PoolSelection.
Section StoreFacts.
Import SessionPersistence Stored.

Lemma findSession_None st id : findSession st id = None <-> id ∉ ids st.
Proof.
  unfold findSession, ids. rewrite list_find_None, Forall_forall. split.
  - intros Hn Hin. apply list_elem_of_fmap in Hin as (p & -> & Hp). exact (Hn p Hp eq_refl).
  - intros Hn p Hp E. apply Hn. apply list_elem_of_fmap. eauto.
Qed.

Lemma findSession_insert_same st id i p q :
  findSession st id = Some (i, p) -> sessionId q = id ->
  findSession (<[i := q]> st) id = Some (i, q).
Proof.
  unfold findSession. intros Hf Hq. apply list_find_Some in Hf as (Hi & Hp & Hlt).
  apply list_find_Some. split; [|split; [exact Hq|]].
  - apply list_lookup_insert_eq. eapply lookup_lt_Some; eauto.
  - intros j y Hj Hji. rewrite list_lookup_insert_ne in Hj by lia. eauto.
Qed.

Lemma findSession_insert_other st id' i p q :
  st !! i = Some p -> sessionId p <> id' -> sessionId q <> id' ->
  findSession (<[i := q]> st) id' = findSession st id'.
Proof.
  unfold findSession. revert i.
  induction st as [|x st IH]; intros [|i] Hi Hp Hq; simpl in *; try discriminate.
  - injection Hi as ->. now rewrite !decide_False by assumption.
  - destruct (decide _); [reflexivity|]. now rewrite (IH i).
Qed.

Lemma ids_insert st i p q :
  st !! i = Some p -> sessionId q = sessionId p -> ids (<[i := q]> st) = ids st.
Proof.
  intros Hi Hq. unfold ids. rewrite list_fmap_insert, Hq.
  apply list_insert_id. now rewrite list_lookup_fmap, Hi.
Qed.

(** The three updates replace the record they find by one of the same id. *)
Lemma update_shape (u : Store -> Store) (f : PersistentSession -> PersistentSession) st id :
  (forall p, sessionId (f p) = sessionId p) ->
  u st = match findSession st id with
         | Some (i, p) => <[i := f p]> st
         | None => st
         end ->
  ids (u st) = ids st /\
  (forall id', id' <> id -> getSession (u st) id' = getSession st id') /\
  (forall i p, findSession st id = Some (i, p) -> findSession (u st) id = Some (i, f p)).
Proof.
  intros Hf ->. destruct (findSession st id) as [[i p]|] eqn:E.
  - pose proof E as E'. apply list_find_Some in E' as (Hi & Hp & _). split; [|split].
    + apply (ids_insert _ _ p); [exact Hi | apply Hf].
    + intros id' Hne. unfold getSession.
      rewrite (findSession_insert_other st id' i p); rewrite ?Hf; congruence.
    + intros i' p' [= <- <-]. apply (findSession_insert_same _ _ _ p); [exact E|].
      now rewrite Hf.
  - repeat split; intros; discriminate.
Qed.

Lemma updateSessionStatus_shape st id newStatus data now :
  ids (updateSessionStatus st id newStatus data now) = ids st /\
  (forall id', id' <> id ->
     getSession (updateSessionStatus st id newStatus data now) id' = getSession st id') /\
  (forall i p, findSession st id = Some (i, p) ->
     exists p', findSession (updateSessionStatus st id newStatus data now) id = Some (i, p') /\
                status p' = newStatus /\
                completedAt p' = (if bool_decide (newStatus = completed) then Some now
                                  else completedAt p) /\
                tradingBalance p' = default (tradingBalance p) (newTradingBalance data) /\
                totalTrades p' = default (totalTrades p) (newTotalTrades data)).
Proof.
  destruct (update_shape (fun st => updateSessionStatus st id newStatus data now)
              (fun s => mkPersistentSession (sessionId s) (tokenAddress s) (userWallet s)
                 (default (tradingBalance s) (newTradingBalance data))
                 (default (initialDeposit s) (newInitialDeposit data))
                 (primaryDex s) (isActive s) (startTime s)
                 (default (totalTrades s) (newTotalTrades data))
                 (totalVolume s) (lastTradeTime s) (targetDepletion s)
                 newStatus (createdAt s)
                 (if bool_decide (newStatus = completed) then Some now else completedAt s)
                 (overrides s)) st id) as (H1 & H2 & H3); [reflexivity | reflexivity |].
  split; [exact H1|]. split; [exact H2|]. intros i p E. eexists. split; [exact (H3 i p E)|].
  repeat split.
Qed.

Lemma updateTradingStats_shape st id n v tb now :
  ids (updateTradingStats st id n v tb now) = ids st /\
  (forall id', id' <> id ->
     getSession (updateTradingStats st id n v tb now) id' = getSession st id').
Proof.
  destruct (update_shape (fun st => updateTradingStats st id n v tb now)
              (fun s =>
                 mkPersistentSession (sessionId s) (tokenAddress s) (userWallet s)
                   tb (initialDeposit s) (primaryDex s) (isActive s)
                   (startTime s) n v (Some now) (targetDepletion s)
                   (if Num.leb (remainingPercentage tb (initialDeposit s)) 5
                    then completed else status s)
                   (createdAt s)
                   (if Num.leb (remainingPercentage tb (initialDeposit s)) 5
                    then Some now else completedAt s)
                   (overrides s)) st id) as (H1 & H2 & _); [reflexivity | reflexivity |].
  split; assumption.
Qed.

Lemma updateSessionTrades_shape st id n v now :
  ids (updateSessionTrades st id n v now) = ids st /\
  (forall id', id' <> id ->
     getSession (updateSessionTrades st id n v now) id' = getSession st id').
Proof.
  destruct (update_shape (fun st => updateSessionTrades st id n v now)
              (fun s =>
                 mkPersistentSession (sessionId s) (tokenAddress s) (userWallet s)
                   (tradingBalance s) (initialDeposit s) (primaryDex s) (isActive s)
                   (startTime s) n v (Some now)
                   (targetDepletion s) (status s) (createdAt s) (completedAt s)
                   (overrides s)) st id) as (H1 & H2 & _); [reflexivity | reflexivity |].
  split; assumption.
Qed.

Lemma saveSession_ids st s :
  ids (saveSession st s) =
    if bool_decide (Session.sessionId s ∈ ids st) then ids st
    else (ids st ++ [Session.sessionId s])%list.
Proof.
  unfold saveSession. destruct (findSession st (Session.sessionId s)) as [[i p]|] eqn:E.
  - pose proof E as E'. apply list_find_Some in E' as (Hi & Hp & _).
    rewrite bool_decide_true.
    + now apply (ids_insert _ _ p).
    + unfold ids. apply list_elem_of_fmap. exists p. split; [easy|].
      eapply list_elem_of_lookup_2; eauto.
  - apply findSession_None in E. rewrite bool_decide_false by assumption.
    unfold ids. now rewrite fmap_app.
Qed.

Lemma filter_all {A} (f : A -> bool) (l : list A) :
  length (List.filter f l) = length l -> List.filter f l = l.
Proof.
  induction l as [|x l IH]; [reflexivity|]. simpl.
  destruct (f x); simpl; intros E.
  - f_equal. apply IH. lia.
  - pose proof (List.filter_length_le f l). lia.
Qed.

Lemma cleanup_filter st cutoffDate :
  cleanupCompletedSessions st cutoffDate =
    List.filter
      (fun session =>
         match bool_decide (status session = completed), completedAt session with
         | true, Some completedDate => (cutoffDate <? completedDate)%N
         | _, _ => true
         end) st.
Proof.
  unfold cleanupCompletedSessions. set (f := fun session : PersistentSession => _).
  cbv zeta. destruct (Nat.ltb_spec (length (List.filter f st)) (length st)); [reflexivity|].
  symmetry. apply filter_all. pose proof (List.filter_length_le f st). lia.
Qed.

Lemma ids_filter_sublist (f : PersistentSession -> bool) st :
  sublist (ids (List.filter f st)) (ids st).
Proof.
  unfold ids. induction st as [|x st IH]; simpl; [constructor|].
  destruct (f x); simpl; [now apply sublist_skip | now apply sublist_cons].
Qed.

Lemma apply_unique st o : unique st -> unique (applyOp st o).
Proof.
  unfold unique. intros U. destruct o as [s|id ns d now|id n v tb now|id n v now|c]; simpl.
  - rewrite saveSession_ids. case_bool_decide as Hin; [exact U|].
    apply NoDup_app. split; [exact U|]. split; [|apply NoDup_singleton].
    intros x Hx Hx'. apply list_elem_of_singleton in Hx'. now subst.
  - now rewrite (proj1 (updateSessionStatus_shape _ _ _ _ _)).
  - now rewrite (proj1 (updateTradingStats_shape _ _ _ _ _ _)).
  - now rewrite (proj1 (updateSessionTrades_shape _ _ _ _ _)).
  - rewrite cleanup_filter. exact (sublist_NoDup _ _ U (ids_filter_sublist _ _)).
Qed.

(** Whatever is written through [saveSession], the three updates and
    [cleanupCompletedSessions], starting from the empty file, the sessions
    file never holds two records with the same session id. *)
Theorem session_ids_stay_unique ops : unique (runOps ops).
Proof.
  unfold runOps. assert (U : unique []) by constructor.
  revert U. generalize (@nil PersistentSession) as st.
  induction ops as [|o ops IH]; intros st U; [exact U|].
  simpl. apply IH. now apply apply_unique.
Qed.

Lemma saveSession_find st s :
  exists i p,
    findSession (saveSession st s) (Session.sessionId s) = Some (i, p) /\
    sessionId p = Session.sessionId s /\
    tradingBalance p = Session.tradingBalance s /\
    totalTrades p = Session.totalTrades s /\
    totalVolume p = Session.totalVolume s /\
    status p = (if Session.isActive s then trading else monitoring) /\
    completedAt p = None /\
    overrides p = noOverrides.
Proof.
  unfold saveSession. set (q := mkPersistentSession _ _ _ _ _ _ _ _ _ _ _ _ _ _ _ _).
  destruct (findSession st (Session.sessionId s)) as [[i p]|] eqn:E.
  - exists i, q. split; [|repeat split]. exact (findSession_insert_same _ _ _ p q E eq_refl).
  - exists (0 + length st)%nat, q. split; [|repeat split].
    unfold findSession in *. rewrite (list_find_app_r _ _ _ E). simpl.
    now rewrite decide_True by reflexivity.
Qed.

Lemma saveSession_frame st s id :
  id <> Session.sessionId s ->
  getSession (saveSession st s) id = getSession st id.
Proof.
  intros Hne. unfold saveSession, getSession.
  destruct (findSession st (Session.sessionId s)) as [[i p]|] eqn:E.
  - apply list_find_Some in E as (Hi & Hp & _).
    rewrite (findSession_insert_other st id i p); simpl; congruence.
  - unfold findSession. destruct (list_find (fun s0 => sessionId s0 = id) st) as [[j y]|] eqn:F.
    + now rewrite (list_find_app_l _ _ _ _ _ F).
    + rewrite (list_find_app_r _ _ _ F). simpl. rewrite decide_False; [reflexivity|].
      simpl. congruence.
Qed.

(** [saveSession] followed by [getSession] under the saved id returns the
    record built from the session: its balance, counters and volume are
    the session's, its status is 'trading' for an active session and
    'monitoring' otherwise, and it carries no completion date and none of
    the override fields, also when a record of that id was there before.
    The file grows by one record exactly when the id was not in it. *)
Theorem saveSession_getSession st s :
  exists p,
    getSession (saveSession st s) (Session.sessionId s) = Some p /\
    sessionId p = Session.sessionId s /\
    tradingBalance p = Session.tradingBalance s /\
    totalTrades p = Session.totalTrades s /\
    totalVolume p = Session.totalVolume s /\
    status p = (if Session.isActive s then trading else monitoring) /\
    completedAt p = None /\
    overrides p = noOverrides /\
    length (saveSession st s) =
      (if bool_decide (Session.sessionId s ∈ ids st) then length st else S (length st)).
Proof.
  destruct (saveSession_find st s) as (i & p & Hf & H1 & H2 & H3 & H4 & H5 & H6 & H7).
  exists p. unfold getSession. rewrite Hf. repeat split; try assumption.
  pose proof (saveSession_ids st s) as Hids.
  apply (f_equal length) in Hids. unfold ids in Hids. rewrite length_fmap in Hids.
  rewrite Hids. unfold ids. case_bool_decide; rewrite ?length_app, ?length_fmap; simpl; lia.
Qed.

(** [saveSession] leaves the record of every other session id as it was,
    and it neither adds nor removes another id. *)
Theorem saveSession_other_sessions st s id :
  id <> Session.sessionId s ->
  getSession (saveSession st s) id = getSession st id /\
  (id ∈ ids (saveSession st s) <-> id ∈ ids st).
Proof.
  intros Hne. split; [now apply saveSession_frame|].
  rewrite saveSession_ids. case_bool_decide; [reflexivity|].
  rewrite elem_of_app, list_elem_of_singleton. tauto.
Qed.

(** [updateSessionStatus], [updateTradingStats] and [updateSessionTrades]
    called for one session id neither add nor remove a record, and leave
    the record of every other session id as it was. *)
Theorem updates_touch_one_record st id id' newStatus data n v tb now :
  id' <> id ->
  let st1 := updateSessionStatus st id newStatus data now in
  let st2 := updateTradingStats st id n v tb now in
  let st3 := updateSessionTrades st id n v now in
  (ids st1 = ids st /\ getSession st1 id' = getSession st id') /\
  (ids st2 = ids st /\ getSession st2 id' = getSession st id') /\
  (ids st3 = ids st /\ getSession st3 id' = getSession st id').
Proof.
  intros Hne. cbv zeta.
  destruct (updateSessionStatus_shape st id newStatus data now) as (A1 & A2 & _).
  destruct (updateTradingStats_shape st id n v tb now) as (B1 & B2).
  destruct (updateSessionTrades_shape st id n v now) as (C1 & C2).
  auto 10.
Qed.

End StoreFacts.
Section StoreReads.
Import SessionPersistence Stored.

Lemma filter_filter_implied {A} (f g : A -> bool) (l : list A) :
  (forall x, f x = true -> g x = true) ->
  List.filter f (List.filter g l) = List.filter f l.
Proof.
  intros Hfg. induction l as [|x l IH]; [reflexivity|]. simpl.
  destruct (g x) eqn:G; simpl.
  - now rewrite IH.
  - destruct (f x) eqn:F; [|exact IH]. apply Hfg in F. congruence.
Qed.

(** Under unique ids, after [updateSessionStatus] has given a session a
    status other than 'trading' and 'monitoring' (as 'completed' or
    'stopped'), [getActiveSessions] returns no record of that session, and
    the lookup [resumeTrading] makes among the active records finds none. *)
Theorem closed_session_not_active st id newStatus data now :
  unique st -> newStatus <> trading -> newStatus <> monitoring ->
  Forall (fun p => sessionId p <> id)
    (getActiveSessions (updateSessionStatus st id newStatus data now)) /\
  AutoTradingService.activeSessionData (updateSessionStatus st id newStatus data now) id
    = None.
Proof.
  intros U Ht Hm.
  destruct (updateSessionStatus_shape st id newStatus data now) as (Hids & _ & Hfind).
  set (st' := updateSessionStatus st id newStatus data now) in *.
  assert (F : Forall (fun p => sessionId p <> id) (getActiveSessions st')).
  { apply Forall_forall. intros p Hp Hid.
    apply list_elem_of_In, List.filter_In in Hp as [Hin Hact].
    apply list_elem_of_In, list_elem_of_lookup in Hin as [j Hj].
    destruct (findSession st id) as [[i p0]|] eqn:E.
    - destruct (Hfind i p0 eq_refl) as (p' & E' & Hst & _).
      apply list_find_Some in E' as (Hi & Hp' & _).
      assert (i = j).
      { apply (NoDup_lookup (ids st') i j id); [now rewrite Hids | |];
          unfold ids; rewrite list_lookup_fmap; [rewrite Hi | rewrite Hj]; simpl; congruence. }
      subst j. rewrite Hi in Hj. injection Hj as ->.
      rewrite Hst in Hact.
      rewrite (bool_decide_false _ Ht), (bool_decide_false _ Hm) in Hact. discriminate.
    - apply findSession_None in E. apply E. rewrite <- Hids, <- Hid.
      unfold ids. apply list_elem_of_fmap_2. eapply list_elem_of_lookup_2; eauto. }
  split; [exact F|].
  unfold AutoTradingService.activeSessionData.
  destruct (List.find _ _) as [x|] eqn:E; [|reflexivity].
  apply List.find_some in E as [Hin Heq]. apply String.eqb_eq in Heq.
  rewrite Forall_forall in F. exfalso. apply (F x); [now apply list_elem_of_In | exact Heq].
Qed.

(** In the statistics of [getSessionStats] the active count is the sum of
    the monitoring and the trading counts, active and completed records
    together are at most the total, and [getActiveSessions] returns at most
    as many records as are counted active. *)
Theorem getSessionStats_counts st :
  activeCount (getSessionStats st) =
    (monitoringCount (getSessionStats st) + tradingCount (getSessionStats st))%nat /\
  (activeCount (getSessionStats st) + completedCount (getSessionStats st)
     <= totalCount (getSessionStats st))%nat /\
  (length (getActiveSessions st) <= activeCount (getSessionStats st))%nat.
Proof.
  unfold getSessionStats, countStatus, getActiveSessions.
  cbn [activeCount monitoringCount tradingCount completedCount totalCount].
  induction st as [|p st (IH1 & IH2 & IH3)]; [simpl; lia|].
  cbn [List.filter]. destruct (status p); cbn [bool_decide decide_rel]; simpl;
    try destruct (Num.Qltb 0 (tradingBalance p)); simpl; lia.
Qed.

(** [cleanupCompletedSessions] removes exactly the records that are
    completed with a completion date not after the cutoff, keeps the order
    of the others, never changes what [getActiveSessions] returns, and a
    second call with the same cutoff removes nothing more. *)
Theorem cleanupCompletedSessions_removes_only_old st cutoffDate :
  (forall p, p ∈ cleanupCompletedSessions st cutoffDate <->
             p ∈ st /\
             ~ (status p = completed /\
                exists completedDate,
                  completedAt p = Some completedDate /\ (completedDate <= cutoffDate)%N)) /\
  sublist (cleanupCompletedSessions st cutoffDate) st /\
  getActiveSessions (cleanupCompletedSessions st cutoffDate) = getActiveSessions st /\
  cleanupCompletedSessions (cleanupCompletedSessions st cutoffDate) cutoffDate =
    cleanupCompletedSessions st cutoffDate.
Proof.
  rewrite !cleanup_filter. set (f := fun session : PersistentSession => _).
  split; [|split; [|split]].
  - intros p. rewrite !list_elem_of_In, List.filter_In. apply and_iff_compat_l.
    subst f. cbv beta. case_bool_decide as Hs.
    + destruct (completedAt p) as [d|].
      * rewrite N.ltb_lt. split.
        -- intros Hlt [_ (d' & [= <-] & Hle)]. lia.
        -- intros Hn. destruct (N.lt_ge_cases cutoffDate d) as [|Hle]; [assumption|].
           exfalso. apply Hn. eauto.
      * split; [|reflexivity]. intros _ [_ (d' & Hd & _)]. discriminate.
    + split; [|reflexivity]. intros _ [Hc _]. contradiction.
  - clear. induction st as [|x st IH]; simpl; [constructor|].
    destruct (f x); [now apply sublist_skip | now apply sublist_cons].
  - apply filter_filter_implied. intros p Hp. subst f. cbv beta.
    destruct (status p); try reflexivity. cbn in Hp. discriminate.
  - now apply filter_filter_implied.
Qed.

End StoreReads.
Section LoopAccounts.
Import Session AutoTradingService Account.

Lemma sameBooks_refl s : sameBooks s s.
Proof. repeat split. Qed.

Lemma stopTradingSession_books sv id r s :
  sessions sv !! r = Some s ->
  exists s', sessions (snd (stopTradingSession sv id)) !! r = Some s' /\ sameBooks s s'.
Proof.
  intros Hs. unfold stopTradingSession.
  destruct (activeSessions sv !! id) as [r0|]; [|eauto using sameBooks_refl].
  destruct (sessions sv !! r0) as [s0|] eqn:H0; [|eauto using sameBooks_refl].
  cbn [snd sessions]. destruct (decide (r0 = r)) as [->|Hne].
  - rewrite lookup_insert_eq. rewrite Hs in H0. injection H0 as <-.
    eexists. split; [reflexivity|]. repeat split.
  - rewrite lookup_insert_ne by assumption. eauto using sameBooks_refl.
Qed.

(** One run of [executeNextTrade] on the books of its session. *)
Lemma executeNextTrade_books sv r s i :
  sessions sv !! r = Some s ->
  exists s', sessions (fst (executeNextTrade sv r i)) !! r = Some s' /\ sameBooks s s'.
Proof.
  intros Hs. rewrite (executeNextTrade_runs _ _ _ _ Hs).
  assert (Hf : sessions (fired r sv) !! r = Some s) by exact Hs.
  destruct (_ || _).
  { exact (stopTradingSession_books (fired r sv) (sessionId s) r s Hf). }
  destruct (keypair i); cbn [fst].
  - rewrite (scheduleNext_lookup _ _ _ _ Hf). cbn [sessions].
    rewrite lookup_insert_eq. eexists. split; [reflexivity|]. repeat split.
  - exists s. auto using sameBooks_refl.
Qed.

(** As the sources stand, no run of the loop of [startTradingLoop] gets as
    far as [dexTrader.executeTrade]: a run ends at the stop for an inactive
    or depleted session, at the missing keypair, or in the [catch] after the
    call of the undefined [generateTransactionWallet].  Over any run of the
    loop no trade is attempted, the balance, the total volume and the count
    of the session stay as they were, and the sessions file is not
    written. *)
Theorem trading_loop_never_trades sv r s inputs :
  sessions sv !! r = Some s ->
  snd (runTradingLoop sv r inputs) = [] /\
  store (fst (runTradingLoop sv r inputs)) = store sv /\
  exists s',
    sessions (fst (runTradingLoop sv r inputs)) !! r = Some s' /\ sameBooks s s'.
Proof.
  intros Hs. split; [apply runTradingLoop_no_attempt|].
  revert sv s Hs.
  induction inputs as [|i rest IH]; intros sv s Hs;
    [cbn; eauto using sameBooks_refl|].
  cbn [runTradingLoop]. destruct (timers sv !! r); [|cbn; eauto using sameBooks_refl].
  destruct (executeNextTrade_step sv r s i Hs) as (Hst & _).
  destruct (executeNextTrade_books sv r s i Hs) as (s1 & Hs1 & B1 & B2 & B3).
  destruct (executeNextTrade sv r i) as [sv1 attempt]. cbn [fst] in *.
  destruct (IH sv1 s1 Hs1) as (Hst' & s' & Hs' & C1 & C2 & C3).
  destruct (runTradingLoop sv1 r rest) as [sv2 attempts]. cbn [fst] in *.
  split; [congruence|]. exists s'. split; [exact Hs'|]. repeat split; congruence.
Qed.

End LoopAccounts.
Section EmergencyStop.
Import Session AutoTradingService Account.

Lemma updateSessionStatus_map st id newStatus data now :
  Stored.unique st ->
  SP.updateSessionStatus st id newStatus data now =
    (fun s =>
       if decide (SP.sessionId s = id) then
         SP.mkPersistentSession (SP.sessionId s) (SP.tokenAddress s) (SP.userWallet s)
           (default (SP.tradingBalance s) (SP.newTradingBalance data))
           (default (SP.initialDeposit s) (SP.newInitialDeposit data))
           (SP.primaryDex s) (SP.isActive s) (SP.startTime s)
           (default (SP.totalTrades s) (SP.newTotalTrades data))
           (SP.totalVolume s) (SP.lastTradeTime s) (SP.targetDepletion s)
           newStatus (SP.createdAt s)
           (if bool_decide (newStatus = SP.completed) then Some now else SP.completedAt s)
           (SP.overrides s)
       else s) <$> st.
Proof.
  intros U. unfold SP.updateSessionStatus. set (F := fun s : SP.PersistentSession => _).
  apply list_eq. intros j. rewrite list_lookup_fmap.
  destruct (SP.findSession st id) as [[i p]|] eqn:E.
  - apply list_find_Some in E as (Hi & Hp & _).
    destruct (decide (i = j)) as [<-|Hne].
    + rewrite list_lookup_insert_eq by (eapply lookup_lt_Some; eauto).
      rewrite Hi. simpl. unfold F. now rewrite decide_True by assumption.
    + rewrite list_lookup_insert_ne by assumption.
      destruct (st !! j) as [y|] eqn:Hj; [|reflexivity]. simpl. unfold F.
      rewrite decide_False; [reflexivity|]. intros Hy. apply Hne.
      apply (NoDup_lookup (Stored.ids st) i j id U);
        unfold Stored.ids; rewrite list_lookup_fmap; [rewrite Hi | rewrite Hj];
        simpl; congruence.
  - apply findSession_None in E.
    destruct (st !! j) as [y|] eqn:Hj; [|reflexivity]. simpl. unfold F.
    rewrite decide_False; [reflexivity|]. intros Hy. apply E. rewrite <- Hy.
    unfold Stored.ids. apply list_elem_of_fmap_2. eapply list_elem_of_lookup_2; eauto.
Qed.

Lemma stopped_records (entries : list (string * nat)) now : forall st,
  Stored.unique st ->
  Forall (fun p => (SP.sessionId p ∉ (fst <$> entries)) /\ (p ∈ st))
    (SP.getActiveSessions (fold_left (markStopped now) entries st)).
Proof.
  induction entries as [|e entries IH]; intros st U.
  - simpl. apply Forall_forall. intros p Hp. split; [apply not_elem_of_nil|].
    apply list_elem_of_In, List.filter_In in Hp as [Hp _]. now apply list_elem_of_In.
  - cbn [fold_left]. unfold markStopped at 2.
    assert (U1 : Stored.unique (SP.updateSessionStatus st (fst e) SP.stopped SP.noData now)).
    { unfold Stored.unique.
      now rewrite (proj1 (updateSessionStatus_shape st (fst e) SP.stopped SP.noData now)). }
    specialize (IH _ U1). rewrite Forall_forall in IH. apply Forall_forall.
    intros p Hp. destruct (IH p Hp) as [Hnot Hin].
    apply list_elem_of_In, List.filter_In in Hp as [_ Hact].
    rewrite (updateSessionStatus_map _ _ _ _ _ U) in Hin.
    apply list_elem_of_fmap in Hin as (y & -> & Hy).
    destruct (decide (SP.sessionId y = fst e)) as [Heq|Hne].
    + cbn in Hact. discriminate.
    + split; [|exact Hy]. rewrite fmap_cons, not_elem_of_cons. auto.
Qed.

Lemma stopped_objects (entries : list (string * nat)) : forall heap r s,
  heap !! r = Some s ->
  exists s',
    (fold_left markInactive entries heap) !! r = Some s' /\
    sameBooks s s' /\
    (isActive s = false \/ r ∈ (snd <$> entries) -> isActive s' = false).
Proof.
  induction entries as [|e entries IH]; intros heap r s Hs.
  - exists s. simpl. split; [exact Hs|]. split; [apply sameBooks_refl|].
    intros [Hi|Hin]; [exact Hi|]. now apply elem_of_nil in Hin.
  - cbn [fold_left]. unfold markInactive at 2. destruct (decide (snd e = r)) as [->|Hne].
    + rewrite Hs.
      destruct (IH (<[r := setActive false s]> heap) r (setActive false s))
        as (s' & H1 & H2 & H3); [apply lookup_insert_eq|].
      exists s'. split; [exact H1|]. split; [exact H2|]. intros _. apply H3. now left.
    + assert (Hs1 : match heap !! snd e with
                    | Some session => <[snd e := setActive false session]> heap
                    | None => heap
                    end !! r = Some s).
      { destruct (heap !! snd e); [|exact Hs]. now rewrite lookup_insert_ne. }
      destruct (IH _ r s Hs1) as (s' & H1 & H2 & H3).
      exists s'. split; [exact H1|]. split; [exact H2|].
      intros [Hi|Hin]; [auto|]. apply H3. right.
      rewrite fmap_cons in Hin. apply elem_of_cons in Hin as [Heq|Hin]; [congruence | exact Hin].
Qed.

(** After [stopAllActiveSessions] both maps are empty and every session
    object that was registered is inactive with its balance, volume and
    count untouched, and its id is among the returned ones.  Its timeout is
    still pending: when it fires, [executeNextTrade] attempts no trade and
    schedules no further run. *)
Theorem emergency_stop_ends_loops sv now id r s :
  activeSessions sv !! id = Some r ->
  sessions sv !! r = Some s ->
  activeSessions (snd (stopAllActiveSessions sv now)) = ∅ /\
  balanceCheckers (snd (stopAllActiveSessions sv now)) = ∅ /\
  id ∈ fst (stopAllActiveSessions sv now) /\
  timers (snd (stopAllActiveSessions sv now)) = timers sv /\
  (exists s',
     sessions (snd (stopAllActiveSessions sv now)) !! r = Some s' /\
     isActive s' = false /\ sameBooks s s') /\
  (forall i,
     snd (executeNextTrade (snd (stopAllActiveSessions sv now)) r i) = None /\
     timers (fst (executeNextTrade (snd (stopAllActiveSessions sv now)) r i)) !! r = None).
Proof.
  intros Ha Hs. unfold stopAllActiveSessions. cbn [fst snd activeSessions balanceCheckers timers sessions].
  assert (Hin : (id, r) ∈ map_to_list (activeSessions sv)) by now apply elem_of_map_to_list.
  destruct (stopped_objects (map_to_list (activeSessions sv)) (sessions sv) r s Hs)
    as (s' & H1 & H2 & H3).
  assert (Hoff : isActive s' = false).
  { apply H3. right. now apply (list_elem_of_fmap_2 snd) in Hin. }
  split; [reflexivity|]. split; [reflexivity|].
  split; [now apply (list_elem_of_fmap_2 fst) in Hin|].
  split; [reflexivity|].
  split; [exists s'; auto|].
  intros i. unfold executeNextTrade. cbn [fired sessions].
  rewrite H1, Hoff. cbn [negb]. unfold stopTradingSession. cbn [fired activeSessions].
  rewrite lookup_empty. cbn [fst snd timers]. split; [reflexivity | apply lookup_delete_eq].
Qed.

(** When the ids of the sessions file are unique and every record that
    [getActiveSessions] returns belongs to a session registered in memory,
    then after [stopAllActiveSessions] no record is active any more, and
    the failsafe sweep [ensureAllSessionsContinue] restores nothing. *)
Theorem emergency_stop_survives_sweep sv now chain later :
  Stored.unique (store sv) ->
  Forall (fun p => is_Some (activeSessions sv !! SP.sessionId p))
    (SP.getActiveSessions (store sv)) ->
  SP.getActiveSessions (store (snd (stopAllActiveSessions sv now))) = [] /\
  ensureAllSessionsContinue (snd (stopAllActiveSessions sv now)) chain later =
    snd (stopAllActiveSessions sv now).
Proof.
  intros U Hreg.
  assert (E : SP.getActiveSessions (store (snd (stopAllActiveSessions sv now))) = []).
  { unfold stopAllActiveSessions. cbn [snd store].
    pose proof (stopped_records (map_to_list (activeSessions sv)) now (store sv) U) as F.
    set (st' := fold_left _ _ _) in *.
    destruct (SP.getActiveSessions st') as [|p l] eqn:El; [reflexivity|]. exfalso.
    assert (Hact : In p (SP.getActiveSessions st')) by (rewrite El; now left).
    apply Forall_cons in F as [[Hnot Hin] _].
    apply List.filter_In in Hact as [_ Hact].
    rewrite Forall_forall in Hreg.
    destruct (Hreg p) as [r Hr].
    { apply list_elem_of_In, List.filter_In. split; [now apply list_elem_of_In | exact Hact]. }
    apply Hnot. apply elem_of_map_to_list in Hr.
    now apply (list_elem_of_fmap_2 fst) in Hr. }
  split; [exact E|]. unfold ensureAllSessionsContinue. now rewrite E.
Qed.

End EmergencyStop.
Section StartSession.
Import Session AutoTradingService Account.

Lemma getBestPool_None pools :
  TokenValidator.getBestPool pools = None <->
  Forall (fun p => TokenValidator.authentic p = false) pools.
Proof.
  unfold TokenValidator.getBestPool. rewrite Forall_forall.
  destruct (List.filter TokenValidator.authentic pools) as [|first rest] eqn:F.
  - split; [intros _ | reflexivity]. intros p Hp.
    destruct (TokenValidator.authentic p) eqn:Ha; [|reflexivity].
    assert (Hin : In p (List.filter TokenValidator.authentic pools)).
    { apply List.filter_In. split; [now apply list_elem_of_In | exact Ha]. }
    rewrite F in Hin. destruct Hin.
  - split; [discriminate|]. intros Hall.
    assert (Hin : In first (List.filter TokenValidator.authentic pools)) by (rewrite F; now left).
    apply List.filter_In in Hin as [Hin Ha]. apply list_elem_of_In in Hin.
    rewrite (Hall first Hin) in Ha. discriminate.
Qed.

Lemma getBestPool_Some pools :
  is_Some (TokenValidator.getBestPool pools) <->
  Exists (fun p => TokenValidator.authentic p = true) pools.
Proof.
  rewrite Exists_exists. split.
  - intros [best Hb]. unfold TokenValidator.getBestPool in Hb.
    destruct (List.filter TokenValidator.authentic pools) as [|first rest] eqn:F;
      [discriminate|].
    assert (Hin : In first (List.filter TokenValidator.authentic pools)) by (rewrite F; now left).
    apply List.filter_In in Hin as [Hin Ha]. exists first. split; [|exact Ha].
    now apply list_elem_of_In.
  - intros (p & Hp & Ha). destruct (TokenValidator.getBestPool pools) eqn:B; [eauto|].
    apply getBestPool_None in B. rewrite Forall_forall in B. rewrite (B p Hp) in Ha.
    discriminate.
Qed.

(** [validateTradeability] answers true exactly when [validateToken]
    returned a valid result with a pool that passes the filter of
    [getBestPool]. *)
Lemma validateTradeability_true validation :
  DexTrader.validateTradeability validation = true <->
  exists v, validation = Some v /\ TokenValidator.valid v = true /\
            Exists (fun p => TokenValidator.authentic p = true) (TokenValidator.pools v).
Proof.
  unfold DexTrader.validateTradeability. destruct validation as [v|].
  - destruct (TokenValidator.valid v) eqn:Hv; cbn [negb].
    + destruct (TokenValidator.pools v) as [|p l] eqn:Hp; cbn [length Nat.eqb].
      * split; [discriminate|]. intros (v' & [= <-] & _ & Hex). rewrite Hp in Hex.
        now apply Exists_nil in Hex.
      * rewrite <- Hp.
        destruct (TokenValidator.getBestPool (TokenValidator.pools v)) eqn:B.
        -- split; [intros _ | reflexivity]. exists v. split; [reflexivity|].
           split; [exact Hv|]. apply getBestPool_Some. eauto.
        -- split; [discriminate|]. intros (v' & [= <-] & _ & Hex).
           apply getBestPool_Some in Hex as [best Hbest]. congruence.
    + split; [discriminate|]. intros (v' & [= <-] & Hv' & _). congruence.
  - split; [discriminate|]. intros (v' & Hv' & _). discriminate.
Qed.

(** [startTradingSession] throws exactly when the wallet of the session is
    unknown, when [validateTradeability] answers false (its call of
    [validateToken] threw, or returned an invalid result or no pool that
    passes the filter of [getBestPool]), or when no pool of the second
    validation passes that filter, with the message of the first of these
    that applies; otherwise it returns. *)
Theorem startTradingSession_errors sv id token dexName balance i :
  match startTradingSession sv id token dexName balance i with
  | inl error =>
      (error = "User wallet not found" /\
       WalletManager.getUserWallet (wallets sv) id = None) \/
      (error = "Token is not tradeable" /\
       is_Some (WalletManager.getUserWallet (wallets sv) id) /\
       match tradeability i with
       | None => True
       | Some v =>
           TokenValidator.valid v = false \/
           Forall (fun p => TokenValidator.authentic p = false) (TokenValidator.pools v)
       end) \/
      (error = "No suitable trading pool found" /\
       is_Some (WalletManager.getUserWallet (wallets sv) id) /\
       DexTrader.validateTradeability (tradeability i) = true /\
       Forall (fun p => TokenValidator.authentic p = false)
         (TokenValidator.pools (validation i)))
  | inr _ =>
      is_Some (WalletManager.getUserWallet (wallets sv) id) /\
      (exists v, tradeability i = Some v /\ TokenValidator.valid v = true /\
                 Exists (fun p => TokenValidator.authentic p = true)
                   (TokenValidator.pools v)) /\
      Exists (fun p => TokenValidator.authentic p = true)
        (TokenValidator.pools (validation i))
  end.
Proof.
  unfold startTradingSession.
  destruct (WalletManager.getUserWallet (wallets sv) id) as [w|]; [|now left].
  destruct (DexTrader.validateTradeability (tradeability i)) eqn:T; cbn [negb].
  - destruct (TokenValidator.getBestPool (TokenValidator.pools (validation i)))
      as [best|] eqn:B.
    + split; [eauto|]. split; [now apply validateTradeability_true|].
      apply getBestPool_Some. eauto.
    + right. right. split; [reflexivity|]. split; [eauto|]. split; [reflexivity|].
      now apply getBestPool_None.
  - right. left. split; [reflexivity|]. split; [eauto|].
    destruct (tradeability i) as [v|]; [|exact I].
    destruct (TokenValidator.valid v) eqn:Hv; [|now left]. right.
    apply getBestPool_None.
    destruct (TokenValidator.getBestPool (TokenValidator.pools v)) as [best|] eqn:B;
      [|reflexivity].
    exfalso. assert (Htrue : DexTrader.validateTradeability (Some v) = true).
    { apply validateTradeability_true. exists v. split; [reflexivity|]. split; [exact Hv|].
      apply getBestPool_Some. eauto. }
    congruence.
Qed.

(** What a call of [startTradingSession] that returns has done. *)
Lemma startTradingSession_returns sv id token dexName balance i sv' :
  startTradingSession sv id token dexName balance i = inr sv' ->
  exists wallet,
    WalletManager.getUserWallet (wallets sv) id = Some wallet /\
    sv' =
      mkService
        (<[fresh (dom (sessions sv)) :=
             mkTradingSession id token wallet balance dexName true (startClock i)
               0 0 None (Some 2000%N)]> (sessions sv))
        (<[id := fresh (dom (sessions sv))]> (activeSessions sv))
        (balanceCheckers sv)
        (<[fresh (dom (sessions sv)) := 2000%N]> (timers sv))
        (wallets sv)
        (SP.updateSessionStatus
           (SP.saveSession (store sv)
              (mkTradingSession id token wallet balance dexName true (startClock i)
                 0 0 None None))
           id SP.trading SP.noData (startClock i)).
Proof.
  unfold startTradingSession.
  destruct (WalletManager.getUserWallet (wallets sv) id) as [w|]; [|discriminate].
  destruct (DexTrader.validateTradeability (tradeability i)); cbn [negb]; [|discriminate].
  destruct (TokenValidator.getBestPool (TokenValidator.pools (validation i)));
    [|discriminate].
  intros [= <-]. exists w. split; [reflexivity|].
  unfold startTradingLoop, scheduleNext. cbn [sessions].
  rewrite lookup_insert_eq. cbn [activeSessions balanceCheckers timers wallets store].
  apply service_eq; try reflexivity. apply insert_insert_eq.
Qed.

(** When [startTradingSession] returns, a new session object is registered
    under the id: active, with the given balance and no trades, its first
    trade two seconds away, and that trade, if attempted, is a BUY.  The
    sessions file holds a 'trading' record of the id with that balance.
    Session objects and timers that existed, and the registrations and
    records of other ids, are as before. *)
Theorem startTradingSession_registers sv id token dexName balance i sv' :
  startTradingSession sv id token dexName balance i = inr sv' ->
  exists r s,
    sessions sv !! r = None /\
    activeSessions sv' !! id = Some r /\
    sessions sv' !! r = Some s /\
    sessionId s = id /\ isActive s = true /\ tradingBalance s = balance /\
    totalTrades s = 0%N /\ totalVolume s = 0 /\
    timers sv' !! r = Some 2000%N /\
    (forall tick a, snd (executeNextTrade sv' r tick) = Some a -> side a = BUY) /\
    (exists p, SP.getSession (store sv') id = Some p /\
               SP.status p = SP.trading /\ SP.tradingBalance p = balance /\
               SP.totalTrades p = 0%N) /\
    (forall r', r' <> r ->
       sessions sv' !! r' = sessions sv !! r' /\ timers sv' !! r' = timers sv !! r') /\
    (forall id', id' <> id ->
       activeSessions sv' !! id' = activeSessions sv !! id' /\
       SP.getSession (store sv') id' = SP.getSession (store sv) id').
Proof.
  intros Hstart.
  destruct (startTradingSession_returns _ _ _ _ _ _ _ Hstart) as (wallet & Hw & ->).
  set (r := fresh (dom (sessions sv))).
  set (s0 := mkTradingSession id token wallet balance dexName true (startClock i) 0 0 None None).
  set (s := mkTradingSession id token wallet balance dexName true (startClock i) 0 0 None
              (Some 2000%N)).
  assert (Hfresh : sessions sv !! r = None).
  { apply not_elem_of_dom. apply is_fresh. }
  exists r, s. cbn [sessions activeSessions timers store].
  split; [exact Hfresh|]. split; [apply lookup_insert_eq|]. split; [apply lookup_insert_eq|].
  do 5 (split; [reflexivity|]). split; [apply lookup_insert_eq|].
  split; [|split; [|split]].
  - intros tick a Ha. rewrite executeNextTrade_no_attempt in Ha. discriminate.
  - destruct (saveSession_find (store sv) s0) as (j & p & Hf & _ & Hb & Ht & _).
    destruct (updateSessionStatus_shape (SP.saveSession (store sv) s0) id SP.trading
                SP.noData (startClock i)) as (_ & _ & Hup).
    destruct (Hup j p Hf) as (p' & Hf' & Hst & _ & Hb' & Ht').
    exists p'. unfold SP.getSession. rewrite Hf'. split; [reflexivity|].
    split; [exact Hst|]. rewrite Hb', Ht'. split; [exact Hb | exact Ht].
  - intros r' Hne. now rewrite !lookup_insert_ne by congruence.
  - intros id' Hne. rewrite lookup_insert_ne by congruence. split; [reflexivity|].
    destruct (updateSessionStatus_shape (SP.saveSession (store sv) s0) id SP.trading
                SP.noData (startClock i)) as (_ & Hframe & _).
    rewrite (Hframe id' Hne). now apply saveSession_frame.
Qed.

End StartSession.
Section FundingCheck.
Import Session AutoTradingService Account.

(** [checkForFundingAndStartTrading] changes nothing when the wallet of the
    session is unknown, when a session is already registered under the id,
    when the balance cannot be read, or when the balance read is below
    0.001 SOL. *)
Theorem funding_check_leaves_unfunded sv id token dexName reading first second :
  WalletManager.getUserWallet (wallets sv) id = None \/
  is_Some (activeSessions sv !! id) \/
  reading = RpcError \/
  (exists lamports, reading = Balance lamports /\ toSOL lamports < 1 # 1000) ->
  checkForFundingAndStartTrading sv id token dexName reading first second = sv.
Proof.
  intros Hcase. unfold checkForFundingAndStartTrading.
  destruct (WalletManager.getUserWallet (wallets sv) id) as [w|]; [|reflexivity].
  case_bool_decide as Ha; [reflexivity|].
  destruct Hcase as [Hw | [Hact | [-> | (lamports & -> & Hlow)]]];
    [discriminate | contradiction | reflexivity |].
  destruct (Qle_bool (1 # 1000) (toSOL lamports)) eqn:E; [|reflexivity].
  apply Qle_bool_iff in E. lra.
Qed.

(** When the wallet is known, no session is registered under the id, the
    balance read is at least 0.001 SOL, [validateTradeability] answers true
    and some pool of the validation passes the filter of [getBestPool], [checkForFundingAndStartTrading] stops the
    balance checker of the id and registers an active session whose
    trading balance is 75% of the balance read, with its first trade
    scheduled.  Every later call for that id changes nothing, whatever it
    reads: the funding starts one session only. *)
Theorem funding_starts_one_session sv id token dexName lamports first second wallet :
  WalletManager.getUserWallet (wallets sv) id = Some wallet ->
  activeSessions sv !! id = None ->
  1 # 1000 <= toSOL lamports ->
  DexTrader.validateTradeability (tradeability first) = true ->
  Exists (fun p => TokenValidator.authentic p = true)
    (TokenValidator.pools (validation first)) ->
  (exists r s,
     sessions sv !! r = None /\
     activeSessions
       (checkForFundingAndStartTrading sv id token dexName (Balance lamports) first second)
       !! id = Some r /\
     sessions
       (checkForFundingAndStartTrading sv id token dexName (Balance lamports) first second)
       !! r = Some s /\
     isActive s = true /\
     tradingBalance s = toSOL lamports * (75 # 100) /\
     timers
       (checkForFundingAndStartTrading sv id token dexName (Balance lamports) first second)
       !! r = Some 2000%N) /\
  (id ∉ balanceCheckers
          (checkForFundingAndStartTrading sv id token dexName (Balance lamports) first second)) /\
  (forall reading first' second',
     checkForFundingAndStartTrading
       (checkForFundingAndStartTrading sv id token dexName (Balance lamports) first second)
       id token dexName reading first' second' =
     checkForFundingAndStartTrading sv id token dexName (Balance lamports) first second).
Proof.
  intros Hw Ha Hb Hc Hp.
  assert (E : exists sv',
    checkForFundingAndStartTrading sv id token dexName (Balance lamports) first second = sv' /\
    startTradingSession
      (mkService (sessions sv) (activeSessions sv) (balanceCheckers sv ∖ {[ id ]})
         (timers sv) (wallets sv)
         (SP.updateSessionStatus (store sv) id SP.trading
            (SP.mkPartial (Some (toSOL lamports * (75 # 100))) (Some (toSOL lamports)) None)
            (startClock first)))
      id token dexName (toSOL lamports * (75 # 100)) first = inr sv').
  { unfold checkForFundingAndStartTrading. rewrite Hw.
    rewrite bool_decide_false by (rewrite Ha; apply is_Some_None).
    apply Qle_bool_iff in Hb. rewrite Hb.
    destruct (startTradingSession _ id token dexName (toSOL lamports * (75 # 100)) first)
      as [e|sv2] eqn:S; [|eauto].
    exfalso. unfold startTradingSession in S. cbn [wallets] in S. rewrite Hw, Hc in S.
    cbn [negb] in S. apply getBestPool_Some in Hp as [best Hbest]. rewrite Hbest in S.
    discriminate. }
  destruct E as (sv' & -> & S).
  destruct (startTradingSession_returns _ _ _ _ _ _ _ S) as (w & _ & ->).
  cbn [sessions activeSessions balanceCheckers timers wallets store].
  split; [|split].
  - exists (fresh (dom (sessions sv))). eexists.
    split; [apply not_elem_of_dom, is_fresh|].
    split; [apply lookup_insert_eq|]. split; [apply lookup_insert_eq|].
    split; [reflexivity|]. split; [reflexivity | apply lookup_insert_eq].
  - rewrite not_elem_of_difference. right. now apply elem_of_singleton.
  - intros reading first' second'. unfold checkForFundingAndStartTrading.
    cbn [wallets activeSessions]. rewrite Hw, lookup_insert_eq.
    now rewrite bool_decide_true by eauto.
Qed.

End FundingCheck.

Section Sweep.
Import Session AutoTradingService Account.

Lemma stopTradingSession_handle sv id r s :
  sessions sv !! r = Some s ->
  activeSessions (snd (stopTradingSession sv id)) = activeSessions sv /\
  exists s', sessions (snd (stopTradingSession sv id)) !! r = Some s' /\
             intervalId s' = intervalId s /\ sessionId s' = sessionId s.
Proof.
  intros Hs. unfold stopTradingSession.
  destruct (activeSessions sv !! id) as [r0|]; [|eauto].
  destruct (sessions sv !! r0) as [s0|] eqn:H0; [|eauto].
  cbn [snd sessions activeSessions]. split; [reflexivity|].
  destruct (decide (r0 = r)) as [->|Hne].
  - rewrite lookup_insert_eq. rewrite Hs in H0. injection H0 as <-. eauto.
  - rewrite lookup_insert_ne by assumption. eauto.
Qed.

(** No run of [executeNextTrade] clears the timer handle of its session
    object or changes what is registered. *)
Lemma executeNextTrade_handle sv r s i :
  sessions sv !! r = Some s -> is_Some (intervalId s) ->
  activeSessions (fst (executeNextTrade sv r i)) = activeSessions sv /\
  exists s', sessions (fst (executeNextTrade sv r i)) !! r = Some s' /\
             is_Some (intervalId s') /\ sessionId s' = sessionId s.
Proof.
  intros Hs Hh. rewrite (executeNextTrade_runs _ _ _ _ Hs).
  assert (Hf : sessions (fired r sv) !! r = Some s) by exact Hs.
  destruct (_ || _).
  { destruct (stopTradingSession_handle (fired r sv) (sessionId s) r s Hf)
      as (A & s' & H1 & H2 & H3).
    cbn [fst]. split; [exact A|]. exists s'. rewrite H2. auto. }
  destruct (keypair i); cbn [fst]; [|eauto].
  rewrite (scheduleNext_lookup _ _ _ _ Hf). cbn [sessions activeSessions].
  split; [reflexivity|]. rewrite lookup_insert_eq. eexists. split; [reflexivity|].
  split; [cbn; eauto | reflexivity].
Qed.

Lemma runTradingLoop_handle inputs : forall sv r s,
  sessions sv !! r = Some s -> is_Some (intervalId s) ->
  activeSessions (fst (runTradingLoop sv r inputs)) = activeSessions sv /\
  exists s', sessions (fst (runTradingLoop sv r inputs)) !! r = Some s' /\
             is_Some (intervalId s') /\ sessionId s' = sessionId s.
Proof.
  induction inputs as [|i rest IH]; intros sv r s Hs Hh; [cbn; eauto|].
  cbn [runTradingLoop]. destruct (timers sv !! r); [|cbn; eauto].
  destruct (executeNextTrade_handle sv r s i Hs Hh) as (A & s1 & Hs1 & Hh1 & Hid1).
  destruct (executeNextTrade sv r i) as [sv1 attempt]. cbn [fst] in *.
  destruct (IH sv1 r s1 Hs1 Hh1) as (A' & s' & Hs' & Hh' & Hid').
  destruct (runTradingLoop sv1 r rest) as [sv2 attempts]. cbn [fst] in *.
  split; [congruence|]. exists s'. split; [exact Hs'|]. split; [exact Hh' | congruence].
Qed.

(** Once [startTradingLoop] has been called for the session object
    registered under an id, then after any number of runs of the loop,
    also runs that ended it, the step of [ensureAllSessionsContinue] for a
    'trading' record of that id changes nothing: the sweep starts no
    second loop for the session, and it does not restart a loop that has
    ended. *)
Theorem sweep_leaves_started_loop sv r s inputs p chain now :
  sessions sv !! r = Some s ->
  activeSessions sv !! sessionId s = Some r ->
  SP.sessionId p = sessionId s ->
  SP.status p = SP.trading ->
  ensureSessionContinues (fst (runTradingLoop (startTradingLoop sv r) r inputs)) p chain now =
    fst (runTradingLoop (startTradingLoop sv r) r inputs).
Proof.
  intros Hs Ha Hid Hst.
  assert (H0 : sessions (startTradingLoop sv r) !! r = Some (setIntervalId (Some 2000%N) s)).
  { unfold startTradingLoop. rewrite (scheduleNext_lookup _ _ _ _ Hs). apply lookup_insert_eq. }
  assert (A0 : activeSessions (startTradingLoop sv r) = activeSessions sv).
  { unfold startTradingLoop. now rewrite (scheduleNext_lookup _ _ _ _ Hs). }
  destruct (runTradingLoop_handle inputs (startTradingLoop sv r) r _ H0) as (A & s' & Hs' & Hh & Hid');
    [cbn; eauto|].
  set (sv' := fst (runTradingLoop (startTradingLoop sv r) r inputs)) in *.
  unfold ensureSessionContinues. rewrite Hid, A, A0, Ha, Hs', Hst.
  destruct Hh as [h Hh]. rewrite Hh.
  rewrite (bool_decide_false (Some h = None)) by discriminate.
  rewrite andb_false_r. cbn [andb]. reflexivity.
Qed.

End Sweep.
Section NeverStopAccounts.
Import Session AutoTradingService Account.

(** One run of [tradingLoop] on the books of its session. *)
Lemma tradingLoop_books sv lp i s :
  sessions sv !! loopSession lp = Some s ->
  loopSession (snd (fst (tradingLoop sv lp i))) = loopSession lp /\
  exists s',
    sessions (fst (fst (tradingLoop sv lp i))) !! loopSession lp = Some s' /\
    tradingBalance s' = tradingBalance s /\
    match snd (tradingLoop sv lp i) with
    | None => totalVolume s' = totalVolume s
    | Some a =>
        5 # 10000 < tradeAmount a /\ tradeAmount a <= 1 # 1000 /\
        totalVolume s' == totalVolume s + (if succeeded a then tradeAmount a else 0) /\
        exists lamports,
          balanceRead i = Balance lamports /\ tradeAmount a <= toSOL lamports * (5 # 10)
    end.
Proof.
  destruct lp as [r b n]. cbn [loopSession]. intros Hs.
  unfold tradingLoop. cbn [loopSession isNextTradeBuy again]. rewrite Hs.
  destruct (balanceRead i) as [lamports|]; [|cbn; eauto 6].
  destruct (Qle_bool _ _) eqn:Hdep.
  { cbn [fst snd loopSession sessions]. rewrite lookup_insert_eq.
    split; [reflexivity|]. eexists. split; [reflexivity|]. split; reflexivity. }
  destruct (Num.Qltb _ _); [cbn; eauto 6|].
  assert (Hamount : 5 # 10000 < Num.min (toSOL lamports * (5 # 10)) (1 # 1000) /\
                    Num.min (toSOL lamports * (5 # 10)) (1 # 1000) <= 1 # 1000 /\
                    Num.min (toSOL lamports * (5 # 10)) (1 # 1000) <= toSOL lamports * (5 # 10)).
  { assert (Hb : depletionThreshold < toSOL lamports).
    { destruct (Qlt_le_dec depletionThreshold (toSOL lamports)) as [|L]; [assumption|].
      apply Qle_bool_iff in L. congruence. }
    unfold depletionThreshold in Hb.
    destruct (Num_min_cases (toSOL lamports * (5 # 10)) (1 # 1000)) as [[-> ?]|[-> ?]];
      repeat split; lra. }
  destruct Hamount as (A1 & A2 & A3).
  destruct (result i) as [sig|error|].
  - cbn [fst snd loopSession sessions setStore setSession succeeded tradeAmount].
    rewrite lookup_insert_eq. split; [reflexivity|]. eexists. split; [reflexivity|].
    split; [reflexivity|]. split; [exact A1|]. split; [exact A2|]. split; [reflexivity|].
    eauto.
  - assert (Hfail : forall sv' lp' t,
              loopSession lp' = r ->
              (exists s', sessions sv' !! r = Some s' /\ tradingBalance s' = tradingBalance s /\
                          totalVolume s' = totalVolume s) ->
              loopSession (snd (fst (sv', lp',
                 Some (mkTradeAttempt (sessionId s) t
                         (Num.min (toSOL lamports * (5 # 10)) (1 # 1000)) false error)))) = r /\
              exists s',
                sessions (fst (fst (sv', lp',
                  Some (mkTradeAttempt (sessionId s) t
                          (Num.min (toSOL lamports * (5 # 10)) (1 # 1000)) false error))))
                  !! r = Some s' /\
                tradingBalance s' = tradingBalance s /\
                (5 # 10000 < Num.min (toSOL lamports * (5 # 10)) (1 # 1000) /\
                 Num.min (toSOL lamports * (5 # 10)) (1 # 1000) <= 1 # 1000 /\
                 totalVolume s' == totalVolume s + 0 /\
                 exists l, Balance lamports = Balance l /\
                           Num.min (toSOL lamports * (5 # 10)) (1 # 1000)
                             <= toSOL l * (5 # 10))).
    { intros sv' lp' t Hr (s' & H1 & H2 & H3). cbn [fst snd]. split; [exact Hr|].
      exists s'. split; [exact H1|]. split; [exact H2|]. split; [exact A1|].
      split; [exact A2|]. split; [rewrite H3; ring | eauto]. }
    destruct b.
    + apply Hfail; [reflexivity | eauto].
    + destruct (Num.includes _ error).
      * apply Hfail; [reflexivity|]. cbn [sessions setSession].
        rewrite lookup_insert_eq. eexists. split; [reflexivity|]. split; reflexivity.
      * apply Hfail; [reflexivity | eauto].
  - cbn; eauto 6.
Qed.

(** Over any run of the loop of [executeNeverStopTradingLoop]: every trade
    it attempts moves more than 0.0005 and at most 0.001 SOL, the session's
    total volume goes up by exactly the volume of the successful trades,
    and the trading balance of the session object is never changed. *)
Theorem never_stop_loop_books inputs : forall sv lp s,
  sessions sv !! loopSession lp = Some s ->
  exists s',
    sessions (fst (fst (runNeverStopLoop sv lp inputs))) !! loopSession lp = Some s' /\
    tradingBalance s' = tradingBalance s /\
    totalVolume s' == totalVolume s + tradedVolume (snd (runNeverStopLoop sv lp inputs)) /\
    Forall (fun a => 5 # 10000 < tradeAmount a /\ tradeAmount a <= 1 # 1000)
      (snd (runNeverStopLoop sv lp inputs)).
Proof.
  induction inputs as [|i rest IH]; intros sv lp s Hs; cbn [runNeverStopLoop].
  { exists s. cbn [fst snd tradedVolume]. repeat split; first [assumption | constructor | lra]. }
  destruct (nextRun lp).
  2:{ exists s. cbn [fst snd tradedVolume].
      repeat split; first [assumption | constructor | lra]. }
  destruct (tradingLoop_books sv lp i s Hs) as (Hr & s1 & Hs1 & Hb1 & Hstep).
  destruct (tradingLoop sv lp i) as [[sv1 lp1] attempt]. cbn [fst snd] in *.
  rewrite <- Hr in Hs1. destruct (IH sv1 lp1 s1 Hs1) as (s' & Hs' & Hb' & Hv' & Hall).
  destruct (runNeverStopLoop sv1 lp1 rest) as [[sv2 lp2] attempts]. cbn [fst snd] in *.
  rewrite Hr in Hs'. exists s'. split; [exact Hs'|]. split; [congruence|].
  destruct attempt as [a|];
    [change (option_list (Some a) ++ attempts)%list with (a :: attempts)
    |change (option_list None ++ attempts)%list with attempts]; cbn [tradedVolume].
  - destruct Hstep as (A1 & A2 & Hv & _). rewrite Hv in Hv'. split; [|constructor; auto].
    destruct (succeeded a); lra.
  - rewrite Hstep in Hv'. split; [exact Hv' | exact Hall].
Qed.

End NeverStopAccounts.
Section VolumeBotAccounts.
Import Session UserVolumeBot Account.






End VolumeBotAccounts.
Section RecoveryRegisters.
Import Session AutoTradingService Account.

Lemma updateSessionStatus_elems st id newStatus data now q :
  q ∈ SP.updateSessionStatus st id newStatus data now -> q ∈ st \/ SP.sessionId q = id.
Proof.
  unfold SP.updateSessionStatus.
  destruct (SP.findSession st id) as [[i p]|] eqn:E; [|now left].
  apply list_find_Some in E as (Hi & Hp & _).
  intros Hq. apply list_elem_of_lookup in Hq as [j Hj].
  destruct (decide (i = j)) as [<-|Hne].
  - rewrite list_lookup_insert_eq in Hj by (eapply lookup_lt_Some; eauto).
    injection Hj as <-. right. exact Hp.
  - rewrite list_lookup_insert_ne in Hj by assumption. left.
    eapply list_elem_of_lookup_2; eauto.
Qed.

Lemma startWalletMonitoring_registry sv id :
  activeSessions (startWalletMonitoring sv id) = activeSessions sv /\
  sessions (startWalletMonitoring sv id) = sessions sv /\
  store (startWalletMonitoring sv id) = store sv.
Proof. unfold startWalletMonitoring. now destruct (WalletManager.getUserWallet _ _). Qed.

Lemma resumeTrading_registry sv r s reading now :
  sessions sv !! r = Some s ->
  activeSessions (resumeTrading sv r reading now) = activeSessions sv /\
  forall q, q ∈ store (resumeTrading sv r reading now) ->
            q ∈ store sv \/ SP.sessionId q = sessionId s.
Proof.
  intros Hs. unfold resumeTrading. rewrite Hs. destruct reading as [lamports|].
  - destruct (_ && _).
    + cbn [setStore activeSessions store]. split; [reflexivity|].
      intros q. apply updateSessionStatus_elems.
    + unfold startTradingLoop, scheduleNext, setSession. cbn [sessions].
      rewrite lookup_insert_eq. cbn [activeSessions store]. auto.
  - destruct (startWalletMonitoring_registry
                (setStore (SP.updateSessionStatus (store sv) (sessionId s) SP.monitoring
                             SP.noData now) sv) (sessionId s)) as (-> & _ & ->).
    cbn [setStore activeSessions store]. split; [reflexivity|].
    intros q. apply updateSessionStatus_elems.
Qed.

Lemma recoverSingleSession_registry sv p reading now :
  activeSessions (recoverSingleSession sv p reading now) =
    <[SP.sessionId p := fresh (dom (sessions sv))]> (activeSessions sv) /\
  forall q, q ∈ store (recoverSingleSession sv p reading now) ->
            q ∈ store sv \/ SP.sessionId q = SP.sessionId p.
Proof.
  unfold recoverSingleSession.
  set (r := fresh (dom (sessions sv))). set (session := mkTradingSession _ _ _ _ _ _ _ _ _ _ _).
  set (sv1 := mkService _ _ _ _ _ _).
  destruct (_ && _).
  - destruct (resumeTrading_registry sv1 r session reading now) as (-> & Hq);
      [apply lookup_insert_eq|]. split; [reflexivity|]. exact Hq.
  - destruct (bool_decide (SP.status p = SP.monitoring)).
    + destruct (startWalletMonitoring_registry sv1 (SP.sessionId p)) as (-> & _ & ->).
      cbn. auto.
    + cbn. auto.
Qed.

Lemma recovered_registry chain (clock : string -> N) (l : list SP.PersistentSession) :
  forall sv,
  (forall id,
     is_Some (activeSessions sv !! id) \/ id ∈ (SP.sessionId <$> l) ->
     is_Some (activeSessions
                (fold_left
                   (fun sv' p =>
                      recoverSingleSession sv' p (chain (SP.userWallet p))
                        (clock (SP.sessionId p)))
                   l sv) !! id)) /\
  (forall q,
     q ∈ store (fold_left
                  (fun sv' p =>
                     recoverSingleSession sv' p (chain (SP.userWallet p))
                       (clock (SP.sessionId p)))
                  l sv) ->
     q ∈ store sv \/ SP.sessionId q ∈ (SP.sessionId <$> l)).
Proof.
  induction l as [|p l IH]; intros sv; cbn [fold_left].
  - split.
    + intros id [Hreg | Hin]; [exact Hreg | now apply elem_of_nil in Hin].
    + intros q Hq. now left.
  - destruct (IH (recoverSingleSession sv p (chain (SP.userWallet p))
                    (clock (SP.sessionId p)))) as [IH1 IH2].
    destruct (recoverSingleSession_registry sv p (chain (SP.userWallet p))
                (clock (SP.sessionId p))) as [Ha Hq].
    rewrite fmap_cons. split.
    + intros id Hid. apply IH1. rewrite Ha.
      destruct (decide (id = SP.sessionId p)) as [->|Hne].
      * left. rewrite lookup_insert_eq. eauto.
      * rewrite lookup_insert_ne by congruence.
        destruct Hid as [Hreg | Hin]; [now left|].
        apply elem_of_cons in Hin as [Heq | Hin]; [contradiction | now right].
    + intros q Hin. destruct (IH2 q Hin) as [Hold | Hl].
      * destruct (Hq q Hold) as [Hst | Hid]; [now left|].
        right. rewrite Hid. apply elem_of_cons. now left.
      * right. apply elem_of_cons. now right.
Qed.

(** After [recoverActiveSessions], every record of the sessions file that
    [getActiveSessions] still returns belongs to a session that is
    registered in memory. *)
Theorem recovery_registers_active_records sv walletMappings chain clock :
  Forall
    (fun q =>
       is_Some (activeSessions (recoverActiveSessions sv walletMappings chain clock)
                  !! SP.sessionId q))
    (SP.getActiveSessions (store (recoverActiveSessions sv walletMappings chain clock))).
Proof.
  unfold recoverActiveSessions. cbv zeta.
  destruct (SP.getActiveSessions (store sv)) as [|p0 l0] eqn:E.
  { rewrite E. constructor. }
  rewrite <- E. set (sv1 := mkService _ _ _ _ _ _).
  destruct (recovered_registry chain clock (SP.getActiveSessions (store sv)) sv1) as [H1 H2].
  apply Forall_forall. intros q Hq. apply H1. right.
  apply list_elem_of_In, List.filter_In in Hq as [Hin Hact].
  apply list_elem_of_In in Hin. destruct (H2 q Hin) as [Hold | Hl]; [|exact Hl].
  apply list_elem_of_fmap_2. apply list_elem_of_In, List.filter_In.
  split; [now apply list_elem_of_In | exact Hact].
Qed.

End RecoveryRegisters.
Section SweepRegisters.
Import Session AutoTradingService Account.

Lemma ensureSessionContinues_registry sv p chain now id :
  is_Some (activeSessions sv !! id) \/ id = SP.sessionId p ->
  is_Some (activeSessions (ensureSessionContinues sv p chain now) !! id).
Proof.
  intros Hid. unfold ensureSessionContinues.
  destruct (activeSessions sv !! SP.sessionId p) as [r|] eqn:Ha.
  - assert (Hreg : is_Some (activeSessions sv !! id)).
    { destruct Hid as [Hreg | ->]; [exact Hreg | rewrite Ha; eauto]. }
    destruct (sessions sv !! r) as [memorySession|] eqn:Hs; [|exact Hreg].
    cbv zeta.
    match goal with
    | |- context [if ?b then resumeTrading sv r ?x now else sv] =>
        set (sv1 := if b then resumeTrading sv r x now else sv)
    end.
    assert (H1 : activeSessions sv1 = activeSessions sv).
    { subst sv1. destruct (_ && _); [|reflexivity].
      now destruct (resumeTrading_registry sv r memorySession
                      (chain (userWallet memorySession)) now Hs) as [-> _]. }
    clearbody sv1. destruct (_ && _).
    + destruct (startWalletMonitoring_registry sv1 (SP.sessionId p)) as (-> & _).
      now rewrite H1.
    + now rewrite H1.
  - destruct (recoverSingleSession_registry sv p (chain (SP.userWallet p)) now) as [-> _].
    destruct (decide (id = SP.sessionId p)) as [->|Hne].
    + rewrite lookup_insert_eq. eauto.
    + rewrite lookup_insert_ne by congruence. destruct Hid as [Hreg | Heq]; [exact Hreg|].
      contradiction.
Qed.

Lemma swept_registry chain (clock : string -> N) (l : list SP.PersistentSession) :
  forall sv id,
    is_Some (activeSessions sv !! id) \/ id ∈ (SP.sessionId <$> l) ->
    is_Some (activeSessions
               (fold_left
                  (fun sv' p => ensureSessionContinues sv' p chain (clock (SP.sessionId p)))
                  l sv) !! id).
Proof.
  induction l as [|p l IH]; intros sv id Hid; cbn [fold_left].
  - destruct Hid as [Hreg | Hin]; [exact Hreg | now apply elem_of_nil in Hin].
  - apply IH. rewrite fmap_cons in Hid.
    destruct Hid as [Hreg | Hin].
    + left. apply ensureSessionContinues_registry. now left.
    + apply elem_of_cons in Hin as [-> | Hin]; [|now right].
      left. apply ensureSessionContinues_registry. now right.
Qed.

(** After [ensureAllSessionsContinue], every record that
    [getActiveSessions] returned when the sweep began belongs to a session
    that is registered in memory: a session that was lost is restored. *)
Theorem sweep_registers_active_records sv chain clock :
  Forall
    (fun p => is_Some (activeSessions (ensureAllSessionsContinue sv chain clock)
                         !! SP.sessionId p))
    (SP.getActiveSessions (store sv)).
Proof.
  apply Forall_forall. intros p Hp. unfold ensureAllSessionsContinue.
  apply swept_registry. right. now apply list_elem_of_fmap_2.
Qed.

End SweepRegisters.

Section VolumeBotCompletes.
Import Session UserVolumeBot.

(** When the callback of [startContinuousTrading] runs for a session whose
    available balance is at or below a quarter of its funding, it attempts
    no trade, marks the session 'completed' and not trading with its
    balance untouched, and clears the interval: no later run does
    anything. *)
Theorem bot_completes_at_reserve id storage lp us rnd swap more :
  storage !! id = Some us ->
  availableBalance us <= fundingAmount us * (25 # 100) ->
  intervalSet lp = true ->
  fst (run id storage lp (Proceeds rnd swap :: more)) =
    <[id := mkUserSession (fundingAmount us) (availableBalance us) false "completed"]> storage /\
  snd (run id storage lp (Proceeds rnd swap :: more)) =
    mkLoop (tradeCount lp) (currentTradeType lp) (consecutiveErrors lp) false.
Proof.
  intros Hus Hres Hset. cbn [run]. rewrite Hset. cbn [tick]. rewrite Hus.
  apply Qle_bool_iff in Hres. rewrite Hres.
  destruct more; cbn [run intervalSet]; split; reflexivity.
Qed.

End VolumeBotCompletes.
(** * Closed examples of the further properties *)

Section FurtherExamples.
Import Session AutoTradingService Examples Account.

Lemma processed_transaction_never_again_witness :
  exists msg,
    FundManager.processFundSplit (H := fractionFormat) afterTx1
      (FundManager.mkWorld 2000 (FundManager.Confirmed "sig2"))
      "session_2" "OtherWallet" 5 (Some "tx1") None = (inl msg, afterTx1).
Proof.
  assert (E : exists split,
             FundManager.processFundSplit (H := fractionFormat) FundManager.initial world1
               "session_1" "UserWallet" 1 (Some "tx1") None = (inr split, afterTx1)).
  { eexists. vm_compute. reflexivity. }
  destruct E as [split E].
  apply (processed_transaction_never_again (H := fractionFormat) _ _ _ _ _ _ _ _ _ [] E).
  discriminate.
Defined.

Lemma getFundSplit_by_prefix_witness :
  is_Some (FundManager.getFundSplit afterSession10 "session_1") /\
  FundManager.isAmountProcessed afterSession10 "session_1" 1 = true.
Proof.
  assert (E : exists split,
             FundManager.processFundSplit (H := fractionFormat) FundManager.initial world1
               "session_10" "UserWallet" 1 None None = (inr split, afterSession10)).
  { eexists. vm_compute. reflexivity. }
  destruct E as [split E].
  destruct (getFundSplit_by_prefix (H := fractionFormat) _ _ _ _ _ _ _ _ _
              "session_1" "0" E eq_refl) as (H1 & H2 & _).
  split; assumption.
Defined.

Lemma saveSession_other_sessions_witness :
  SP.getSession (SP.saveSession twoRecords (session1 1 3)) "session_2" = Some otherRecord.
Proof.
  destruct (saveSession_other_sessions twoRecords (session1 1 3) "session_2") as [H _].
  - discriminate.
  - rewrite H. reflexivity.
Defined.

Lemma updates_touch_one_record_witness :
  SP.getSession (SP.updateSessionStatus twoRecords "session_1" SP.completed SP.noData 9000)
    "session_2" = Some otherRecord /\
  SP.getSession (SP.updateTradingStats twoRecords "session_1" 4 (1 # 100) (4 # 10) 9000)
    "session_2" = Some otherRecord /\
  SP.getSession (SP.updateSessionTrades twoRecords "session_1" 4 (1 # 100) 9000)
    "session_2" = Some otherRecord.
Proof.
  destruct (updates_touch_one_record twoRecords "session_1" "session_2" SP.completed
              SP.noData 4 (1 # 100) (4 # 10) 9000) as ((_ & H1) & (_ & H2) & (_ & H3)).
  - discriminate.
  - rewrite H1, H2, H3. repeat split.
Defined.

Lemma closed_session_not_active_witness :
  Forall (fun p => SP.sessionId p <> "session_1")
    (SP.getActiveSessions
       (SP.updateSessionStatus twoRecords "session_1" SP.stopped SP.noData 9000)) /\
  activeSessionData
    (SP.updateSessionStatus twoRecords "session_1" SP.stopped SP.noData 9000) "session_1"
    = None.
Proof.
  apply closed_session_not_active.
  - unfold Stored.unique. cbn. apply NoDup_cons. split.
    + rewrite list_elem_of_singleton. discriminate.
    + apply NoDup_singleton.
  - discriminate.
  - discriminate.
Defined.

Lemma trading_loop_never_trades_witness :
  snd (runTradingLoop (service1 1 0) 0 threeTicks) = [] /\
  store (fst (runTradingLoop (service1 1 0) 0 threeTicks)) = store (service1 1 0) /\
  exists s',
    sessions (fst (runTradingLoop (service1 1 0) 0 threeTicks)) !! 0%nat = Some s' /\
    sameBooks (session1 1 0) s'.
Proof.
  apply (trading_loop_never_trades (service1 1 0) 0 (session1 1 0) threeTicks).
  reflexivity.
Defined.

Lemma emergency_stop_ends_loops_witness :
  activeSessions (snd (stopAllActiveSessions (service1 1 0) 5000)) = ∅ /\
  balanceCheckers (snd (stopAllActiveSessions (service1 1 0) 5000)) = ∅ /\
  "session_1" ∈ fst (stopAllActiveSessions (service1 1 0) 5000) /\
  timers (snd (stopAllActiveSessions (service1 1 0) 5000)) = timers (service1 1 0) /\
  (exists s',
     sessions (snd (stopAllActiveSessions (service1 1 0) 5000)) !! 0%nat = Some s' /\
     isActive s' = false /\ sameBooks (session1 1 0) s') /\
  (forall i,
     snd (executeNextTrade (snd (stopAllActiveSessions (service1 1 0) 5000)) 0 i) = None /\
     timers (fst (executeNextTrade (snd (stopAllActiveSessions (service1 1 0) 5000)) 0 i))
       !! 0%nat = None).
Proof.
  apply (emergency_stop_ends_loops (service1 1 0) 5000 "session_1" 0 (session1 1 0));
    reflexivity.
Defined.

Lemma emergency_stop_survives_sweep_witness :
  SP.getActiveSessions (store (snd (stopAllActiveSessions (service1 1 0) 5000))) = [] /\
  ensureAllSessionsContinue (snd (stopAllActiveSessions (service1 1 0) 5000))
    (fun _ => Balance 1000000000) (fun _ => 6000%N) =
    snd (stopAllActiveSessions (service1 1 0) 5000).
Proof.
  apply emergency_stop_survives_sweep.
  - unfold Stored.unique. cbn. apply NoDup_singleton.
  - assert (E : SP.getActiveSessions (store (service1 1 0)) =
                [persisted1 1 (1 / (75 # 100)) SP.noOverrides]) by reflexivity.
    rewrite E. constructor; [|constructor]. exists 0%nat. reflexivity.
Defined.

Lemma startTradingSession_registers_witness :
  exists r s,
    sessions (emptyService []) !! r = None /\
    activeSessions started !! "session_1" = Some r /\
    sessions started !! r = Some s /\
    sessionId s = "session_1" /\ isActive s = true /\ tradingBalance s = 75 # 100 /\
    totalTrades s = 0%N /\ totalVolume s = 0 /\
    timers started !! r = Some 2000%N /\
    (forall tick a, snd (executeNextTrade started r tick) = Some a -> side a = BUY) /\
    (exists p, SP.getSession (store started) "session_1" = Some p /\
               SP.status p = SP.trading /\ SP.tradingBalance p = 75 # 100 /\
               SP.totalTrades p = 0%N) /\
    (forall r', r' <> r ->
       sessions started !! r' = sessions (emptyService []) !! r' /\
       timers started !! r' = timers (emptyService []) !! r') /\
    (forall id', id' <> "session_1" ->
       activeSessions started !! id' = activeSessions (emptyService []) !! id' /\
       SP.getSession (store started) id' = SP.getSession (store (emptyService [])) id').
Proof.
  apply (startTradingSession_registers (emptyService []) "session_1" "TokenMint" "Jupiter"
           (75 # 100) startOk started).
  vm_compute. reflexivity.
Defined.

Lemma funding_check_leaves_unfunded_witness :
  checkForFundingAndStartTrading (emptyService []) "session_1" "TokenMint" "Jupiter"
    (Balance 900000) startOk startOk = emptyService [].
Proof.
  apply funding_check_leaves_unfunded.
  right. right. right. exists 900000%N. split; reflexivity.
Defined.

Lemma funding_starts_one_session_witness :
  (exists r s,
     sessions (emptyService []) !! r = None /\
     activeSessions
       (checkForFundingAndStartTrading (emptyService []) "session_1" "TokenMint" "Jupiter"
          (Balance 1000000000) startOk startOk) !! "session_1" = Some r /\
     sessions
       (checkForFundingAndStartTrading (emptyService []) "session_1" "TokenMint" "Jupiter"
          (Balance 1000000000) startOk startOk) !! r = Some s /\
     isActive s = true /\
     tradingBalance s = toSOL 1000000000 * (75 # 100) /\
     timers
       (checkForFundingAndStartTrading (emptyService []) "session_1" "TokenMint" "Jupiter"
          (Balance 1000000000) startOk startOk) !! r = Some 2000%N) /\
  ("session_1" ∉ balanceCheckers
     (checkForFundingAndStartTrading (emptyService []) "session_1" "TokenMint" "Jupiter"
        (Balance 1000000000) startOk startOk)) /\
  (forall reading first' second',
     checkForFundingAndStartTrading
       (checkForFundingAndStartTrading (emptyService []) "session_1" "TokenMint" "Jupiter"
          (Balance 1000000000) startOk startOk)
       "session_1" "TokenMint" "Jupiter" reading first' second' =
     checkForFundingAndStartTrading (emptyService []) "session_1" "TokenMint" "Jupiter"
       (Balance 1000000000) startOk startOk).
Proof.
  apply (funding_starts_one_session (emptyService []) "session_1" "TokenMint" "Jupiter"
           1000000000 startOk startOk "UserWallet").
  - reflexivity.
  - reflexivity.
  - discriminate.
  - reflexivity.
  - apply Exists_cons_hd. reflexivity.
Defined.

Lemma sweep_leaves_started_loop_witness :
  ensureSessionContinues
    (fst (runTradingLoop (startTradingLoop (service1 1 0) 0) 0 [tradeOk; tradeThrows]))
    plainRecord (fun _ => Balance 1000000000) 9000 =
  fst (runTradingLoop (startTradingLoop (service1 1 0) 0) 0 [tradeOk; tradeThrows]).
Proof.
  apply (sweep_leaves_started_loop (service1 1 0) 0 (session1 1 0)); reflexivity.
Defined.

Lemma never_stop_loop_books_witness :
  exists s',
    sessions (fst (fst (runNeverStopLoop (service1 1 0) neverStopStart
                          [chainOk; chainFails sellTooSmall; chainOk])))
      !! 0%nat = Some s' /\
    tradingBalance s' = 1 /\
    totalVolume s' ==
      0 + tradedVolume (snd (runNeverStopLoop (service1 1 0) neverStopStart
                               [chainOk; chainFails sellTooSmall; chainOk])) /\
    Forall (fun a => 5 # 10000 < tradeAmount a /\ tradeAmount a <= 1 # 1000)
      (snd (runNeverStopLoop (service1 1 0) neverStopStart
              [chainOk; chainFails sellTooSmall; chainOk])).
Proof.
  apply (never_stop_loop_books [chainOk; chainFails sellTooSmall; chainOk]
           (service1 1 0) neverStopStart (session1 1 0)).
  reflexivity.
Defined.



Lemma bot_completes_at_reserve_witness :
  fst (UserVolumeBot.run "session_1" {[ "session_1" := botAtReserve ]} UserVolumeBot.start
         (UserVolumeBot.Proceeds (1 # 2) (UserVolumeBot.Swapped signature88) :: botRun)) =
    <["session_1" :=
        UserVolumeBot.mkUserSession (UserVolumeBot.fundingAmount botAtReserve)
          (UserVolumeBot.availableBalance botAtReserve) false "completed"]>
      {[ "session_1" := botAtReserve ]} /\
  snd (UserVolumeBot.run "session_1" {[ "session_1" := botAtReserve ]} UserVolumeBot.start
         (UserVolumeBot.Proceeds (1 # 2) (UserVolumeBot.Swapped signature88) :: botRun)) =
    UserVolumeBot.mkLoop (UserVolumeBot.tradeCount UserVolumeBot.start)
      (UserVolumeBot.currentTradeType UserVolumeBot.start)
      (UserVolumeBot.consecutiveErrors UserVolumeBot.start) false.
Proof.
  apply (bot_completes_at_reserve "session_1" {[ "session_1" := botAtReserve ]}
           UserVolumeBot.start botAtReserve (1 # 2)
           (UserVolumeBot.Swapped signature88) botRun).
  - reflexivity.
  - discriminate.
  - reflexivity.
Defined.

End FurtherExamples.
